(** * save-eat: the FIFO batch ledger of [app.py], embedded in Rocq

    The development models the business logic of [src/app.py] over the
    tables declared in [src/models.py]:

    - [calculate_fifo_cost] (FIFO allocation of a quantity over the purchase
      batches of an ingredient),
    - the routes [purchase], [cook], [discard_item],
      [update_purchase_status], [api_delete_usage] and [delete_usage],
    - the read-side aggregates of [dashboard] and [monthly_stats].

    Modelling conventions.

    - The columns typed [db.Float], and the [float(...)] values of a
      request, are binary64 in the program.  The ledger below holds them as
      [Z]: a [Z] stands for the binary64 value of that whole number, and the
      [Z] operations are what the program computes as long as every operand
      and result is a whole number of magnitude at most [2^53].  What the
      code does -- which rows it selects, in which order, which operation it
      applies to which column, what it compares -- is the same for all finite
      values.  Equations between sums or products are not: they hold for
      whole numbers within [exact_range] and are stated for those, and the
      module [Binary64], the allocation and the reversal over binary64
      values, shows them fail on decimal fractions.  Infinities and NaN are
      outside the model.
    - [purchase] looks ingredients up by name among those of the logged-in
      user; [current_user] of the store is that user.
    - A table whose rows are never deleted ([ingredients], [shopping_events],
      [purchases]) is the list of its rows in insertion order; the primary
      key of a row is its position, counted from 1 as autoincrement keys are.
      [usages] rows are deleted by the reversal routes, so they carry their
      key.
    - A query returns row objects; the loop bodies of the source mutate these
      objects and [db.session.commit()] (or the autoflush that precedes the
      next query) writes them back.  This is [flush].
    - A request whose handler raises leaves the database as it was: the
      session is discarded without a commit. *)

From Stdlib Require Import ZArith String List Lia Permutation Sorted.
From Stdlib Require Floats.
From stdpp Require Import base list relations.
Import ListNotations.

Local Open Scope Z_scope.

(** ** Dates *)

(** [datetime.date]: compared chronologically, that is lexicographically on
    (year, month, day). *)
Record date : Type := mkdate { year : Z; month : Z; day : Z }.

Definition date_compare (a b : date) : comparison :=
  match year a ?= year b with
  | Eq =>
      match month a ?= month b with
      | Eq => day a ?= day b
      | c => c
      end
  | c => c
  end.

Definition date_eqb (a b : date) : bool :=
  match date_compare a b with Eq => true | _ => false end.

Definition date_ltb (a b : date) : bool :=
  match date_compare a b with Lt => true | _ => false end.

Definition date_leb (a b : date) : bool :=
  match date_compare a b with Gt => false | _ => true end.

Definition is_leap (y : Z) : bool :=
  (y mod 4 =? 0) && (negb (y mod 100 =? 0) || (y mod 400 =? 0)).

Definition days_in_month (y m : Z) : Z :=
  match m with
  | 1 | 3 | 5 | 7 | 8 | 10 | 12 => 31
  | 4 | 6 | 9 | 11 => 30
  | 2 => if is_leap y then 29 else 28
  | _ => 0
  end.

(** The constructor [date(year, month, day)]; it raises [ValueError]
    ([None]) outside the calendar. *)
Definition make_date (y m d : Z) : option date :=
  if (1 <=? y) && (y <=? 9999) && (1 <=? m) && (m <=? 12)
     && (1 <=? d) && (d <=? days_in_month y m)
  then Some (mkdate y m d) else None.

(** ** Tables of [models.py] *)

(** [user_id] is the column [purchase] filters on and fills
    ([user_id=current_user.id]); [models.py] does not declare it, and a row
    created without it (the seed of [app.py]) holds NULL there. *)
Record Ingredient : Type := mkIngredient {
  name : string;
  category : string;
  mode : string;
  standard_unit : string;
  user_id : option nat
}.

Record ShoppingEvent : Type := mkShoppingEvent {
  event_date : date;
  place : string;
  total_cost : Z;
  total_waste : Z
}.

Record Purchase : Type := mkPurchase {
  ingredient_id : nat;
  purchase_date : date;
  quantity : Z;
  remaining_quantity : Z;
  cost_per_unit : Z;
  expiry_date : option date;
  shopping_event_id : option nat;
  status : string;
  discarded_quantity : Z;
  discarded_cost : Z
}.

(** [input_unit] is the string [f"{input_amount} {unit_name}"]; the model
    keeps its two components. *)
Record Usage : Type := mkUsage {
  usage_id : nat;
  usage_ingredient_id : nat;
  usage_date : date;
  meal_type : string;
  input_amount : Z;
  input_unit_name : string;
  actual_usage : Z;
  cost : Z
}.

Record UnitMatrix : Type := mkUnitMatrix {
  unit_name : string;
  ratio_to_standard : Z
}.

(** The database.  [nulls_first] is a property of the engine behind
    [DATABASE_URL]: SQLite (the fallback of [app.py]) sorts NULL before every
    value in an ascending [ORDER BY], PostgreSQL sorts it after.
    [current_user] is [current_user.id], the user logged in to the session
    the requests belong to. *)
Record store : Type := mkStore {
  ingredients : list Ingredient;
  shopping_events : list ShoppingEvent;
  purchases : list Purchase;
  usages : list Usage;
  unit_matrix : list UnitMatrix;
  nulls_first : bool;
  current_user : nat
}.

(** No row in any table; the session is that of user 1. *)
Definition empty_store (nf : bool) : store :=
  mkStore [] [] [] [] [] nf 1.

Definition with_ingredients (st : store) (l : list Ingredient) : store :=
  mkStore l (shopping_events st) (purchases st) (usages st) (unit_matrix st)
          (nulls_first st) (current_user st).

Definition with_events (st : store) (l : list ShoppingEvent) : store :=
  mkStore (ingredients st) l (purchases st) (usages st) (unit_matrix st)
          (nulls_first st) (current_user st).

Definition with_purchases (st : store) (l : list Purchase) : store :=
  mkStore (ingredients st) (shopping_events st) l (usages st) (unit_matrix st)
          (nulls_first st) (current_user st).

Definition with_usages (st : store) (l : list Usage) : store :=
  mkStore (ingredients st) (shopping_events st) (purchases st) l
          (unit_matrix st) (nulls_first st) (current_user st).

(** Attribute assignments on row objects. *)
Definition set_remaining (p : Purchase) (r : Z) : Purchase :=
  mkPurchase (ingredient_id p) (purchase_date p) (quantity p) r
             (cost_per_unit p) (expiry_date p) (shopping_event_id p)
             (status p) (discarded_quantity p) (discarded_cost p).

Definition set_discarded (p : Purchase) (dq dc : Z) : Purchase :=
  mkPurchase (ingredient_id p) (purchase_date p) (quantity p)
             (remaining_quantity p) (cost_per_unit p) (expiry_date p)
             (shopping_event_id p) (status p) dq dc.

Definition set_status (p : Purchase) (s : string) : Purchase :=
  mkPurchase (ingredient_id p) (purchase_date p) (quantity p)
             (remaining_quantity p) (cost_per_unit p) (expiry_date p)
             (shopping_event_id p) s (discarded_quantity p) (discarded_cost p).

Definition set_total_cost (e : ShoppingEvent) (c : Z) : ShoppingEvent :=
  mkShoppingEvent (event_date e) (place e) c (total_waste e).

Definition set_total_waste (e : ShoppingEvent) (w : Z) : ShoppingEvent :=
  mkShoppingEvent (event_date e) (place e) (total_cost e) w.

(** ** Rows and primary keys *)

Fixpoint enumerate_from {A : Type} (n : nat) (t : list A) : list (nat * A) :=
  match t with
  | [] => []
  | x :: t' => (n, x) :: enumerate_from (S n) t'
  end.

(** [Model.query.all()]: every row with its primary key. *)
Definition all_rows {A : Type} (t : list A) : list (nat * A) :=
  enumerate_from 1 t.

(** [Model.query.get(id)]. *)
Definition table_get {A : Type} (id : nat) (t : list A) : option A :=
  match id with
  | O => None
  | S i => t !! i
  end.

(** Writing the row object [x] of key [id] back. *)
Definition table_set {A : Type} (id : nat) (x : A) (t : list A) : list A :=
  match id with
  | O => t
  | S i => <[i := x]> t
  end.

(** Writing back the row objects a query returned. *)
Definition flush {A : Type} (rows : list (nat * A)) (t : list A) : list A :=
  fold_left (fun acc r => table_set (fst r) (snd r) acc) rows t.

(** Row objects after [remaining_quantity += amount], row by row. *)
Fixpoint add_to_rows (rows : list (nat * Purchase)) (amounts : list (nat * Z))
    : list (nat * Purchase) :=
  match rows, amounts with
  | (i, p) :: rows', (_, a) :: amounts' =>
      (i, set_remaining p (remaining_quantity p + a)) :: add_to_rows rows' amounts'
  | _, _ => rows
  end.

Definition negated (amounts : list (nat * Z)) : list (nat * Z) :=
  map (fun a => (fst a, - snd a)) amounts.

(** [rows] mirrors the table: every row object holds what the table holds
    under its key. *)
Definition snapshot {A : Type} (rows : list (nat * A)) (t : list A) : Prop :=
  forall i x, In (i, x) rows -> table_get i t = Some x.

(** ** ORDER BY *)

(** A stable insertion sort: rows that compare equal keep the order of the
    scan, that is of their primary keys.  (SQL leaves the order of ties
    open; the model fixes it.) *)
Fixpoint insert_row {A : Type} (leb : A -> A -> bool) (x : nat * A)
    (l : list (nat * A)) : list (nat * A) :=
  match l with
  | [] => [x]
  | y :: l' =>
      if leb (snd x) (snd y) then x :: y :: l' else y :: insert_row leb x l'
  end.

Definition order_by {A : Type} (leb : A -> A -> bool) (l : list (nat * A))
    : list (nat * A) :=
  foldr (insert_row leb) [] l.

(** [Model.query.filter(cond).order_by(key).all()]. *)
Definition query_rows {A : Type} (cond : nat * A -> bool) (leb : A -> A -> bool)
    (t : list A) : list (nat * A) :=
  order_by leb (List.filter cond (all_rows t)).

(** [expiry_date.asc()] on a nullable column. *)
Definition expiry_compare (nf : bool) (a b : option date) : comparison :=
  match a, b with
  | None, None => Eq
  | None, Some _ => if nf then Lt else Gt
  | Some _, None => if nf then Gt else Lt
  | Some x, Some y => date_compare x y
  end.

(** [order_by(Purchase.purchase_date.asc(), Purchase.expiry_date.asc())]. *)
Definition fifo_compare (nf : bool) (p q : Purchase) : comparison :=
  match date_compare (purchase_date p) (purchase_date q) with
  | Eq => expiry_compare nf (expiry_date p) (expiry_date q)
  | c => c
  end.

Definition fifo_leb (nf : bool) (p q : Purchase) : bool :=
  match fifo_compare nf p q with Gt => false | _ => true end.

(** Oldest purchase first; among batches of one purchase date, earliest
    expiry first. *)
Definition fifo_order (nf : bool) (r r' : nat * Purchase) : Prop :=
  fifo_leb nf (snd r) (snd r') = true.

(** [order_by(Purchase.purchase_date.desc()).first()] over the rows of a
    query: the first row of the latest purchase date. *)
Fixpoint most_recent (rows : list (nat * Purchase)) : option (nat * Purchase) :=
  match rows with
  | [] => None
  | r :: rest =>
      match most_recent rest with
      | None => Some r
      | Some b =>
          if date_leb (purchase_date (snd b)) (purchase_date (snd r))
          then Some r else Some b
      end
  end.

(** ** Business logic helpers *)

(** The query of [calculate_fifo_cost]: rows of the ingredient with stock
    left, oldest first. *)
Definition in_stock (ing : nat) (r : nat * Purchase) : bool :=
  Nat.eqb (ingredient_id (snd r)) ing && (0 <? remaining_quantity (snd r)).

Definition fifo_query (st : store) (ing : nat) : list (nat * Purchase) :=
  query_rows (in_stock ing) (fifo_leb (nulls_first st)) (purchases st).

(** The [for p in purchases] loop of [calculate_fifo_cost]; it returns the
    row objects as the loop leaves them, [total_cost] and [qty_to_fill]. *)
Fixpoint fifo_loop (rows : list (nat * Purchase)) (total_cost0 qty_to_fill : Z)
    : list (nat * Purchase) * Z * Z :=
  match rows with
  | [] => ([], total_cost0, qty_to_fill)
  | (i, p) :: rest =>
      if qty_to_fill <=? 0 then (rows, total_cost0, qty_to_fill)
      else
        let take := Z.min (remaining_quantity p) qty_to_fill in
        let cost_chunk := take * cost_per_unit p in
        let p' := set_remaining p (remaining_quantity p - take) in
        let '(rest', tc, q) :=
          fifo_loop rest (total_cost0 + cost_chunk) (qty_to_fill - take) in
        ((i, p') :: rest', tc, q)
  end.

(** [calculate_fifo_cost(ingredient_id, needed_qty)]: the returned cost and
    the database after the commit. *)
Definition calculate_fifo_cost (st : store) (ing : nat) (needed_qty : Z)
    : Z * store :=
  match table_get ing (ingredients st) with
  | None => (0, st)
  | Some _ =>
      let '(rows', tc, _) := fifo_loop (fifo_query st ing) 0 needed_qty in
      (tc, with_purchases st (flush rows' (purchases st)))
  end.

(** The [take] of every row in the loop of [calculate_fifo_cost], by key;
    a row the loop does not reach (it comes after the [break]) gives 0. *)
Fixpoint fifo_takes (rows : list (nat * Purchase)) (qty_to_fill : Z)
    : list (nat * Z) :=
  match rows with
  | [] => []
  | (i, p) :: rest =>
      if qty_to_fill <=? 0 then (i, 0) :: fifo_takes rest qty_to_fill
      else
        let take := Z.min (remaining_quantity p) qty_to_fill in
        (i, take) :: fifo_takes rest (qty_to_fill - take)
  end.

(** Cost of the takes, row by row. *)
Fixpoint takes_cost (rows : list (nat * Purchase)) (takes : list (nat * Z)) : Z :=
  match rows, takes with
  | (_, p) :: rows', (_, a) :: takes' => a * cost_per_unit p + takes_cost rows' takes'
  | _, _ => 0
  end.

Definition sum_Z (l : list Z) : Z := foldr Z.add 0 l.

(** The quantity one call of [calculate_fifo_cost] takes out of the batches. *)
Definition allocated_quantity (st : store) (ing : nat) (needed_qty : Z) : Z :=
  match table_get ing (ingredients st) with
  | None => 0
  | Some _ => sum_Z (map snd (fifo_takes (fifo_query st ing) needed_qty))
  end.

(** ** Routes *)

(** What a handler answers. *)
Inductive response : Type :=
| success              (* jsonify({'success': True}) *)
| not_found            (* 404: {'error': 'Not found'}, {'success': False} or get_or_404 *)
| exceeds_remaining    (* 400: {'error': 'Exceeds remaining'} *)
| failure_400          (* 400: {'success': False} *)
| server_error.        (* 500: the handler raised; nothing is committed *)

(** *** [purchase] (POST, JSON) *)

(** One element of [data['items']].  [item_final_price] is
    [price * discount_ratio] and [item_unit_price] is [final_item_price / qty]
    as the route computes them; this pricing arithmetic (a floating-point
    ratio and a division) is taken as given. *)
Record purchase_item : Type := mkItem {
  item_name : string;
  item_qty : Z;
  item_unit : string;
  item_final_price : Z;
  item_unit_price : Z;
  item_expiry : option date
}.

(** [Ingredient.query.filter_by(name=name, user_id=current_user.id).first()]. *)
Definition owned_by (user : nat) (g : Ingredient) : bool :=
  match user_id g with
  | Some u => Nat.eqb u user
  | None => false
  end.

Definition find_ingredient (nm : string) (user : nat) (t : list Ingredient)
    : option nat :=
  fst <$> head (List.filter
                  (fun r => String.eqb (name (snd r)) nm && owned_by user (snd r))
                  (all_rows t)).

(** The [Purchase(...)] of the route, with the column defaults of
    [models.py] for the two waste columns. *)
Definition new_purchase (ing : nat) (p_date : date) (qty cost_unit : Z)
    (e_date : option date) (event_id : nat) : Purchase :=
  mkPurchase ing p_date qty qty cost_unit e_date (Some event_id) "active" 0 0.

(** One iteration of [for item in items]. *)
Definition purchase_item_step (p_date : date) (event_id : nat)
    (acc : store * Z) (item : purchase_item) : store * Z :=
  let '(st, total_trip_cost) := acc in
  let '(st1, ing) :=
    match find_ingredient (item_name item) (current_user st) (ingredients st) with
    | Some i => (st, i)
    | None =>
        (with_ingredients st
           (ingredients st ++
              [mkIngredient (item_name item) "일반" "precision" (item_unit item)
                            (Some (current_user st))]),
         S (length (ingredients st)))
    end in
  let cost_unit := if 0 <? item_qty item then item_unit_price item else 0 in
  let new_p :=
    new_purchase ing p_date (item_qty item) cost_unit (item_expiry item) event_id in
  (with_purchases st1 (purchases st1 ++ [new_p]),
   total_trip_cost + item_final_price item).

Definition purchase (st : store) (p_date : date) (p_place : string)
    (items : list purchase_item) : response * store :=
  let event := mkShoppingEvent p_date p_place 0 0 in
  let st0 := with_events st (shopping_events st ++ [event]) in
  let event_id := length (shopping_events st0) in
  let '(st1, total_trip_cost) :=
    fold_left (purchase_item_step p_date event_id) items (st0, 0) in
  (success,
   with_events st1
     (table_set event_id (set_total_cost event total_trip_cost)
        (shopping_events st1))).

(** *** [cook] (POST, JSON) *)

Record cook_item : Type := mkCookItem {
  cook_ingredient_id : nat;
  cook_amount : Z;
  cook_unit_name : string
}.

(** [UnitMatrix.query.filter_by(unit_name=unit_name).first()]. *)
Definition find_unit (nm : string) (t : list UnitMatrix) : option UnitMatrix :=
  head (List.filter (fun m => String.eqb (unit_name m) nm) t).

(** The key the engine gives the next [usages] row. *)
Definition next_usage_id (t : list Usage) : nat :=
  S (foldr Nat.max 0%nat (map usage_id t)).

Definition final_quantity (st : store) (item : cook_item) : Z :=
  match find_unit (cook_unit_name item) (unit_matrix st) with
  | Some matrix => cook_amount item * ratio_to_standard matrix
  | None => cook_amount item
  end.

(** One iteration of [for item in items]. *)
Definition cook_item_step (u_date : date) (meal : string) (st : store)
    (item : cook_item) : store :=
  let final_qty := final_quantity st item in
  let '(c, st1) := calculate_fifo_cost st (cook_ingredient_id item) final_qty in
  let new_usage :=
    mkUsage (next_usage_id (usages st1)) (cook_ingredient_id item) u_date meal
            (cook_amount item) (cook_unit_name item) final_qty c in
  with_usages st1 (usages st1 ++ [new_usage]).

Definition cook (st : store) (u_date : date) (meal : string)
    (items : list cook_item) : response * store :=
  (success, fold_left (cook_item_step u_date meal) items st).

(** *** [discard_item] *)

(** [if p.shopping_event_id:] is false for NULL and for 0. *)
Definition truthy_id (o : option nat) : option nat :=
  match o with
  | Some (S e) => Some (S e)
  | _ => None
  end.

(** [amount] is [data.get('amount', p.remaining_quantity)]: [None] when the
    request carries no amount. *)
Definition discard_item (st : store) (purchase_id : nat) (amount_in : option Z)
    : response * store :=
  match table_get purchase_id (purchases st) with
  | None => (not_found, st)
  | Some p =>
      let amount := default (remaining_quantity p) amount_in in
      if remaining_quantity p <? amount then (exceeds_remaining, st)
      else
        let waste_cost := amount * cost_per_unit p in
        let p1 := set_remaining p (remaining_quantity p - amount) in
        let p2 := set_discarded p1 (discarded_quantity p1 + amount)
                                   (discarded_cost p1 + waste_cost) in
        let p3 := if remaining_quantity p2 =? 0
                  then set_status p2 "discarded" else p2 in
        let st1 := with_purchases st (table_set purchase_id p3 (purchases st)) in
        match truthy_id (shopping_event_id p3) with
        | None => (success, st1)
        | Some eid =>
            match table_get eid (shopping_events st1) with
            | None => (server_error, st)
            | Some event =>
                (success,
                 with_events st1
                   (table_set eid
                      (set_total_waste event (total_waste event + waste_cost))
                      (shopping_events st1)))
            end
        end
  end.

(** *** [update_purchase_status] *)

Definition update_purchase_status (st : store) (purchase_id : nat)
    (new_status : string) : response * store :=
  match table_get purchase_id (purchases st) with
  | None => (not_found, st)
  | Some p =>
      if String.eqb new_status "discarded"
         && negb (String.eqb (status p) "discarded")
      then
        let waste_cost := remaining_quantity p * cost_per_unit p in
        let p1 := set_discarded p (discarded_quantity p + remaining_quantity p)
                                  (discarded_cost p) in
        let p2 := set_remaining p1 0 in
        let p3 := set_discarded p2 (discarded_quantity p2)
                                   (discarded_cost p2 + waste_cost) in
        let p4 := set_status p3 "discarded" in
        let st1 := with_purchases st (table_set purchase_id p4 (purchases st)) in
        match truthy_id (shopping_event_id p4) with
        | None => (success, st1)
        | Some eid =>
            match table_get eid (shopping_events st1) with
            | None => (server_error, st)
            | Some evt =>
                (success,
                 with_events st1
                   (table_set eid
                      (set_total_waste evt (total_waste evt + waste_cost))
                      (shopping_events st1)))
            end
        end
      else (success, st)
  end.

(** *** [api_delete_usage] and [delete_usage] *)

(** [Usage.query.get(usage_id)]. *)
Definition get_usage (uid : nat) (t : list Usage) : option Usage :=
  head (List.filter (fun u => Nat.eqb (usage_id u) uid) t).

(** [db.session.delete(usage)]. *)
Definition delete_row (uid : nat) (t : list Usage) : list Usage :=
  List.filter (fun u => negb (Nat.eqb (usage_id u) uid)) t.

(** Rows of the ingredient that are not full, oldest first. *)
Definition not_full (ing : nat) (r : nat * Purchase) : bool :=
  Nat.eqb (ingredient_id (snd r)) ing
  && (remaining_quantity (snd r) <? quantity (snd r)).

Definition restore_query (st : store) (ing : nat) : list (nat * Purchase) :=
  query_rows (not_full ing) (fifo_leb (nulls_first st)) (purchases st).

(** The [for p in purchases] loop of [api_delete_usage]: the row objects as
    the loop leaves them and [remaining_to_restore]. *)
Fixpoint restore_loop (rows : list (nat * Purchase)) (remaining_to_restore : Z)
    : list (nat * Purchase) * Z :=
  match rows with
  | [] => ([], remaining_to_restore)
  | (i, p) :: rest =>
      if remaining_to_restore <=? 0 then (rows, remaining_to_restore)
      else
        let space := quantity p - remaining_quantity p in
        let restore_amount := Z.min space remaining_to_restore in
        let p' := set_remaining p (remaining_quantity p + restore_amount) in
        let '(rest', r) :=
          restore_loop rest (remaining_to_restore - restore_amount) in
        ((i, p') :: rest', r)
  end.

(** The [restore_amount] of every row in the loop of [api_delete_usage], by
    key; 0 for a row the loop does not reach. *)
Fixpoint restore_amounts (rows : list (nat * Purchase)) (remaining_to_restore : Z)
    : list (nat * Z) :=
  match rows with
  | [] => []
  | (i, p) :: rest =>
      if remaining_to_restore <=? 0
      then (i, 0) :: restore_amounts rest remaining_to_restore
      else
        let restore_amount :=
          Z.min (quantity p - remaining_quantity p) remaining_to_restore in
        (i, restore_amount) :: restore_amounts rest (remaining_to_restore - restore_amount)
  end.

(** [Purchase.query.filter_by(ingredient_id=...)
      .order_by(Purchase.purchase_date.desc()).first()]. *)
Definition of_ingredient (ing : nat) (r : nat * Purchase) : bool :=
  Nat.eqb (ingredient_id (snd r)) ing.

Definition last_purchase_query (t : list Purchase) (ing : nat)
    : option (nat * Purchase) :=
  most_recent (List.filter (of_ingredient ing) (all_rows t)).

Definition api_delete_usage (st : store) (uid : nat) : response * store :=
  match get_usage uid (usages st) with
  | None => (not_found, st)
  | Some usage =>
      let ing := usage_ingredient_id usage in
      let qty_to_restore := actual_usage usage in
      let '(rows', remaining_to_restore) :=
        restore_loop (restore_query st ing) qty_to_restore in
      let t1 := flush rows' (purchases st) in
      let t2 :=
        if 0 <? remaining_to_restore then
          match last_purchase_query t1 ing with
          | Some (i, last_purchase) =>
              table_set i
                (set_remaining last_purchase
                   (remaining_quantity last_purchase + remaining_to_restore))
                t1
          | None => t1
          end
        else t1 in
      (success, with_usages (with_purchases st t2) (delete_row uid (usages st)))
  end.

(** The older route [/delete_usage/<id>]. *)
Definition delete_usage (st : store) (uid : nat) : response * store :=
  match get_usage uid (usages st) with
  | None => (failure_400, st)
  | Some usage =>
      let t1 :=
        match last_purchase_query (purchases st) (usage_ingredient_id usage) with
        | Some (i, p) =>
            table_set i
              (set_remaining p (remaining_quantity p + actual_usage usage))
              (purchases st)
        | None => purchases st
        end in
      (success, with_usages (with_purchases st t1) (delete_row uid (usages st)))
  end.

(** ** Aggregates *)

(** [start_date = date(year, month, 1)] and the first day of the next
    month; [None] when a constructor raises. *)
Definition month_bounds (y m : Z) : option (date * date) :=
  match make_date y m 1 with
  | None => None
  | Some start_date =>
      match (if m =? 12 then make_date (y + 1) 1 1 else make_date y (m + 1) 1) with
      | None => None
      | Some end_date => Some (start_date, end_date)
      end
  end.

(** [column >= start, column < end]. *)
Definition in_range (bounds : date * date) (d : date) : bool :=
  date_leb (fst bounds) d && date_ltb d (snd bounds).

(** [monthly_usage] of [dashboard], for the month of [today]:
    [db.func.sum(Usage.cost)] over the month, [or 0]. *)
Definition monthly_usage (st : store) (y m : Z) : option Z :=
  match month_bounds y m with
  | None => None
  | Some b =>
      Some (sum_Z (map cost (List.filter (fun u => in_range b (usage_date u)) (usages st))))
  end.

(** [monthly_waste] of [dashboard]. *)
Definition monthly_waste (st : store) (y m : Z) : option Z :=
  match month_bounds y m with
  | None => None
  | Some b =>
      Some (sum_Z (map total_waste
                     (List.filter (fun e => in_range b (event_date e)) (shopping_events st))))
  end.


(** The value of [data[day_str]] in [monthly_stats]. *)
Record day_entry : Type := mkEntry {
  entry_usage : Z;
  entry_waste : Z;
  entry_total : Z
}.

(** The dict [data] of [monthly_stats], in insertion order.  Its keys are
    the strings [strftime('%Y-%m-%d')] of dates; the model keys it by the
    date. *)
Fixpoint dict_get (k : date) (data : list (date * day_entry)) : option day_entry :=
  match data with
  | [] => None
  | (k', v) :: rest => if date_eqb k' k then Some v else dict_get k rest
  end.

Fixpoint dict_set (k : date) (v : day_entry) (data : list (date * day_entry))
    : list (date * day_entry) :=
  match data with
  | [] => [(k, v)]
  | (k', v') :: rest =>
      if date_eqb k' k then (k', v) :: rest else (k', v') :: dict_set k v rest
  end.

(** [if day_str not in data: data[day_str] = {'usage': 0, 'waste': 0, 'total': 0}]. *)
Definition dict_touch (k : date) (data : list (date * day_entry))
    : list (date * day_entry) :=
  match dict_get k data with
  | None => dict_set k (mkEntry 0 0 0) data
  | Some _ => data
  end.

(** The body of [for u in usages]. *)
Definition add_usage (data : list (date * day_entry)) (u : Usage)
    : list (date * day_entry) :=
  let data1 := dict_touch (usage_date u) data in
  match dict_get (usage_date u) data1 with
  | None => data1
  | Some e =>
      dict_set (usage_date u)
        (mkEntry (entry_usage e + cost u) (entry_waste e) (entry_total e + cost u))
        data1
  end.

(** The body of [for e in events]. *)
Definition add_waste (data : list (date * day_entry)) (ev : ShoppingEvent)
    : list (date * day_entry) :=
  if 0 <? total_waste ev then
    let data1 := dict_touch (event_date ev) data in
    match dict_get (event_date ev) data1 with
    | None => data1
    | Some e =>
        dict_set (event_date ev)
          (mkEntry (entry_usage e) (entry_waste e + total_waste ev)
                   (entry_total e + total_waste ev))
          data1
    end
  else data.

(** [monthly_stats]: the dict it returns, [None] when a date constructor
    raises. *)
Definition monthly_stats (st : store) (y m : Z) : option (list (date * day_entry)) :=
  match month_bounds y m with
  | None => None
  | Some b =>
      let usages_q := List.filter (fun u => in_range b (usage_date u)) (usages st) in
      let events_q := List.filter (fun e => in_range b (event_date e)) (shopping_events st) in
      Some (fold_left add_waste events_q (fold_left add_usage usages_q []))
  end.

(** ** Requests and runs *)

(** The requests that change the ledger. *)
Inductive op : Type :=
| OpPurchase (p_date : date) (p_place : string) (items : list purchase_item)
| OpCook (u_date : date) (meal : string) (items : list cook_item)
| OpDiscard (purchase_id : nat) (amount : option Z)
| OpUpdateStatus (purchase_id : nat) (new_status : string)
| OpApiDeleteUsage (uid : nat).

Definition handle (st : store) (o : op) : response * store :=
  match o with
  | OpPurchase d pl items => purchase st d pl items
  | OpCook d meal items => cook st d meal items
  | OpDiscard pid amount => discard_item st pid amount
  | OpUpdateStatus pid s => update_purchase_status st pid s
  | OpApiDeleteUsage uid => api_delete_usage st uid
  end.

Definition step (st : store) (o : op) : store := snd (handle st o).

Definition run (ops : list op) (st : store) : store := fold_left step ops st.

(** A database with no batch, no usage and no shopping event yet. *)
Definition empty_ledger (st : store) : Prop :=
  purchases st = [] /\ usages st = [] /\ shopping_events st = [].

(** [allocate], the boundary operation, with its outcome.
    [calculate_fifo_cost] has no path that raises: every call returns a
    cost. *)
Inductive outcome (A : Type) : Type :=
| returns (a : A)
| fails (e : response).

Arguments returns {A} a.
Arguments fails {A} e.

Definition allocate (st : store) (ing : nat) (needed_qty : Z)
    : outcome (Z * store) :=
  returns (calculate_fifo_cost st ing needed_qty).

(** ** Ledger totals *)

Definition table_sum {A : Type} (f : A -> Z) (t : list A) : Z :=
  sum_Z (map f t).

(** A column restricted to the batches of one ingredient. *)
Definition for_ingredient (ing : nat) (f : Purchase -> Z) (p : Purchase) : Z :=
  if Nat.eqb (ingredient_id p) ing then f p else 0.

Definition remaining_total (st : store) (ing : nat) : Z :=
  table_sum (for_ingredient ing remaining_quantity) (purchases st).

Definition discarded_total (st : store) (ing : nat) : Z :=
  table_sum (for_ingredient ing discarded_quantity) (purchases st).

Definition original_total (st : store) (ing : nat) : Z :=
  table_sum (for_ingredient ing quantity) (purchases st).

(** Remaining plus discarded minus original quantity of a batch ... *)
Definition batch_balance (p : Purchase) : Z :=
  remaining_quantity p + discarded_quantity p - quantity p.

(** ... and over the batches of one ingredient. *)
Definition ledger_balance (st : store) (ing : nat) : Z :=
  table_sum (for_ingredient ing batch_balance) (purchases st).

(** Value of the stock of one ingredient, as [get_total_asset_value] prices
    a batch. *)
Definition stock_value (st : store) (ing : nat) : Z :=
  table_sum (for_ingredient ing (fun p => remaining_quantity p * cost_per_unit p))
            (purchases st).

(** Quantity the allocations of a request take from the batches of [ing]. *)
Fixpoint allocated_by_cook (st : store) (u_date : date) (meal : string)
    (items : list cook_item) (ing : nat) : Z :=
  match items with
  | [] => 0
  | item :: rest =>
      (if Nat.eqb (cook_ingredient_id item) ing
       then allocated_quantity st ing (final_quantity st item) else 0)
      + allocated_by_cook (cook_item_step u_date meal st item) u_date meal rest ing
  end.

Definition allocated_by (st : store) (o : op) (ing : nat) : Z :=
  match o with
  | OpCook d meal items => allocated_by_cook st d meal items ing
  | _ => 0
  end.

(** Quantity taken from the batches of [ing] along a run. *)
Fixpoint total_allocated (ops : list op) (st : store) (ing : nat) : Z :=
  match ops with
  | [] => 0
  | o :: rest => allocated_by st o ing + total_allocated rest (step st o) ing
  end.

(** Requests other than a usage reversal. *)
Definition no_reversal (o : op) : Prop :=
  match o with
  | OpApiDeleteUsage _ => False
  | _ => True
  end.

(** Requests whose purchase quantities and discard amounts are not
    negative. *)
Definition nonneg_request (o : op) : Prop :=
  match o with
  | OpPurchase _ _ items => Forall (fun it => 0 <= item_qty it) items
  | OpDiscard _ (Some a) => 0 <= a
  | _ => True
  end.

(** The owning event of a batch, when it names one, is in the database. *)
Definition event_resolves (st : store) (p : Purchase) : Prop :=
  match truthy_id (shopping_event_id p) with
  | None => True
  | Some eid => is_Some (table_get eid (shopping_events st))
  end.

(** Every batch of [ing] emptied, nothing else touched. *)
Definition emptied (ing : nat) (t : list Purchase) : list Purchase :=
  map (fun p => if Nat.eqb (ingredient_id p) ing then set_remaining p 0 else p) t.

(** ** The operations as the specification words them *)

(** Allocation: walk the batches in order and take
    [min(remaining_quantity, quantity_still_needed)] from each. *)
Fixpoint spec_takes (batches : list (nat * Purchase)) (still_needed : Z)
    : list (nat * Z) :=
  match batches with
  | [] => []
  | (i, p) :: rest =>
      let take := Z.min (remaining_quantity p) still_needed in
      (i, take) :: spec_takes rest (still_needed - take)
  end.

(** The amount a walk assigns to the batch of key [i]; 0 when the walk does
    not touch it. *)
Definition amount_of (i : nat) (amounts : list (nat * Z)) : Z :=
  match List.find (fun r => Nat.eqb (fst r) i) amounts with
  | Some r => snd r
  | None => 0
  end.

(** Every batch with its remaining quantity changed by [delta] of its key. *)
Definition adjust_remaining (delta : nat -> Z) (t : list Purchase) : list Purchase :=
  map (fun r => set_remaining (snd r) (remaining_quantity (snd r) + delta (fst r)))
      (all_rows t).

Definition spec_allocate (st : store) (ing : nat) (needed_qty : Z) : Z * store :=
  let batches := fifo_query st ing in
  let takes := spec_takes batches needed_qty in
  (sum_Z (map (fun r => amount_of (fst r) takes * cost_per_unit (snd r)) batches),
   with_purchases st
     (adjust_remaining (fun i => - amount_of i takes) (purchases st))).

(** Reversal: fill the batches that are not full, oldest first, each with
    [min(space, amount_still_to_restore)]. *)
Fixpoint spec_restores (batches : list (nat * Purchase)) (still_to_restore : Z)
    : list (nat * Z) :=
  match batches with
  | [] => []
  | (i, p) :: rest =>
      let amount := Z.min (quantity p - remaining_quantity p) still_to_restore in
      (i, amount) :: spec_restores rest (still_to_restore - amount)
  end.

(** ... then add what is left to the most recently purchased batch, and
    delete the usage. *)
Definition spec_reverse (st : store) (usage : Usage) : store :=
  let ing := usage_ingredient_id usage in
  let restores := spec_restores (restore_query st ing) (actual_usage usage) in
  let remainder := actual_usage usage - sum_Z (map snd restores) in
  let most_recent_key :=
    match last_purchase_query (purchases st) ing with
    | Some (i, _) => i
    | None => O
    end in
  with_usages
    (with_purchases st
       (adjust_remaining
          (fun i => amount_of i restores
                    + (if Nat.eqb i most_recent_key then remainder else 0))
          (purchases st)))
    (delete_row (usage_id usage) (usages st)).

(** ** Read-side helpers and views *)

(** [get_total_asset_value]: cost of the goods on hand. *)
Definition get_total_asset_value (st : store) : Z :=
  sum_Z (map (fun p => remaining_quantity p * cost_per_unit p)
             (List.filter (fun p => 0 <? remaining_quantity p) (purchases st))).

(** [date.toordinal()], as [datetime] computes it: days before the year,
    days before the month, day of the month. *)
Definition days_before_year (y : Z) : Z :=
  (y - 1) * 365 + (y - 1) / 4 - (y - 1) / 100 + (y - 1) / 400.

Definition days_before_month (y m : Z) : Z :=
  match m with
  | 1 => 0
  | 2 => 31
  | 3 => 59
  | 4 => 90
  | 5 => 120
  | 6 => 151
  | 7 => 181
  | 8 => 212
  | 9 => 243
  | 10 => 273
  | 11 => 304
  | 12 => 334
  | _ => 0
  end + (if (2 <? m) && is_leap y then 1 else 0).

Definition toordinal (d : date) : Z :=
  days_before_year (year d) + days_before_month (year d) (month d) + day d.

(** [(a - b).days]. *)
Definition days_between (a b : date) : Z := toordinal a - toordinal b.

(** A date of the calendar, as every [datetime.date] object is. *)
Definition valid_date (d : date) : Prop :=
  1 <= year d <= 9999 /\ 1 <= month d <= 12
  /\ 1 <= day d <= days_in_month (year d) (month d).

(** One dict of the list [get_expiring_items] returns. *)
Record expiring_item : Type := mkExpiring {
  exp_id : nat;
  exp_name : string;
  exp_days_left : Z;
  exp_potential_loss : Z;
  exp_qty : Z;
  exp_unit : string
}.

(** The body of [for p in purchases] in [get_expiring_items].  [None]: the
    body raised ([p.ingredient] is [None] for a batch whose ingredient is not
    in the database). *)
Definition expiring_step (st : store) (today : date) (days : Z)
    (acc : option (list expiring_item)) (r : nat * Purchase)
    : option (list expiring_item) :=
  match acc with
  | None => None
  | Some items =>
      match expiry_date (snd r) with
      | None => Some items
      | Some e =>
          let delta := days_between e today in
          if (0 <=? delta) && (delta <=? days) then
            match table_get (ingredient_id (snd r)) (ingredients st) with
            | None => None
            | Some ing =>
                let loss_val := remaining_quantity (snd r) * cost_per_unit (snd r) in
                Some (items ++
                        [mkExpiring (fst r) (name ing) delta loss_val
                                    (remaining_quantity (snd r)) (standard_unit ing)])
            end
          else Some items
      end
  end.

(** [get_expiring_items(days)], with [today] for [date.today()]. *)
Definition get_expiring_items (st : store) (today : date) (days : Z)
    : option (list expiring_item) :=
  fold_left (expiring_step st today days)
    (List.filter (fun r => 0 <? remaining_quantity (snd r)) (all_rows (purchases st)))
    (Some []).

(** [expiry_date.asc()] alone. *)
Definition expiry_leb (nf : bool) (p q : Purchase) : bool :=
  match expiry_compare nf (expiry_date p) (expiry_date q) with
  | Gt => false
  | _ => true
  end.

(** The rows of the [inventory] page. *)
Definition inventory (st : store) : list (nat * Purchase) :=
  query_rows (fun r => 0 <? remaining_quantity (snd r))
             (expiry_leb (nulls_first st)) (purchases st).

(** [monthly_shopping] of [dashboard]. *)
Definition monthly_shopping (st : store) (y m : Z) : option Z :=
  match month_bounds y m with
  | None => None
  | Some b =>
      Some (sum_Z (map total_cost
                     (List.filter (fun e => in_range b (event_date e))
                                  (shopping_events st))))
  end.

(** [cumulative_waste] of [dashboard]. *)
Definition cumulative_waste (st : store) : Z :=
  sum_Z (map total_waste (shopping_events st)).

(** One element of ['items'] in [api_shopping_event_detail]. *)
Record detail_item : Type := mkDetailItem {
  di_id : nat;
  di_name : string;
  di_qty : Z;
  di_remaining : Z;
  di_price : Z;
  di_waste_cost : Z;
  di_status : string
}.

Record event_detail : Type := mkEventDetail {
  ed_id : nat;
  ed_date : date;
  ed_total_cost : Z;
  ed_total_waste : Z;
  ed_items : list detail_item
}.

(** What [api_shopping_event_detail] answers: the empty object for an
    unknown event, the detail of the event, or an error when the loop
    raises. *)
Inductive detail_response : Type :=
| detail_empty
| detail_of (d : event_detail)
| detail_error.

(** [event.purchases]: the batches of the event. *)
Definition event_purchases (st : store) (event_id : nat) : list (nat * Purchase) :=
  List.filter
    (fun r => match shopping_event_id (snd r) with
              | Some e => Nat.eqb e event_id
              | None => false
              end)
    (all_rows (purchases st)).

(** The body of [for p in event.purchases]. *)
Definition detail_step (st : store) (acc : option (list detail_item))
    (r : nat * Purchase) : option (list detail_item) :=
  match acc with
  | None => None
  | Some items =>
      match table_get (ingredient_id (snd r)) (ingredients st) with
      | None => None
      | Some ing =>
          Some (items ++
                  [mkDetailItem (fst r) (name ing) (quantity (snd r))
                     (remaining_quantity (snd r))
                     (quantity (snd r) * cost_per_unit (snd r))
                     (discarded_cost (snd r)) (status (snd r))])
      end
  end.

Definition api_shopping_event_detail (st : store) (event_id : nat)
    : detail_response :=
  match table_get event_id (shopping_events st) with
  | None => detail_empty
  | Some event =>
      match fold_left (detail_step st) (event_purchases st event_id) (Some []) with
      | None => detail_error
      | Some items =>
          detail_of (mkEventDetail event_id (event_date event) (total_cost event)
                                   (total_waste event) items)
      end
  end.

(** [ing.estimated_cost] of the kitchen page ([cook], GET): the unit cost of
    the first batch of the FIFO query, 0 when the ingredient has no stock. *)
Definition estimated_cost (st : store) (ing : nat) : Z :=
  match head (fifo_query st ing) with
  | Some next_batch => cost_per_unit (snd next_batch)
  | None => 0
  end.

(** ** Example ledgers *)

Definition day1 : date := mkdate 2024 1 1.
Definition day2 : date := mkdate 2024 1 2.

(** Batch A: 10 units at unit cost 2, purchased on day 1; batch B: 10 units
    at unit cost 3, purchased on day 2. *)
Definition two_batches (nf : bool) : store :=
  run [OpPurchase day1 "market" [mkItem "milk" 10 "ml" 20 2 None];
       OpPurchase day2 "market" [mkItem "milk" 10 "ml" 30 3 None]]
      (empty_store nf).

(** A purchase entered with a negative quantity next to an ordinary one:
    4 units at unit cost 2 and -5 units. *)
Definition returned_goods (nf : bool) : store :=
  run [OpPurchase day1 "market"
         [mkItem "milk" 4 "ml" 8 2 None; mkItem "milk" (-5) "ml" 0 0 None]]
      (empty_store nf).

(** A usage recorded with a negative amount: [cook] of -5 units over the two
    batches. *)
Definition negative_usage (nf : bool) : store :=
  run [OpCook day2 "dinner" [mkCookItem 1 (-5) "std"]] (two_batches nf).


(** ** The ledger over binary64 *)

(** [db.Float] columns and the [float(...)] of a request hold binary64
    values.  [Binary64] is the business logic once more, statement by
    statement, with these columns as binary64 values and the operations of
    Python's [float] on them (correctly rounded [+], [-], [*], and [<], [<=],
    [==], [min]); dates, keys, queries and [flush] are those of the tables
    above.  As above the prices of a purchase ([final_item_price] and
    [final_item_price / qty]) are taken as given. *)
Module Binary64.

Definition float : Set := PrimFloat.float.

(** The whole number [z] as a float (exact below 2^53). *)
Definition of_Z (z : Z) : float :=
  match z with
  | Zneg _ => PrimFloat.opp (PrimFloat.of_uint63 (Uint63.of_Z (- z)))
  | _ => PrimFloat.of_uint63 (Uint63.of_Z z)
  end.

(** The float a decimal literal denotes: [tenths 9] is [float('0.9')]. *)
Definition tenths (n : Z) : float := PrimFloat.div (of_Z n) (of_Z 10).

Record ShoppingEvent : Type := mkShoppingEvent {
  event_date : date;
  place : string;
  total_cost : float;
  total_waste : float
}.

Record Purchase : Type := mkPurchase {
  ingredient_id : nat;
  purchase_date : date;
  quantity : float;
  remaining_quantity : float;
  cost_per_unit : float;
  expiry_date : option date;
  shopping_event_id : option nat;
  status : string;
  discarded_quantity : float;
  discarded_cost : float
}.

Record Usage : Type := mkUsage {
  usage_id : nat;
  usage_ingredient_id : nat;
  usage_date : date;
  meal_type : string;
  input_amount : float;
  input_unit_name : string;
  actual_usage : float;
  cost : float
}.

Record UnitMatrix : Type := mkUnitMatrix {
  unit_name : string;
  ratio_to_standard : float
}.

Record store : Type := mkStore {
  ingredients : list Ingredient;
  shopping_events : list ShoppingEvent;
  purchases : list Purchase;
  usages : list Usage;
  unit_matrix : list UnitMatrix;
  nulls_first : bool;
  current_user : nat
}.

Definition with_ingredients (st : store) (l : list Ingredient) : store :=
  mkStore l (shopping_events st) (purchases st) (usages st) (unit_matrix st)
          (nulls_first st) (current_user st).

Definition with_events (st : store) (l : list ShoppingEvent) : store :=
  mkStore (ingredients st) l (purchases st) (usages st) (unit_matrix st)
          (nulls_first st) (current_user st).

Definition with_purchases (st : store) (l : list Purchase) : store :=
  mkStore (ingredients st) (shopping_events st) l (usages st) (unit_matrix st)
          (nulls_first st) (current_user st).

Definition with_usages (st : store) (l : list Usage) : store :=
  mkStore (ingredients st) (shopping_events st) (purchases st) l
          (unit_matrix st) (nulls_first st) (current_user st).

Definition set_remaining (p : Purchase) (r : float) : Purchase :=
  mkPurchase (ingredient_id p) (purchase_date p) (quantity p) r
             (cost_per_unit p) (expiry_date p) (shopping_event_id p)
             (status p) (discarded_quantity p) (discarded_cost p).

Definition set_discarded (p : Purchase) (dq dc : float) : Purchase :=
  mkPurchase (ingredient_id p) (purchase_date p) (quantity p)
             (remaining_quantity p) (cost_per_unit p) (expiry_date p)
             (shopping_event_id p) (status p) dq dc.

Definition set_status (p : Purchase) (s : string) : Purchase :=
  mkPurchase (ingredient_id p) (purchase_date p) (quantity p)
             (remaining_quantity p) (cost_per_unit p) (expiry_date p)
             (shopping_event_id p) s (discarded_quantity p) (discarded_cost p).

Definition set_total_cost (e : ShoppingEvent) (c : float) : ShoppingEvent :=
  mkShoppingEvent (event_date e) (place e) c (total_waste e).

Definition set_total_waste (e : ShoppingEvent) (w : float) : ShoppingEvent :=
  mkShoppingEvent (event_date e) (place e) (total_cost e) w.

(** [order_by(Purchase.purchase_date.asc(), Purchase.expiry_date.asc())]. *)
Definition fifo_compare (nf : bool) (p q : Purchase) : comparison :=
  match date_compare (purchase_date p) (purchase_date q) with
  | Eq => expiry_compare nf (expiry_date p) (expiry_date q)
  | c => c
  end.

Definition fifo_leb (nf : bool) (p q : Purchase) : bool :=
  match fifo_compare nf p q with Gt => false | _ => true end.

(** Python's [min(a, b)]: [b] when [b < a], else [a]. *)
Definition min (a b : float) : float := if PrimFloat.ltb b a then b else a.

(** [sum(...)] of Python and [db.func.sum] of an engine that adds a column
    row by row. *)
Definition sum (l : list float) : float := fold_left PrimFloat.add l PrimFloat.zero.

(** *** [calculate_fifo_cost] *)

Definition in_stock (ing : nat) (r : nat * Purchase) : bool :=
  Nat.eqb (ingredient_id (snd r)) ing
  && PrimFloat.ltb PrimFloat.zero (remaining_quantity (snd r)).

Definition fifo_query (st : store) (ing : nat) : list (nat * Purchase) :=
  query_rows (in_stock ing) (fifo_leb (nulls_first st)) (purchases st).

(** The [for p in purchases] loop of [calculate_fifo_cost]. *)
Fixpoint fifo_loop (rows : list (nat * Purchase)) (total_cost0 qty_to_fill : float)
    : list (nat * Purchase) * float * float :=
  match rows with
  | [] => ([], total_cost0, qty_to_fill)
  | (i, p) :: rest =>
      if PrimFloat.leb qty_to_fill PrimFloat.zero
      then (rows, total_cost0, qty_to_fill)
      else
        let take := min (remaining_quantity p) qty_to_fill in
        let cost_chunk := PrimFloat.mul take (cost_per_unit p) in
        let p' := set_remaining p (PrimFloat.sub (remaining_quantity p) take) in
        let '(rest', tc, q) :=
          fifo_loop rest (PrimFloat.add total_cost0 cost_chunk)
                    (PrimFloat.sub qty_to_fill take) in
        ((i, p') :: rest', tc, q)
  end.

Definition calculate_fifo_cost (st : store) (ing : nat) (needed_qty : float)
    : float * store :=
  match table_get ing (ingredients st) with
  | None => (PrimFloat.zero, st)
  | Some _ =>
      let '(rows', tc, _) :=
        fifo_loop (fifo_query st ing) PrimFloat.zero needed_qty in
      (tc, with_purchases st (flush rows' (purchases st)))
  end.

(** The [take] of every row the loop reaches. *)
Fixpoint fifo_takes (rows : list (nat * Purchase)) (qty_to_fill : float)
    : list float :=
  match rows with
  | [] => []
  | (i, p) :: rest =>
      if PrimFloat.leb qty_to_fill PrimFloat.zero then []
      else
        let take := min (remaining_quantity p) qty_to_fill in
        take :: fifo_takes rest (PrimFloat.sub qty_to_fill take)
  end.

(** [get_total_asset_value]. *)
Definition get_total_asset_value (st : store) : float :=
  sum (map (fun p => PrimFloat.mul (remaining_quantity p) (cost_per_unit p))
           (List.filter (fun p => PrimFloat.ltb PrimFloat.zero (remaining_quantity p))
                        (purchases st))).

(** *** [purchase] *)

Record purchase_item : Type := mkItem {
  item_name : string;
  item_qty : float;
  item_unit : string;
  item_final_price : float;
  item_unit_price : float;
  item_expiry : option date
}.

Definition new_purchase (ing : nat) (p_date : date) (qty cost_unit : float)
    (e_date : option date) (event_id : nat) : Purchase :=
  mkPurchase ing p_date qty qty cost_unit e_date (Some event_id) "active"
             PrimFloat.zero PrimFloat.zero.

Definition purchase_item_step (p_date : date) (event_id : nat)
    (acc : store * float) (item : purchase_item) : store * float :=
  let '(st, total_trip_cost) := acc in
  let '(st1, ing) :=
    match find_ingredient (item_name item) (current_user st) (ingredients st) with
    | Some i => (st, i)
    | None =>
        (with_ingredients st
           (ingredients st ++
              [mkIngredient (item_name item) "일반" "precision" (item_unit item)
                            (Some (current_user st))]),
         S (length (ingredients st)))
    end in
  let cost_unit :=
    if PrimFloat.ltb PrimFloat.zero (item_qty item)
    then item_unit_price item else PrimFloat.zero in
  let new_p :=
    new_purchase ing p_date (item_qty item) cost_unit (item_expiry item) event_id in
  (with_purchases st1 (purchases st1 ++ [new_p]),
   PrimFloat.add total_trip_cost (item_final_price item)).

Definition purchase (st : store) (p_date : date) (p_place : string)
    (items : list purchase_item) : response * store :=
  let event := mkShoppingEvent p_date p_place PrimFloat.zero PrimFloat.zero in
  let st0 := with_events st (shopping_events st ++ [event]) in
  let event_id := length (shopping_events st0) in
  let '(st1, total_trip_cost) :=
    fold_left (purchase_item_step p_date event_id) items (st0, PrimFloat.zero) in
  (success,
   with_events st1
     (table_set event_id (set_total_cost event total_trip_cost)
        (shopping_events st1))).

(** *** [cook] *)

Record cook_item : Type := mkCookItem {
  cook_ingredient_id : nat;
  cook_amount : float;
  cook_unit_name : string
}.

Definition find_unit (nm : string) (t : list UnitMatrix) : option UnitMatrix :=
  head (List.filter (fun m => String.eqb (unit_name m) nm) t).

Definition next_usage_id (t : list Usage) : nat :=
  S (foldr Nat.max 0%nat (map usage_id t)).

Definition final_quantity (st : store) (item : cook_item) : float :=
  match find_unit (cook_unit_name item) (unit_matrix st) with
  | Some matrix => PrimFloat.mul (cook_amount item) (ratio_to_standard matrix)
  | None => cook_amount item
  end.

Definition cook_item_step (u_date : date) (meal : string) (st : store)
    (item : cook_item) : store :=
  let final_qty := final_quantity st item in
  let '(c, st1) := calculate_fifo_cost st (cook_ingredient_id item) final_qty in
  let new_usage :=
    mkUsage (next_usage_id (usages st1)) (cook_ingredient_id item) u_date meal
            (cook_amount item) (cook_unit_name item) final_qty c in
  with_usages st1 (usages st1 ++ [new_usage]).

Definition cook (st : store) (u_date : date) (meal : string)
    (items : list cook_item) : response * store :=
  (success, fold_left (cook_item_step u_date meal) items st).

(** *** [discard_item] *)

Definition discard_item (st : store) (purchase_id : nat) (amount_in : option float)
    : response * store :=
  match table_get purchase_id (purchases st) with
  | None => (not_found, st)
  | Some p =>
      let amount := default (remaining_quantity p) amount_in in
      if PrimFloat.ltb (remaining_quantity p) amount then (exceeds_remaining, st)
      else
        let waste_cost := PrimFloat.mul amount (cost_per_unit p) in
        let p1 := set_remaining p (PrimFloat.sub (remaining_quantity p) amount) in
        let p2 := set_discarded p1 (PrimFloat.add (discarded_quantity p1) amount)
                                   (PrimFloat.add (discarded_cost p1) waste_cost) in
        let p3 := if PrimFloat.eqb (remaining_quantity p2) PrimFloat.zero
                  then set_status p2 "discarded" else p2 in
        let st1 := with_purchases st (table_set purchase_id p3 (purchases st)) in
        match truthy_id (shopping_event_id p3) with
        | None => (success, st1)
        | Some eid =>
            match table_get eid (shopping_events st1) with
            | None => (server_error, st)
            | Some event =>
                (success,
                 with_events st1
                   (table_set eid
                      (set_total_waste event
                         (PrimFloat.add (total_waste event) waste_cost))
                      (shopping_events st1)))
            end
        end
  end.

(** *** [update_purchase_status] *)

Definition update_purchase_status (st : store) (purchase_id : nat)
    (new_status : string) : response * store :=
  match table_get purchase_id (purchases st) with
  | None => (not_found, st)
  | Some p =>
      if String.eqb new_status "discarded"
         && negb (String.eqb (status p) "discarded")
      then
        let waste_cost :=
          PrimFloat.mul (remaining_quantity p) (cost_per_unit p) in
        let p1 := set_discarded p
                    (PrimFloat.add (discarded_quantity p) (remaining_quantity p))
                    (discarded_cost p) in
        let p2 := set_remaining p1 PrimFloat.zero in
        let p3 := set_discarded p2 (discarded_quantity p2)
                                   (PrimFloat.add (discarded_cost p2) waste_cost) in
        let p4 := set_status p3 "discarded" in
        let st1 := with_purchases st (table_set purchase_id p4 (purchases st)) in
        match truthy_id (shopping_event_id p4) with
        | None => (success, st1)
        | Some eid =>
            match table_get eid (shopping_events st1) with
            | None => (server_error, st)
            | Some evt =>
                (success,
                 with_events st1
                   (table_set eid
                      (set_total_waste evt
                         (PrimFloat.add (total_waste evt) waste_cost))
                      (shopping_events st1)))
            end
        end
      else (success, st)
  end.

(** *** [api_delete_usage] *)

Definition get_usage (uid : nat) (t : list Usage) : option Usage :=
  head (List.filter (fun u => Nat.eqb (usage_id u) uid) t).

Definition delete_row (uid : nat) (t : list Usage) : list Usage :=
  List.filter (fun u => negb (Nat.eqb (usage_id u) uid)) t.

Definition not_full (ing : nat) (r : nat * Purchase) : bool :=
  Nat.eqb (ingredient_id (snd r)) ing
  && PrimFloat.ltb (remaining_quantity (snd r)) (quantity (snd r)).

Definition restore_query (st : store) (ing : nat) : list (nat * Purchase) :=
  query_rows (not_full ing) (fifo_leb (nulls_first st)) (purchases st).

Fixpoint restore_loop (rows : list (nat * Purchase)) (remaining_to_restore : float)
    : list (nat * Purchase) * float :=
  match rows with
  | [] => ([], remaining_to_restore)
  | (i, p) :: rest =>
      if PrimFloat.leb remaining_to_restore PrimFloat.zero
      then (rows, remaining_to_restore)
      else
        let space := PrimFloat.sub (quantity p) (remaining_quantity p) in
        let restore_amount := min space remaining_to_restore in
        let p' :=
          set_remaining p (PrimFloat.add (remaining_quantity p) restore_amount) in
        let '(rest', r) :=
          restore_loop rest (PrimFloat.sub remaining_to_restore restore_amount) in
        ((i, p') :: rest', r)
  end.

Fixpoint most_recent (rows : list (nat * Purchase)) : option (nat * Purchase) :=
  match rows with
  | [] => None
  | r :: rest =>
      match most_recent rest with
      | None => Some r
      | Some b =>
          if date_leb (purchase_date (snd b)) (purchase_date (snd r))
          then Some r else Some b
      end
  end.

Definition of_ingredient (ing : nat) (r : nat * Purchase) : bool :=
  Nat.eqb (ingredient_id (snd r)) ing.

Definition last_purchase_query (t : list Purchase) (ing : nat)
    : option (nat * Purchase) :=
  most_recent (List.filter (of_ingredient ing) (all_rows t)).

Definition api_delete_usage (st : store) (uid : nat) : response * store :=
  match get_usage uid (usages st) with
  | None => (not_found, st)
  | Some usage =>
      let ing := usage_ingredient_id usage in
      let qty_to_restore := actual_usage usage in
      let '(rows', remaining_to_restore) :=
        restore_loop (restore_query st ing) qty_to_restore in
      let t1 := flush rows' (purchases st) in
      let t2 :=
        if PrimFloat.ltb PrimFloat.zero remaining_to_restore then
          match last_purchase_query t1 ing with
          | Some (i, last_purchase) =>
              table_set i
                (set_remaining last_purchase
                   (PrimFloat.add (remaining_quantity last_purchase)
                                  remaining_to_restore))
                t1
          | None => t1
          end
        else t1 in
      (success, with_usages (with_purchases st t2) (delete_row uid (usages st)))
  end.

(** *** Requests and runs *)

Inductive op : Type :=
| OpPurchase (p_date : date) (p_place : string) (items : list purchase_item)
| OpCook (u_date : date) (meal : string) (items : list cook_item)
| OpDiscard (purchase_id : nat) (amount : option float)
| OpUpdateStatus (purchase_id : nat) (new_status : string)
| OpApiDeleteUsage (uid : nat).

Definition handle (st : store) (o : op) : response * store :=
  match o with
  | OpPurchase d pl items => purchase st d pl items
  | OpCook d meal items => cook st d meal items
  | OpDiscard pid amount => discard_item st pid amount
  | OpUpdateStatus pid s => update_purchase_status st pid s
  | OpApiDeleteUsage uid => api_delete_usage st uid
  end.

Definition step (st : store) (o : op) : store := snd (handle st o).

Definition run (ops : list op) (st : store) : store := fold_left step ops st.

(** *** The sums of [dashboard] and [monthly_stats] *)

Definition monthly_usage (st : store) (y m : Z) : option float :=
  match month_bounds y m with
  | None => None
  | Some b =>
      Some (sum (map cost (List.filter (fun u => in_range b (usage_date u))
                                       (usages st))))
  end.

Definition monthly_waste (st : store) (y m : Z) : option float :=
  match month_bounds y m with
  | None => None
  | Some b =>
      Some (sum (map total_waste
                     (List.filter (fun e => in_range b (event_date e))
                                  (shopping_events st))))
  end.

Definition cumulative_waste (st : store) : float :=
  sum (map total_waste (shopping_events st)).

Record day_entry : Type := mkEntry {
  entry_usage : float;
  entry_waste : float;
  entry_total : float
}.

Fixpoint dict_get (k : date) (data : list (date * day_entry)) : option day_entry :=
  match data with
  | [] => None
  | (k', v) :: rest => if date_eqb k' k then Some v else dict_get k rest
  end.

Fixpoint dict_set (k : date) (v : day_entry) (data : list (date * day_entry))
    : list (date * day_entry) :=
  match data with
  | [] => [(k, v)]
  | (k', v') :: rest =>
      if date_eqb k' k then (k', v) :: rest else (k', v') :: dict_set k v rest
  end.

Definition dict_touch (k : date) (data : list (date * day_entry))
    : list (date * day_entry) :=
  match dict_get k data with
  | None => dict_set k (mkEntry PrimFloat.zero PrimFloat.zero PrimFloat.zero) data
  | Some _ => data
  end.

Definition add_usage (data : list (date * day_entry)) (u : Usage)
    : list (date * day_entry) :=
  let data1 := dict_touch (usage_date u) data in
  match dict_get (usage_date u) data1 with
  | None => data1
  | Some e =>
      dict_set (usage_date u)
        (mkEntry (PrimFloat.add (entry_usage e) (cost u)) (entry_waste e)
                 (PrimFloat.add (entry_total e) (cost u)))
        data1
  end.

Definition add_waste (data : list (date * day_entry)) (ev : ShoppingEvent)
    : list (date * day_entry) :=
  if PrimFloat.ltb PrimFloat.zero (total_waste ev) then
    let data1 := dict_touch (event_date ev) data in
    match dict_get (event_date ev) data1 with
    | None => data1
    | Some e =>
        dict_set (event_date ev)
          (mkEntry (entry_usage e) (PrimFloat.add (entry_waste e) (total_waste ev))
                   (PrimFloat.add (entry_total e) (total_waste ev)))
          data1
    end
  else data.

Definition monthly_stats (st : store) (y m : Z) : option (list (date * day_entry)) :=
  match month_bounds y m with
  | None => None
  | Some b =>
      let usages_q := List.filter (fun u => in_range b (usage_date u)) (usages st) in
      let events_q :=
        List.filter (fun e => in_range b (event_date e)) (shopping_events st) in
      Some (fold_left add_waste events_q (fold_left add_usage usages_q []))
  end.

(** *** Example ledgers *)

(** One ingredient of user 1, one shopping event on day 1, and the batches
    of the given quantities and unit costs, each as [purchase] creates it for
    that event (all without expiry date, so in FIFO order as listed). *)
Definition stocked (batches : list (float * float)) : store :=
  mkStore [mkIngredient "milk" "일반" "precision" "ml" (Some 1%nat)]
          [mkShoppingEvent day1 "market" PrimFloat.zero PrimFloat.zero]
          (map (fun b => new_purchase 1 day1 (fst b) (snd b) None 1) batches)
          [] [] true 1.

(** A batch of 0.9 bought for 0.9, that is at unit cost 1, and the ledger
    after a meal that takes 0.2 of it. *)
Definition decimal_batch : store := stocked [(tenths 9, of_Z 1)].

Definition decimal_meal : store :=
  snd (cook decimal_batch day2 "dinner" [mkCookItem 1 (tenths 2) "std"]).

(** Batches of 1, 2^53 - 1 and 1.5, each at unit cost 1. *)
Definition large_batches : store :=
  stocked [(of_Z 1, of_Z 1); (of_Z 9007199254740991, of_Z 1);
           (PrimFloat.div (of_Z 3) (of_Z 2), of_Z 1)].

(** A batch of 10 bought for 1, that is at unit cost 0.1; a meal of 1 on
    day 1, meals of 2 and 3 on day 2. *)
Definition three_meals : store :=
  run [OpCook day1 "lunch" [mkCookItem 1 (of_Z 1) "std"];
       OpCook day2 "dinner" [mkCookItem 1 (of_Z 2) "std";
                             mkCookItem 1 (of_Z 3) "std"]]
      (stocked [(of_Z 10, tenths 1)]).

End Binary64.

(** *** The binary64 value of a whole number

    [SpecFloat] is the specification of binary64 that comes with the
    primitive floats: sign, mantissa and exponent, and every operation as
    exact arithmetic followed by rounding to nearest, ties to even. *)

(** A mantissa with no bit shifted out. *)
Definition exact_record (m : Z) : SpecFloat.shr_record :=
  SpecFloat.Build_shr_record m false false.

(** The mantissa of the normal form of a whole number below 2^53. *)
Definition normal_mantissa (n : positive) : positive :=
  Z.to_pos (Z.pos n * 2 ^ (52 - Z.log2 (Z.pos n))).

Definition normal_exponent (n : positive) : Z := Z.log2 (Z.pos n) - 52.

(** The binary64 value of a whole number below 2^53 in magnitude. *)
Definition SF_of_Z (z : Z) : SpecFloat.spec_float :=
  match z with
  | 0 => SpecFloat.S754_zero false
  | Z.pos n => SpecFloat.S754_finite false (normal_mantissa n) (normal_exponent n)
  | Z.neg n => SpecFloat.S754_finite true (normal_mantissa n) (normal_exponent n)
  end.

(** ** Notions used by the properties *)

(** A batch as [purchase] creates it for an item. *)
Definition fresh_batch (eid : nat) (p_date : date) (it : purchase_item)
    (p : Purchase) : Prop :=
  quantity p = item_qty it /\ remaining_quantity p = item_qty it
  /\ discarded_quantity p = 0 /\ discarded_cost p = 0
  /\ cost_per_unit p = (if 0 <? item_qty it then item_unit_price it else 0)
  /\ purchase_date p = p_date /\ expiry_date p = item_expiry it
  /\ shopping_event_id p = Some eid /\ status p = "active"%string.

(** The batch [discard_item] leaves under the key, for the amount [a]. *)
Definition after_discard (p : Purchase) (a : Z) : Purchase :=
  mkPurchase (ingredient_id p) (purchase_date p) (quantity p)
             (remaining_quantity p - a) (cost_per_unit p) (expiry_date p)
             (shopping_event_id p)
             (if remaining_quantity p - a =? 0 then "discarded" else status p)
             (discarded_quantity p + a)
             (discarded_cost p + a * cost_per_unit p).

(** The batch a full discard leaves under the key. *)
Definition fully_discarded (p : Purchase) : Purchase :=
  mkPurchase (ingredient_id p) (purchase_date p) (quantity p) 0
             (cost_per_unit p) (expiry_date p) (shopping_event_id p)
             "discarded"
             (discarded_quantity p + remaining_quantity p)
             (discarded_cost p + remaining_quantity p * cost_per_unit p).

(** The table [api_delete_usage] commits: the loop's rows written back, then
    the remainder added to the most recent batch. *)
Definition restored_table (st : store) (ing : nat) (q : Z) : list Purchase :=
  let amounts := restore_amounts (restore_query st ing) q in
  let t1 := flush (add_to_rows (restore_query st ing) amounts) (purchases st) in
  let remainder := q - sum_Z (map snd amounts) in
  if 0 <? remainder then
    match last_purchase_query t1 ing with
    | Some (i, last_purchase) =>
        table_set i
          (set_remaining last_purchase (remaining_quantity last_purchase + remainder))
          t1
    | None => t1
    end
  else t1.

(** The two bounds of the data model on a batch. *)
Definition nonneg_batch (p : Purchase) : Prop := 0 <= remaining_quantity p.

Definition bounded_batch (p : Purchase) : Prop :=
  0 <= remaining_quantity p <= quantity p.

(** [p'] is [p] up to the columns the ledger operations write. *)
Definition same_batch (p p' : Purchase) : Prop :=
  ingredient_id p' = ingredient_id p /\ purchase_date p' = purchase_date p
  /\ quantity p' = quantity p /\ cost_per_unit p' = cost_per_unit p
  /\ expiry_date p' = expiry_date p /\ shopping_event_id p' = shopping_event_id p.

(** Every batch of [t] is still in [t'], under its key. *)
Definition table_extends (t t' : list Purchase) : Prop :=
  forall i p, table_get i t = Some p ->
              exists p', table_get i t' = Some p' /\ same_batch p p'.

(** [{'usage': 0, 'waste': 0, 'total': 0}]. *)
Definition zero_entry : day_entry := mkEntry 0 0 0.

(** [data.get(day, zeros)]. *)
Definition entry_at (d : date) (data : list (date * day_entry)) : day_entry :=
  default zero_entry (dict_get d data).



(** The two loop bodies of [monthly_stats] share this shape. *)
Definition dict_update (k : date) (g : day_entry -> day_entry)
    (data : list (date * day_entry)) : list (date * day_entry) :=
  let data1 := dict_touch k data in
  match dict_get k data1 with
  | None => data1
  | Some e => dict_set k (g e) data1
  end.



(** Every batch that names a shopping event names one of the database. *)
Definition events_resolve (st : store) : Prop :=
  forall i p, table_get i (purchases st) = Some p -> event_resolves st p.

(** The writes the routes make to a batch: a new remaining quantity
    (allocation and reversal), a discard of [a], a full discard. *)
Inductive batch_write (p : Purchase) : Purchase -> Prop :=
| write_remaining r : batch_write p (set_remaining p r)
| write_discard a : a <= remaining_quantity p -> batch_write p (after_discard p a)
| write_full : batch_write p (fully_discarded p).

(** Every batch of [t] is in [t'] under its key, after some writes. *)
Definition table_written (t t' : list Purchase) : Prop :=
  forall i p, table_get i t = Some p ->
              exists p', table_get i t' = Some p' /\ rtc batch_write p p'.

(** Waste is booked at the unit cost of the batch. *)
Definition waste_priced (p : Purchase) : Prop :=
  discarded_cost p = discarded_quantity p * cost_per_unit p.

(** A usage as [cook] records it for an item; [st] gives the unit matrix. *)
Definition usage_of (st : store) (u_date : date) (meal : string)
    (item : cook_item) (u : Usage) : Prop :=
  usage_ingredient_id u = cook_ingredient_id item /\ usage_date u = u_date
  /\ meal_type u = meal /\ input_amount u = cook_amount item
  /\ input_unit_name u = cook_unit_name item
  /\ actual_usage u = final_quantity st item.

(** What every value of the dict of [monthly_stats] satisfies. *)
Definition entry_adds_up (e : day_entry) : Prop :=
  entry_total e = entry_usage e + entry_waste e /\ 0 <= entry_waste e.

(** A batch that holds a negative quantity has no unit cost: then
    [get_total_asset_value] weighs it as [remaining_quantity * cost_per_unit]. *)
Definition priced_stock (p : Purchase) : Prop :=
  0 <= remaining_quantity p \/ cost_per_unit p = 0.

(** The batch names a shopping event by a key that is not 0. *)
Definition names_event (p : Purchase) : Prop :=
  exists k, shopping_event_id p = Some (S k).

(** What the batches cost when they were bought. *)
Definition purchased_value (st : store) : Z :=
  table_sum (fun p => quantity p * cost_per_unit p) (purchases st).

(** The cost of all usages on record. *)
Definition usage_cost_total (st : store) : Z := sum_Z (map cost (usages st)).

(** Value on hand, plus what was used, plus what was wasted, minus what was
    bought. *)
Definition book_balance (st : store) : Z :=
  get_total_asset_value st + usage_cost_total st + cumulative_waste st
  - purchased_value st.

(** A column restricted to the batches of one shopping event. *)
Definition of_event (eid : nat) (f : Purchase -> Z) (p : Purchase) : Z :=
  match shopping_event_id p with
  | Some e => if Nat.eqb e eid then f p else 0
  | None => 0
  end.

(** The discarded cost of the batches of one shopping event. *)
Definition event_waste (st : store) (eid : nat) : Z :=
  table_sum (of_event eid discarded_cost) (purchases st).

(** The waste of every shopping event is the discarded cost of its
    batches. *)
Definition waste_attributed (st : store) : Prop :=
  forall eid e, table_get eid (shopping_events st) = Some e ->
                total_waste e = event_waste st eid.

(** The ingredient of every batch is in the database. *)
Definition ingredients_resolve (st : store) : Prop :=
  forall i p, table_get i (purchases st) = Some p ->
              is_Some (table_get (ingredient_id p) (ingredients st)).

(** The item [api_shopping_event_detail] shows for a batch. *)
Definition shows_batch (st : store) (r : nat * Purchase) (it : detail_item) : Prop :=
  di_id it = fst r
  /\ (exists g, table_get (ingredient_id (snd r)) (ingredients st) = Some g
                /\ di_name it = name g)
  /\ di_qty it = quantity (snd r)
  /\ di_remaining it = remaining_quantity (snd r)
  /\ di_price it = quantity (snd r) * cost_per_unit (snd r)
  /\ di_waste_cost it = discarded_cost (snd r)
  /\ di_status it = status (snd r).

(** What [get_expiring_items] appends for a row: one dict when the batch
    has an expiry date at most [days] days ahead and not past, nothing
    otherwise. *)
Definition expiring_of (st : store) (today : date) (days : Z)
    (r : nat * Purchase) : list expiring_item :=
  match expiry_date (snd r), table_get (ingredient_id (snd r)) (ingredients st) with
  | Some e, Some g =>
      if (0 <=? days_between e today) && (days_between e today <=? days)
      then [mkExpiring (fst r) (name g) (days_between e today)
              (remaining_quantity (snd r) * cost_per_unit (snd r))
              (remaining_quantity (snd r)) (standard_unit g)]
      else []
  | _, _ => []
  end.

(** What an ingredient has in stock: the remaining quantities of its
    batches, a batch that holds nothing (or less) counting for 0. *)
Definition available_stock (st : store) (ing : nat) : Z :=
  table_sum (for_ingredient ing (fun p => Z.max (remaining_quantity p) 0))
            (purchases st).

(** Remaining quantity under a key; 0 when the key is not in the table. *)
Definition remaining_at (st : store) (i : nat) : Z :=
  match table_get i (purchases st) with
  | Some p => remaining_quantity p
  | None => 0
  end.

(** What a batch weighs in [get_total_asset_value]. *)
Definition asset_of (p : Purchase) : Z :=
  if 0 <? remaining_quantity p then remaining_quantity p * cost_per_unit p else 0.

(** What the loop over the items of a trip builds. *)
Definition trip_batch (t : list Ingredient) (eid : nat) (p_date : date)
    (it : purchase_item) (p : Purchase) : Prop :=
  fresh_batch eid p_date it p
  /\ exists g, table_get (ingredient_id p) t = Some g /\ name g = item_name it.

(** *** Whole numbers in the exact range of binary64

    A [Z] in a Float column stands for the binary64 value of that whole
    number.  Whole numbers of magnitude at most [2^53] are binary64 values;
    a sum, a difference or a product of two of them that is again of
    magnitude at most [2^53] is computed without rounding, and [<], [<=] and
    [min] never round.  The magnitudes below bound every number a request
    computes: when they stay within [exact_range], the [Z] arithmetic of the
    model is the arithmetic [app.py] performs.  Outside this range the
    equations between sums and products fail ([Binary64]). *)
Definition exact_range : Z := 2 ^ 53 - 1.

(** The quantities of a batch ... *)
Definition batch_quantities (p : Purchase) : Z :=
  Z.abs (quantity p) + Z.abs (remaining_quantity p)
  + Z.abs (discarded_quantity p).

(** ... and its money: the unit cost, the quantities priced at it, and the
    waste booked. *)
Definition batch_values (p : Purchase) : Z :=
  (1 + batch_quantities p) * Z.abs (cost_per_unit p) + Z.abs (discarded_cost p).

(** All quantities of the ledger, in magnitude. *)
Definition quantity_magnitude (st : store) : Z :=
  table_sum batch_quantities (purchases st)
  + table_sum (fun u => Z.abs (actual_usage u)) (usages st).

(** All money of the ledger, in magnitude. *)
Definition value_magnitude (st : store) : Z :=
  table_sum batch_values (purchases st)
  + table_sum (fun u => Z.abs (cost u)) (usages st)
  + table_sum (fun e => Z.abs (total_cost e) + Z.abs (total_waste e))
              (shopping_events st).

Definition ledger_magnitude (st : store) : Z :=
  quantity_magnitude st + value_magnitude st.

(** The quantities a request brings: the purchased quantities; the amounts
    of a meal, the ratios of their units and the converted quantities; the
    amount of a discard. *)
Definition request_quantity (st : store) (o : op) : Z :=
  match o with
  | OpPurchase _ _ items => sum_Z (map (fun it => Z.abs (item_qty it)) items)
  | OpCook _ _ items =>
      sum_Z (map (fun it =>
                    Z.abs (cook_amount it) + Z.abs (final_quantity st it)
                    + match find_unit (cook_unit_name it) (unit_matrix st) with
                      | Some matrix => Z.abs (ratio_to_standard matrix)
                      | None => 0
                      end)
                 items)
  | OpDiscard _ (Some a) => Z.abs a
  | _ => 0
  end.

(** The money a request brings: prices and priced quantities of a purchase,
    the value of a discarded amount. *)
Definition request_value (st : store) (o : op) : Z :=
  match o with
  | OpPurchase _ _ items =>
      sum_Z (map (fun it =>
                    Z.abs (item_final_price it)
                    + (1 + Z.abs (item_qty it)) * Z.abs (item_unit_price it))
                 items)
  | OpDiscard pid (Some a) =>
      match table_get pid (purchases st) with
      | Some p => Z.abs a * Z.abs (cost_per_unit p)
      | None => 0
      end
  | _ => 0
  end.

(** Along the run the quantities stay in the exact range: before every
    request the quantities of the ledger and of the request are, together,
    of magnitude at most [2^53], and so are those of the ledger reached. *)
Fixpoint quantities_exact_along (ops : list op) (st : store) : Prop :=
  match ops with
  | [] => quantity_magnitude st <= exact_range
  | o :: rest =>
      quantity_magnitude st + request_quantity st o <= exact_range
      /\ quantities_exact_along rest (step st o)
  end.

(** The same for quantities and money. *)
Fixpoint exact_along (ops : list op) (st : store) : Prop :=
  match ops with
  | [] => ledger_magnitude st <= exact_range
  | o :: rest =>
      ledger_magnitude st + request_quantity st o + request_value st o
      <= exact_range
      /\ exact_along rest (step st o)
  end.

(** The names of the ingredients of one user. *)
Definition owned_names (user : nat) (t : list Ingredient) : list string :=
  map name (List.filter (owned_by user) t).

(** The batch is tied to an ingredient of the user that has the item's
    name. *)
Definition own_ingredient (user : nat) (t : list Ingredient) (it : purchase_item)
    (p : Purchase) : Prop :=
  exists g, table_get (ingredient_id p) t = Some g
            /\ name g = item_name it /\ user_id g = Some user.

(** * Properties *)

(** ** Binary64 computes exactly with whole numbers below 2^53

    The float of a whole number [z] with [|z| < 2^53] has the sign of [z],
    the mantissa [|z|] shifted to 53 bits and the matching exponent; rounding
    a whole number below 2^53 shifts bits but drops none.  Hence [+], [-], [*]
    on such floats give the float of the [Z] result when that is below 2^53
    too, and [<], [<=], [==] decide as on [Z]. *)

Lemma digits2_pos_log2 p :
  Z.pos (SpecFloat.digits2_pos p) = Z.log2 (Z.pos p) + 1.
Proof.
  assert (H : forall q, SpecFloat.digits2_pos q = Pos.size q).
  { induction q as [q IH|q IH|]; simpl; by rewrite ?IH. }
  rewrite H. destruct p as [p|p|]; simpl; lia.
Qed.

Lemma iter_pos_iter {A : Type} (f : A -> A) p x :
  SpecFloat.iter_pos f p x = Pos.iter f x p.
Proof.
  revert x. induction p as [p IH|p IH|]; intros x; simpl.
  - rewrite !IH. by rewrite <- !Pos.iter_swap.
  - by rewrite !IH.
  - done.
Qed.

Lemma shr_1_exact m : 0 <= m -> SpecFloat.shr_1 (exact_record (2 * m)) = exact_record m.
Proof. intros Hm. destruct m as [|p|p]; [done|done|lia]. Qed.

Lemma iter_shr_1_exact p m :
  0 <= m ->
  Pos.iter SpecFloat.shr_1 (exact_record (m * 2 ^ Z.pos p)) p = exact_record m.
Proof.
  intros Hm. induction p as [|p IH] using Pos.peano_ind.
  - cbn [Pos.iter]. rewrite Z.pow_1_r, (Z.mul_comm m 2). by apply shr_1_exact.
  - rewrite Pos.iter_succ_r.
    assert (H2 : 0 < 2 ^ Z.pos p) by (apply Z.pow_pos_nonneg; lia).
    replace (m * 2 ^ Z.pos (Pos.succ p)) with (2 * (m * 2 ^ Z.pos p))
      by (rewrite Pos2Z.inj_succ, Z.pow_succ_r; lia).
    rewrite shr_1_exact by (apply Z.mul_nonneg_nonneg; lia). done.
Qed.

Lemma fexp_normal e : -1021 <= e -> SpecFloat.fexp FloatOps.prec FloatOps.emax e = e - 53.
Proof. intros He. unfold SpecFloat.fexp, SpecFloat.emin, FloatOps.prec, FloatOps.emax. lia. Qed.

Lemma Zdigits2_pos M : SpecFloat.Zdigits2 (Z.pos M) = Z.log2 (Z.pos M) + 1.
Proof. simpl. apply digits2_pos_log2. Qed.

Lemma log2_shifted m0 j :
  0 < m0 -> 0 <= j -> Z.log2 (m0 * 2 ^ j) = j + Z.log2 m0.
Proof. intros. by apply Z.log2_mul_pow2. Qed.

(** Rounding a mantissa that is a normal one shifted left: the shift is undone. *)
Lemma binary_round_aux_exact s (M m0 : positive) j E :
  Z.log2 (Z.pos m0) = 52 -> 0 <= j -> Z.pos M = Z.pos m0 * 2 ^ j ->
  -1074 <= E + j <= 971 ->
  SpecFloat.binary_round_aux FloatOps.prec FloatOps.emax s (Z.pos M) E SpecFloat.loc_Exact
  = SpecFloat.S754_finite s m0 (E + j).
Proof.
  intros Hm0 Hj HM HE.
  unfold SpecFloat.binary_round_aux, SpecFloat.shr_fexp.
  rewrite Zdigits2_pos, HM, log2_shifted, Hm0 by lia.
  rewrite fexp_normal by lia.
  replace (j + 52 + 1 + E - 53 - E) with j by lia.
  cbn [SpecFloat.shr_record_of_loc].
  assert (Hshr : SpecFloat.shr (exact_record (Z.pos m0 * 2 ^ j)) E j
                 = (exact_record (Z.pos m0), E + j)).
  { destruct j as [|p|p]; [|simpl|lia].
    - rewrite Z.pow_0_r, Z.mul_1_r, Z.add_0_r. done.
    - rewrite iter_pos_iter. change (Z.pow_pos 2 p) with (2 ^ Z.pos p).
      by rewrite iter_shr_1_exact. }
  change (SpecFloat.Build_shr_record (Z.pos m0 * 2 ^ j) false false)
    with (exact_record (Z.pos m0 * 2 ^ j)).
  rewrite Hshr. cbn [exact_record SpecFloat.shr_m SpecFloat.loc_of_shr_record
                     SpecFloat.round_nearest_even].
  rewrite Zdigits2_pos, Hm0, fexp_normal by lia.
  replace (52 + 1 + (E + j) - 53 - (E + j)) with 0 by lia.
  cbn [SpecFloat.shr SpecFloat.shr_record_of_loc SpecFloat.shr_m].
  destruct (Z.leb_spec (E + j) (FloatOps.emax - FloatOps.prec)); [done|].
  unfold FloatOps.emax, FloatOps.prec in *. lia.
Qed.

Lemma normal_mantissa_spec n :
  Z.pos n < 2 ^ 53 ->
  Z.pos (normal_mantissa n) = Z.pos n * 2 ^ (52 - Z.log2 (Z.pos n))
  /\ Z.log2 (Z.pos (normal_mantissa n)) = 52
  /\ 0 <= Z.log2 (Z.pos n) <= 52.
Proof.
  intros Hn.
  assert (Hl : 0 <= Z.log2 (Z.pos n) <= 52).
  { split; [apply Z.log2_nonneg|].
    assert (Z.log2 (Z.pos n) < 53); [|lia]. apply Z.log2_lt_pow2; lia. }
  assert (Hp : 0 < 2 ^ (52 - Z.log2 (Z.pos n))) by (apply Z.pow_pos_nonneg; lia).
  assert (He : Z.pos (normal_mantissa n) = Z.pos n * 2 ^ (52 - Z.log2 (Z.pos n))).
  { unfold normal_mantissa. rewrite Z2Pos.id; [done|]. apply Z.mul_pos_pos; lia. }
  split; [done|]. split; [|done]. rewrite He, log2_shifted by lia. lia.
Qed.

Lemma binary_round_exact s (M n : positive) k :
  Z.pos n < 2 ^ 53 -> 0 <= k -> Z.pos M = Z.pos n * 2 ^ k ->
  SpecFloat.binary_round FloatOps.prec FloatOps.emax s M (- k)
  = SpecFloat.S754_finite s (normal_mantissa n) (normal_exponent n).
Proof.
  intros Hn Hk HM. destruct (normal_mantissa_spec n Hn) as (Hm0 & Hlog & Hl).
  unfold SpecFloat.binary_round, SpecFloat.shl_align, normal_exponent.
  rewrite digits2_pos_log2, HM, log2_shifted, fexp_normal by lia.
  set (l := Z.log2 (Z.pos n)) in *.
  replace (k + l + 1 + - k - 53 - - k) with (l - 52 + k) by lia.
  destruct (l - 52 + k) as [|t|d] eqn:Ht.
  - rewrite (binary_round_aux_exact s M (normal_mantissa n) 0);
      [f_equal; lia|done|lia| |lia].
    rewrite HM, Hm0, Z.pow_0_r, Z.mul_1_r. do 2 f_equal. lia.
  - rewrite (binary_round_aux_exact s M (normal_mantissa n) (Z.pos t));
      [f_equal; lia|done|lia| |lia].
    rewrite HM, Hm0, <- Z.mul_assoc, <- Z.pow_add_r by lia. do 2 f_equal. lia.
  - rewrite (binary_round_aux_exact s _ (normal_mantissa n) 0);
      [f_equal; lia|done|lia| |lia].
    change (Pos.iter xO M d) with (shift_pos d M).
    rewrite shift_pos_correct, HM, Hm0, Z.pow_0_r, Z.mul_1_r.
    change (Z.pow_pos 2 d) with (2 ^ Z.pos d).
    rewrite (Z.mul_comm (2 ^ Z.pos d)), <- Z.mul_assoc, <- Z.pow_add_r by lia.
    do 2 f_equal. lia.
Qed.

Lemma binary_normalize_exact z k :
  Z.abs z < 2 ^ 53 -> 0 <= k ->
  SpecFloat.binary_normalize FloatOps.prec FloatOps.emax (z * 2 ^ k) (- k) false = SF_of_Z z.
Proof.
  intros Hz Hk. assert (H2 : 0 < 2 ^ k) by (apply Z.pow_pos_nonneg; lia).
  destruct z as [|n|n]; [done| |].
  - assert (HM : 0 < Z.pos n * 2 ^ k) by (apply Z.mul_pos_pos; lia).
    destruct (Z.pos n * 2 ^ k) as [|M|M] eqn:HMe; [lia| |lia].
    cbn [SpecFloat.binary_normalize SF_of_Z]. apply binary_round_exact; [lia|done|done].
  - assert (HM : Z.neg n * 2 ^ k < 0) by (apply Z.mul_neg_pos; lia).
    destruct (Z.neg n * 2 ^ k) as [|M|M] eqn:HMe; [lia|lia|].
    cbn [SpecFloat.binary_normalize SF_of_Z]. apply binary_round_exact; [lia|done|].
    assert (Z.neg M = - Z.pos M) by done. assert (Z.neg n = - Z.pos n) by done. lia.
Qed.

Lemma Prim2SF_of_Z z :
  Z.abs z < 2 ^ 53 -> FloatOps.Prim2SF (Binary64.of_Z z) = SF_of_Z z.
Proof.
  intros Hz.
  assert (Hu : forall x, 0 <= x < 2 ^ 53 ->
               FloatOps.Prim2SF (PrimFloat.of_uint63 (Uint63.of_Z x)) = SF_of_Z x).
  { intros x Hx. rewrite FloatAxioms.of_uint63_spec, Uint63.of_Z_spec.
    rewrite Z.mod_small.
    - rewrite <- (binary_normalize_exact x 0) by lia.
      by rewrite Z.pow_0_r, Z.mul_1_r.
    - change Uint63Axioms.wB with (2 ^ 63). 
      assert (2 ^ 53 < 2 ^ 63) by (apply Z.pow_lt_mono_r; lia). lia. }
  destruct z as [|n|n]; unfold Binary64.of_Z.
  - by apply Hu.
  - apply Hu. lia.
  - rewrite FloatAxioms.opp_spec, Hu by (simpl in *; lia). done.
Qed.

Lemma shl_align_fst m E ez :
  ez <= E -> Z.pos (fst (SpecFloat.shl_align m E ez)) = Z.pos m * 2 ^ (E - ez).
Proof.
  intros He. unfold SpecFloat.shl_align. destruct (ez - E) as [|p|d] eqn:Hd; [|lia|].
  - replace (E - ez) with 0 by lia. simpl. lia.
  - cbn [fst]. change (Pos.iter xO m d) with (shift_pos d m).
    rewrite shift_pos_correct. change (Z.pow_pos 2 d) with (2 ^ Z.pos d).
    replace (E - ez) with (Z.pos d) by lia. lia.
Qed.

Lemma cond_Zopp_mul s x y : SpecFloat.cond_Zopp s x * y = SpecFloat.cond_Zopp s (x * y).
Proof. destruct s; simpl; lia. Qed.

(** A whole number other than 0: sign, mantissa and exponent of its float. *)
Lemma SF_of_Z_finite z :
  z <> 0 -> Z.abs z < 2 ^ 53 ->
  exists s m E,
    SF_of_Z z = SpecFloat.S754_finite s m E
    /\ E <= 0 /\ SpecFloat.cond_Zopp s (Z.pos m) = z * 2 ^ (- E)
    /\ s = (z <? 0) /\ Z.log2 (Z.pos m) = 52 /\ E = Z.log2 (Z.abs z) - 52.
Proof.
  intros Hz Hb. destruct z as [|n|n]; [done| |].
  - destruct (normal_mantissa_spec n) as (Hm & Hlog & Hl); [simpl in Hb; lia|].
    exists false, (normal_mantissa n), (normal_exponent n). unfold normal_exponent.
    split; [done|]. split; [lia|]. split; [|by repeat split].
    cbn [SpecFloat.cond_Zopp]. rewrite Hm. do 2 f_equal. lia.
  - destruct (normal_mantissa_spec n) as (Hm & Hlog & Hl); [simpl in Hb; lia|].
    exists true, (normal_mantissa n), (normal_exponent n). unfold normal_exponent.
    split; [done|]. split; [lia|]. split; [|by repeat split].
    cbn [SpecFloat.cond_Zopp]. rewrite Hm.
    replace (- (Z.log2 (Z.pos n) - 52)) with (52 - Z.log2 (Z.pos n)) by lia.
    assert (Z.neg n = - Z.pos n) by done. lia.
Qed.

Lemma aligned_mantissa z s m E ez :
  SpecFloat.cond_Zopp s (Z.pos m) = z * 2 ^ (- E) -> ez <= E -> E <= 0 ->
  SpecFloat.cond_Zopp s (Z.pos (fst (SpecFloat.shl_align m E ez))) = z * 2 ^ (- ez).
Proof.
  intros Hm He HE. rewrite shl_align_fst by done.
  rewrite <- cond_Zopp_mul, Hm, <- Z.mul_assoc, <- Z.pow_add_r by lia.
  do 2 f_equal. lia.
Qed.

Lemma binary_normalize_exact_neg z e :
  Z.abs z < 2 ^ 53 -> e <= 0 ->
  SpecFloat.binary_normalize FloatOps.prec FloatOps.emax (z * 2 ^ (- e)) e false = SF_of_Z z.
Proof.
  intros Hz He. rewrite <- (binary_normalize_exact z (- e)) by lia.
  by rewrite Z.opp_involutive.
Qed.

Lemma SFadd_exact a b :
  Z.abs a < 2 ^ 53 -> Z.abs b < 2 ^ 53 -> Z.abs (a + b) < 2 ^ 53 ->
  SpecFloat.SFadd FloatOps.prec FloatOps.emax (SF_of_Z a) (SF_of_Z b) = SF_of_Z (a + b).
Proof.
  intros Ha Hb Hab.
  destruct (Z.eq_dec a 0) as [->|Ha0]; [by destruct b|].
  destruct (Z.eq_dec b 0) as [->|Hb0]; [rewrite Z.add_0_r; by destruct a|].
  destruct (SF_of_Z_finite a Ha0 Ha) as (sa & ma & Ea & -> & HEa & Hma & _).
  destruct (SF_of_Z_finite b Hb0 Hb) as (sb & mb & Eb & -> & HEb & Hmb & _).
  cbn [SpecFloat.SFadd].
  rewrite (aligned_mantissa a), (aligned_mantissa b) by (done || lia).
  rewrite <- Z.mul_add_distr_r. apply binary_normalize_exact_neg; lia.
Qed.

Lemma SFsub_exact a b :
  Z.abs a < 2 ^ 53 -> Z.abs b < 2 ^ 53 -> Z.abs (a - b) < 2 ^ 53 ->
  SpecFloat.SFsub FloatOps.prec FloatOps.emax (SF_of_Z a) (SF_of_Z b) = SF_of_Z (a - b).
Proof.
  intros Ha Hb Hab.
  destruct (Z.eq_dec b 0) as [->|Hb0]; [rewrite Z.sub_0_r; by destruct a|].
  destruct (Z.eq_dec a 0) as [->|Ha0]; [by destruct b|].
  destruct (SF_of_Z_finite a Ha0 Ha) as (sa & ma & Ea & -> & HEa & Hma & _).
  destruct (SF_of_Z_finite b Hb0 Hb) as (sb & mb & Eb & -> & HEb & Hmb & _).
  cbn [SpecFloat.SFsub].
  rewrite (aligned_mantissa a), (aligned_mantissa b) by (done || lia).
  rewrite <- Z.mul_sub_distr_r. apply binary_normalize_exact_neg; lia.
Qed.

Lemma SF_of_Z_mantissa z s m E :
  SpecFloat.cond_Zopp s (Z.pos m) = z * 2 ^ (- E) -> s = (z <? 0) ->
  Z.pos m = Z.abs z * 2 ^ (- E).
Proof.
  intros Hm ->. destruct (Z.ltb_spec z 0); simpl in Hm.
  - rewrite Z.abs_neq by lia. lia.
  - rewrite Z.abs_eq by lia. lia.
Qed.

Lemma SFmul_exact a b :
  Z.abs a < 2 ^ 53 -> Z.abs b < 2 ^ 53 -> Z.abs (a * b) < 2 ^ 53 ->
  (a = 0 -> 0 <= b) -> (b = 0 -> 0 <= a) ->
  SpecFloat.SFmul FloatOps.prec FloatOps.emax (SF_of_Z a) (SF_of_Z b) = SF_of_Z (a * b).
Proof.
  intros Ha Hb Hab Ha0 Hb0.
  destruct (Z.eq_dec a 0) as [->|Hna].
  { specialize (Ha0 eq_refl). destruct b; [done|done|lia]. }
  destruct (Z.eq_dec b 0) as [->|Hnb].
  { specialize (Hb0 eq_refl). rewrite Z.mul_0_r. destruct a; [done|done|lia]. }
  assert (Hnab : a * b <> 0) by lia.
  destruct (SF_of_Z_finite a Hna Ha) as (sa & ma & Ea & -> & HEa & Hma & Hsa & _ & HEa').
  destruct (SF_of_Z_finite b Hnb Hb) as (sb & mb & Eb & -> & HEb & Hmb & Hsb & _ & HEb').
  destruct (SF_of_Z_finite (a * b) Hnab Hab) as (s & m & E & -> & HE & Hm & Hs & Hlog & HE').
  apply SF_of_Z_mantissa in Hma, Hmb, Hm; try done.
  cbn [SpecFloat.SFmul].
  assert (Hlab : Z.log2 (Z.abs a) + Z.log2 (Z.abs b) <= Z.log2 (Z.abs (a * b))).
  { rewrite Z.abs_mul. apply Z.log2_mul_below; lia. }
  rewrite (binary_round_aux_exact _ _ m (E - Ea - Eb)); [f_equal| | | |].
  - rewrite Hsa, Hsb, Hs.
    destruct (Z.ltb_spec a 0), (Z.ltb_spec b 0), (Z.ltb_spec (a * b) 0);
      try done; nia.
  - lia.
  - done.
  - lia.
  - rewrite Pos2Z.inj_mul, Hma, Hmb, Hm, Z.abs_mul.
    assert (Hp : 2 ^ (- E) * 2 ^ (E - Ea - Eb) = 2 ^ (- Ea) * 2 ^ (- Eb)).
    { rewrite <- !Z.pow_add_r by lia. f_equal. lia. }
    transitivity (Z.abs a * Z.abs b * (2 ^ (- Ea) * 2 ^ (- Eb))); [ring|].
    rewrite <- Hp. ring.
  - assert (0 <= Z.log2 (Z.abs (a * b))) by apply Z.log2_nonneg.
    assert (Z.log2 (Z.abs (a * b)) < 53); [apply Z.log2_lt_pow2; lia|lia].
Qed.

Lemma SFcompare_exact a b :
  Z.abs a < 2 ^ 53 -> Z.abs b < 2 ^ 53 ->
  SpecFloat.SFcompare (SF_of_Z a) (SF_of_Z b) = Some (a ?= b).
Proof.
  intros Ha Hb.
  destruct (Z.eq_dec a 0) as [->|Hna]; [by destruct b|].
  destruct (Z.eq_dec b 0) as [->|Hnb]; [by destruct a|].
  destruct (SF_of_Z_finite a Hna Ha) as (sa & ma & Ea & -> & HEa & Hma & Hsa & _ & HEa').
  destruct (SF_of_Z_finite b Hnb Hb) as (sb & mb & Eb & -> & HEb & Hmb & Hsb & _ & HEb').
  apply SF_of_Z_mantissa in Hma, Hmb; try done.
  cbn [SpecFloat.SFcompare]. f_equal. subst sa sb.
  assert (Hpos : forall x y Ex Ey mx my,
             0 < x -> 0 < y -> Ex = Z.log2 x - 52 -> Ey = Z.log2 y - 52 ->
             Z.pos mx = x * 2 ^ (- Ex) -> Z.pos my = y * 2 ^ (- Ey) ->
             match Ex ?= Ey with
             | Eq => Pos.compare_cont Eq mx my
             | Lt => Lt
             | Gt => Gt
             end = (x ?= y)).
  { intros x y Ex Ey mx my Hx Hy -> -> Hmx Hmy.
    destruct (Z.compare_spec (Z.log2 x - 52) (Z.log2 y - 52)) as [He|He|He].
    - change (Pos.compare_cont Eq mx my) with (Z.pos mx ?= Z.pos my).
      rewrite Hmx, Hmy, He.
      assert (Hp : 0 < 2 ^ (- (Z.log2 y - 52))).
      { destruct (Z.le_gt_cases 0 (- (Z.log2 y - 52))) as [H0|H0].
        - apply Z.pow_pos_nonneg; lia.
        - rewrite Z.pow_neg_r in Hmy by lia. lia. }
      destruct (Z.compare_spec x y),
        (Z.compare_spec (x * 2 ^ (- (Z.log2 y - 52))) (y * 2 ^ (- (Z.log2 y - 52))));
        try done; nia.
    - symmetry. apply Z.compare_lt_iff. apply Z.log2_lt_cancel. lia.
    - symmetry. apply Z.compare_gt_iff. apply Z.log2_lt_cancel. lia. }
  destruct (Z.ltb_spec a 0) as [Ha0|Ha0], (Z.ltb_spec b 0) as [Hb0|Hb0].
  - rewrite Z.abs_neq in Hma, HEa', Hmb, HEb' by lia.
    pose proof (Hpos (- a) (- b) Ea Eb ma mb ltac:(lia) ltac:(lia) HEa' HEb' Hma Hmb) as H.
    rewrite Z.compare_opp in H. rewrite (Z.compare_antisym b a), <- H.
    by destruct (Ea ?= Eb).
  - symmetry. apply Z.compare_lt_iff. lia.
  - symmetry. apply Z.compare_gt_iff. lia.
  - rewrite Z.abs_eq in Hma, HEa', Hmb, HEb' by lia.
    apply (Hpos a b Ea Eb ma mb); (lia || done).
Qed.

Lemma binary64_add_exact a b :
  Z.abs a < 2 ^ 53 -> Z.abs b < 2 ^ 53 -> Z.abs (a + b) < 2 ^ 53 ->
  PrimFloat.add (Binary64.of_Z a) (Binary64.of_Z b) = Binary64.of_Z (a + b).
Proof.
  intros Ha Hb Hab. apply FloatAxioms.Prim2SF_inj.
  rewrite FloatAxioms.add_spec, !Prim2SF_of_Z by done. by apply SFadd_exact.
Qed.

Lemma binary64_sub_exact a b :
  Z.abs a < 2 ^ 53 -> Z.abs b < 2 ^ 53 -> Z.abs (a - b) < 2 ^ 53 ->
  PrimFloat.sub (Binary64.of_Z a) (Binary64.of_Z b) = Binary64.of_Z (a - b).
Proof.
  intros Ha Hb Hab. apply FloatAxioms.Prim2SF_inj.
  rewrite FloatAxioms.sub_spec, !Prim2SF_of_Z by done. by apply SFsub_exact.
Qed.

Lemma binary64_mul_exact a b :
  Z.abs a < 2 ^ 53 -> Z.abs b < 2 ^ 53 -> Z.abs (a * b) < 2 ^ 53 ->
  (a = 0 -> 0 <= b) -> (b = 0 -> 0 <= a) ->
  PrimFloat.mul (Binary64.of_Z a) (Binary64.of_Z b) = Binary64.of_Z (a * b).
Proof.
  intros Ha Hb Hab Ha0 Hb0. apply FloatAxioms.Prim2SF_inj.
  rewrite FloatAxioms.mul_spec, !Prim2SF_of_Z by done. by apply SFmul_exact.
Qed.

Lemma binary64_ltb_exact a b :
  Z.abs a < 2 ^ 53 -> Z.abs b < 2 ^ 53 ->
  PrimFloat.ltb (Binary64.of_Z a) (Binary64.of_Z b) = (a <? b).
Proof.
  intros Ha Hb. rewrite FloatAxioms.ltb_spec, !Prim2SF_of_Z by done.
  unfold SpecFloat.SFltb. rewrite SFcompare_exact by done.
  unfold Z.ltb. by destruct (a ?= b).
Qed.

Lemma binary64_leb_exact a b :
  Z.abs a < 2 ^ 53 -> Z.abs b < 2 ^ 53 ->
  PrimFloat.leb (Binary64.of_Z a) (Binary64.of_Z b) = (a <=? b).
Proof.
  intros Ha Hb. rewrite FloatAxioms.leb_spec, !Prim2SF_of_Z by done.
  unfold SpecFloat.SFleb. rewrite SFcompare_exact by done.
  unfold Z.leb. by destruct (a ?= b).
Qed.

Lemma binary64_eqb_exact a b :
  Z.abs a < 2 ^ 53 -> Z.abs b < 2 ^ 53 ->
  PrimFloat.eqb (Binary64.of_Z a) (Binary64.of_Z b) = (a =? b).
Proof.
  intros Ha Hb. rewrite FloatAxioms.eqb_spec, !Prim2SF_of_Z by done.
  unfold SpecFloat.SFeqb. rewrite SFcompare_exact by done.
  destruct (Z.compare_spec a b), (Z.eqb_spec a b); (done || lia).
Qed.

Lemma binary64_of_Z_inj a b :
  Z.abs a < 2 ^ 53 -> Z.abs b < 2 ^ 53 -> Binary64.of_Z a = Binary64.of_Z b -> a = b.
Proof.
  intros Ha Hb Heq. pose proof (binary64_eqb_exact a b Ha Hb) as H. rewrite Heq in H.
  rewrite (binary64_eqb_exact b b) in H by done. rewrite Z.eqb_refl in H.
  symmetry in H. by apply Z.eqb_eq in H.
Qed.

(** ** Tables: lookup, update, sums *)

Section Tables.
Context {A : Type}.
Implicit Types (t : list A) (x y : A) (i j : nat) (rows : list (nat * A)).

Lemma table_get_set_eq t i x :
  is_Some (table_get i t) -> table_get i (table_set i x t) = Some x.
Proof.
  destruct i as [|i]; simpl; intros H; [by destruct H|].
  apply list_lookup_insert_eq. by apply lookup_lt_is_Some.
Qed.

Lemma table_get_set_ne t i j x :
  i <> j -> table_get j (table_set i x t) = table_get j t.
Proof.
  destruct i as [|i], j as [|j]; simpl; intros H; try done.
  apply list_lookup_insert_ne. congruence.
Qed.

Lemma table_set_id t i x : table_get i t = Some x -> table_set i x t = t.
Proof. destruct i as [|i]; simpl; [done|]. apply list_insert_id. Qed.

Lemma length_table_set t i x : length (table_set i x t) = length t.
Proof. destruct i; simpl; [done|]. apply length_insert. Qed.

Lemma table_get_is_Some_set t i j x :
  is_Some (table_get j t) -> is_Some (table_get j (table_set i x t)).
Proof.
  intros H. destruct (decide (i = j)) as [->|Hne].
  - rewrite table_get_set_eq; eauto.
  - by rewrite table_get_set_ne.
Qed.

Lemma table_get_app_l t t' i x :
  table_get i t = Some x -> table_get i (t ++ t') = Some x.
Proof. destruct i; simpl; [done|]. apply lookup_app_l_Some. Qed.

Lemma table_get_app_new t x : table_get (S (length t)) (t ++ [x]) = Some x.
Proof. simpl. by rewrite list_lookup_middle. Qed.

Lemma table_get_lt t i x : table_get i t = Some x -> (0 < i <= length t)%nat.
Proof.
  destruct i; simpl; [done|]. intros H%lookup_lt_Some. lia.
Qed.

Lemma elem_of_table_get t i x : table_get i t = Some x -> In x t.
Proof.
  destruct i; simpl; [done|]. intros H.
  apply list_elem_of_In, list_elem_of_lookup. eauto.
Qed.

Lemma table_get_of_In t x : In x t -> exists i, table_get i t = Some x.
Proof.
  intros [i Hi]%list_elem_of_In%list_elem_of_lookup. by exists (S i).
Qed.

(** Sums. *)
Lemma sum_Z_app (l1 l2 : list Z) : sum_Z (l1 ++ l2) = sum_Z l1 + sum_Z l2.
Proof. induction l1 as [|a l1 IH]; simpl; [done|]. rewrite IH. lia. Qed.

Lemma table_sum_app (f : A -> Z) t t' :
  table_sum f (t ++ t') = table_sum f t + table_sum f t'.
Proof. unfold table_sum. by rewrite map_app, sum_Z_app. Qed.

Lemma table_sum_insert (f : A -> Z) t i x y :
  t !! i = Some y -> table_sum f (<[i := x]> t) = table_sum f t - f y + f x.
Proof.
  unfold table_sum. revert i. induction t as [|a t IH]; intros [|i] H;
    simpl in *; try done.
  - injection H as ->. lia.
  - rewrite (IH i H). lia.
Qed.

Lemma table_sum_set (f : A -> Z) t i x y :
  table_get i t = Some y -> table_sum f (table_set i x t) = table_sum f t - f y + f x.
Proof. destruct i; simpl; [done|]. apply table_sum_insert. Qed.

Lemma table_sum_ext (f g : A -> Z) t :
  (forall x, In x t -> f x = g x) -> table_sum f t = table_sum g t.
Proof.
  unfold table_sum. induction t as [|a t IH]; simpl; intros H; [done|].
  rewrite H by auto. rewrite IH; auto.
Qed.

(** Rows of a table. *)
Lemma In_enumerate_from n t i x :
  In (i, x) (enumerate_from n t) <-> (n <= i)%nat /\ t !! (i - n)%nat = Some x.
Proof.
  revert n. induction t as [|a t IH]; intros n; simpl.
  - split; [done|]. by intros [_ ?].
  - rewrite IH. split.
    + intros [[= <- <-]|[Hle Hl]].
      * split; [lia|]. by replace (n - n)%nat with 0%nat by lia.
      * split; [lia|]. by replace (i - n)%nat with (S (i - S n)) by lia.
    + intros [Hle Hl]. destruct (decide (i = n)) as [->|Hne].
      * left. replace (n - n)%nat with 0%nat in Hl by lia. simpl in Hl. congruence.
      * right. split; [lia|].
        by replace (i - n)%nat with (S (i - S n)) in Hl by lia.
Qed.

Lemma In_all_rows t i x : In (i, x) (all_rows t) <-> table_get i t = Some x.
Proof.
  unfold all_rows. rewrite In_enumerate_from. destruct i as [|i]; simpl.
  - split; [lia|done].
  - replace (i - 0)%nat with i by lia. split; [by intros [_ ?]|]. split; [lia|done].
Qed.

Lemma map_fst_enumerate_from n t :
  map fst (enumerate_from n t) = seq n (length t).
Proof. revert n. induction t as [|a t IH]; intros n; simpl; [done|]. by rewrite IH. Qed.

Lemma map_snd_enumerate_from n t : map snd (enumerate_from n t) = t.
Proof. revert n. induction t as [|a t IH]; intros n; simpl; [done|]. by rewrite IH. Qed.

Lemma NoDup_keys_all_rows t : List.NoDup (map fst (all_rows t)).
Proof. unfold all_rows. rewrite map_fst_enumerate_from. apply List.seq_NoDup. Qed.

Lemma NoDup_keys_filter (cond : nat * A -> bool) rows :
  List.NoDup (map fst rows) -> List.NoDup (map fst (List.filter cond rows)).
Proof.
  induction rows as [|r rows IH]; simpl; intros H; [done|].
  apply List.NoDup_cons_iff in H as [Hr H]. destruct (cond r); simpl; auto.
  apply List.NoDup_cons; auto. intros Hin. apply Hr.
  apply List.in_map_iff in Hin as (r' & <- & Hr'). apply List.in_map_iff.
  exists r'. split; [done|]. by apply List.filter_In in Hr' as [? _].
Qed.

(** [order_by] permutes its argument. *)
Lemma insert_row_perm (leb : A -> A -> bool) r rows :
  Permutation (insert_row leb r rows) (r :: rows).
Proof.
  induction rows as [|y rows IH]; simpl; [done|].
  destruct (leb _ _); [done|]. rewrite IH. apply perm_swap.
Qed.

Lemma order_by_perm (leb : A -> A -> bool) rows :
  Permutation (order_by leb rows) rows.
Proof.
  induction rows as [|r rows IH]; simpl; [done|].
  rewrite insert_row_perm. by constructor.
Qed.

Lemma In_query_rows cond leb t i x :
  In (i, x) (query_rows cond leb t)
  <-> table_get i t = Some x /\ cond (i, x) = true.
Proof.
  unfold query_rows. rewrite <- In_all_rows, <- List.filter_In.
  split; apply Permutation_in; [|symmetry]; apply order_by_perm.
Qed.

Lemma NoDup_keys_query_rows cond leb t : List.NoDup (map fst (query_rows cond leb t)).
Proof.
  unfold query_rows. eapply Permutation_NoDup.
  - apply Permutation_map. symmetry. apply order_by_perm.
  - apply NoDup_keys_filter, NoDup_keys_all_rows.
Qed.
End Tables.

(** ** Writing row objects back *)

Section Flush.
Context {A : Type}.
Implicit Types (t : list A) (rows : list (nat * A)).

Lemma length_flush rows t : length (flush rows t) = length t.
Proof.
  revert t. induction rows as [|[i x] rows IH]; intros t; simpl; [done|].
  by rewrite IH, length_table_set.
Qed.

Lemma flush_get_notin rows t i :
  ~ In i (map fst rows) -> table_get i (flush rows t) = table_get i t.
Proof.
  revert t. induction rows as [|[j x] rows IH]; intros t Hi; simpl in *; [done|].
  rewrite IH by tauto. apply table_get_set_ne. tauto.
Qed.

Lemma snapshot_cons_inv i x rows t y :
  List.NoDup (i :: map fst rows) -> snapshot ((i, x) :: rows) t ->
  snapshot rows (table_set i y t).
Proof.
  intros Hnd Hs j z Hj. apply List.NoDup_cons_iff in Hnd as [Hi _].
  rewrite table_get_set_ne; [apply Hs; by right|].
  intros ->. apply Hi. apply List.in_map_iff. by exists (j, z).
Qed.

Lemma flush_snapshot rows t : snapshot rows t -> flush rows t = t.
Proof.
  revert t. induction rows as [|[i x] rows IH]; intros t Hs; simpl; [done|].
  rewrite (table_set_id t i x) by (apply Hs; by left).
  apply IH. intros j y Hj. apply Hs. by right.
Qed.

Lemma flush_sum (f : A -> Z) rows rows' t :
  map fst rows' = map fst rows -> List.NoDup (map fst rows) -> snapshot rows t ->
  table_sum f (flush rows' t)
  = table_sum f t - table_sum f (map snd rows) + table_sum f (map snd rows').
Proof.
  revert rows t. induction rows' as [|[i x'] rows' IH];
    intros [|[j x] rows] t Hk Hnd Hs; simpl in *; try done.
  - unfold table_sum. simpl. lia.
  - injection Hk as -> Hk.
    rewrite (IH rows); [|done|by apply List.NoDup_cons_iff in Hnd as [_ ?]
                        |by eapply snapshot_cons_inv].
    rewrite (table_sum_set f t j x' x) by (apply Hs; by left).
    unfold table_sum. simpl. lia.
Qed.

Lemma flush_Forall (P : A -> Prop) rows t :
  Forall P t -> Forall P (map snd rows) -> Forall P (flush rows t).
Proof.
  revert t. induction rows as [|[i x] rows IH]; intros t Ht Hr; simpl in *; [done|].
  apply Forall_cons in Hr as [Hx Hr]. apply IH; [|done].
  destruct i; simpl; [done|]. by apply Forall_insert.
Qed.

Lemma table_ext t t' : (forall i, table_get i t = table_get i t') -> t = t'.
Proof. intros H. apply list_eq. intros i. apply (H (S i)). Qed.
End Flush.

(** ** Row objects with amounts added *)

Lemma set_remaining_same p r : r = remaining_quantity p -> set_remaining p r = p.
Proof. intros ->. by destruct p. Qed.

Lemma amount_of_notin i amounts : ~ In i (map fst amounts) -> amount_of i amounts = 0.
Proof.
  unfold amount_of. induction amounts as [|[j a] amounts IH]; simpl; intros H; [done|].
  destruct (Nat.eqb_spec j i) as [->|Hne]; [tauto|]. apply IH. tauto.
Qed.

Lemma amount_of_cons_eq i a amounts : amount_of i ((i, a) :: amounts) = a.
Proof. unfold amount_of. simpl. by rewrite Nat.eqb_refl. Qed.

Lemma amount_of_cons_ne i j a amounts :
  j <> i -> amount_of i ((j, a) :: amounts) = amount_of i amounts.
Proof.
  unfold amount_of. simpl. intros H. by destruct (Nat.eqb_spec j i).
Qed.

Lemma amount_of_In i amounts :
  amount_of i amounts = 0 \/ In (i, amount_of i amounts) amounts.
Proof.
  induction amounts as [|[j a] amounts IH]; [by left|].
  destruct (decide (j = i)) as [->|Hne].
  - right. rewrite amount_of_cons_eq. by left.
  - rewrite amount_of_cons_ne by done. destruct IH; [by left|right; by right].
Qed.

Lemma map_fst_add_to_rows rows amounts :
  map fst (add_to_rows rows amounts) = map fst rows.
Proof.
  revert amounts. induction rows as [|[i p] rows IH]; intros [|[j a] amounts];
    simpl; try done. by rewrite IH.
Qed.

Lemma map_fst_negated amounts : map fst (negated amounts) = map fst amounts.
Proof. unfold negated. rewrite map_map. by apply map_ext. Qed.

Lemma amount_of_negated i amounts :
  amount_of i (negated amounts) = - amount_of i amounts.
Proof.
  induction amounts as [|[j a] amounts IH]; [done|]. unfold negated in *. simpl.
  destruct (decide (j = i)) as [->|Hne].
  - by rewrite !amount_of_cons_eq.
  - by rewrite !amount_of_cons_ne.
Qed.

Lemma sum_snd_negated amounts :
  sum_Z (map snd (negated amounts)) = - sum_Z (map snd amounts).
Proof. induction amounts as [|[j a] amounts IH]; simpl in *; [done|]. lia. Qed.

(** Flushing rows with amounts added changes, under every key, the
    remaining quantity by the amount of that key and nothing else. *)
Lemma flush_add_get rows amounts t i :
  map fst amounts = map fst rows -> List.NoDup (map fst rows) -> snapshot rows t ->
  table_get i (flush (add_to_rows rows amounts) t)
  = (fun p => set_remaining p (remaining_quantity p + amount_of i amounts))
      <$> table_get i t.
Proof.
  revert amounts t. induction rows as [|[k p] rows IH];
    intros [|[k' a] amounts] t Hk Hnd Hs; simpl in *; try done.
  - destruct (table_get i t) as [q|]; simpl; [|done].
    f_equal. symmetry. apply set_remaining_same. unfold amount_of. simpl. lia.
  - injection Hk as -> Hk. pose proof Hnd as Hnd'.
    apply List.NoDup_cons_iff in Hnd' as [Hnotin Hnd'].
    set (p' := set_remaining p (remaining_quantity p + a)).
    rewrite (IH amounts); [|done|done|by eapply snapshot_cons_inv].
    assert (Hp : table_get k t = Some p) by (apply Hs; by left).
    destruct (decide (k = i)) as [->|Hne].
    + rewrite table_get_set_eq by (rewrite Hp; eauto). rewrite Hp. simpl.
      rewrite amount_of_cons_eq, amount_of_notin by (by rewrite Hk).
      f_equal. apply set_remaining_same. subst p'. simpl. lia.
    + rewrite table_get_set_ne by done. by rewrite amount_of_cons_ne.
Qed.

Lemma lookup_map_enumerate_from {A B : Type} (f : nat * A -> B) n (t : list A) i :
  map f (enumerate_from n t) !! i = (fun x => f ((n + i)%nat, x)) <$> t !! i.
Proof.
  revert n i. induction t as [|a t IH]; intros n [|i]; simpl; try done.
  - by rewrite Nat.add_0_r.
  - rewrite IH. by replace (S n + i)%nat with (n + S i)%nat by lia.
Qed.

Lemma table_get_adjust_remaining delta t i :
  table_get i (adjust_remaining delta t)
  = (fun p => set_remaining p (remaining_quantity p + delta i)) <$> table_get i t.
Proof.
  unfold adjust_remaining, all_rows. destruct i as [|i]; simpl; [done|].
  by rewrite lookup_map_enumerate_from.
Qed.

(** The same, as an equation between tables. *)
Lemma flush_add_to_rows rows amounts t :
  map fst amounts = map fst rows -> List.NoDup (map fst rows) -> snapshot rows t ->
  flush (add_to_rows rows amounts) t
  = adjust_remaining (fun i => amount_of i amounts) t.
Proof.
  intros Hk Hnd Hs. apply table_ext. intros i.
  by rewrite flush_add_get, table_get_adjust_remaining.
Qed.

Lemma length_adjust_remaining delta t : length (adjust_remaining delta t) = length t.
Proof.
  unfold adjust_remaining, all_rows. rewrite length_map.
  rewrite <- (length_map fst), map_fst_enumerate_from. apply length_seq.
Qed.

(** ** The loops *)

Lemma map_fst_fifo_takes rows fill : map fst (fifo_takes rows fill) = map fst rows.
Proof.
  revert fill. induction rows as [|[i p] rows IH]; intros fill; simpl; [done|].
  destruct (fill <=? 0); simpl; by rewrite IH.
Qed.

Lemma fifo_takes_done rows fill :
  fill <= 0 -> fifo_takes rows fill = map (fun r => (fst r, 0)) rows.
Proof.
  intros H. induction rows as [|[i p] rows IH]; simpl; [done|].
  destruct (Z.leb_spec fill 0); [|lia]. by rewrite IH.
Qed.

Lemma add_to_rows_zero rows :
  add_to_rows rows (negated (map (fun r => (fst r, 0)) rows)) = rows.
Proof.
  induction rows as [|[i p] rows IH]; simpl; [done|].
  unfold negated in *. rewrite IH. f_equal. f_equal.
  apply set_remaining_same. simpl. lia.
Qed.

Lemma takes_cost_zero rows : takes_cost rows (map (fun r => (fst r, 0)) rows) = 0.
Proof. induction rows as [|[i p] rows IH]; simpl; [done|]. by rewrite IH. Qed.

Lemma sum_snd_zero {A : Type} (rows : list (nat * A)) :
  sum_Z (map snd (map (fun r => (fst r, 0)) rows)) = 0.
Proof. induction rows as [|[i p] rows IH]; simpl in *; [done|]. by rewrite IH. Qed.

(** The loop of [calculate_fifo_cost] in closed form. *)
Lemma fifo_loop_eq rows tc0 fill :
  fifo_loop rows tc0 fill
  = (add_to_rows rows (negated (fifo_takes rows fill)),
     tc0 + takes_cost rows (fifo_takes rows fill),
     fill - sum_Z (map snd (fifo_takes rows fill))).
Proof.
  revert tc0 fill. induction rows as [|[i p] rows IH]; intros tc0 fill.
  - simpl. repeat f_equal; lia.
  - cbn [fifo_loop fifo_takes]. destruct (Z.leb_spec fill 0) as [Hle|Hgt].
    + rewrite (fifo_takes_done rows fill Hle).
      change ((i, 0) :: map (fun r => (fst r, 0)) rows)
        with (map (fun r : nat * Purchase => (fst r, 0)) ((i, p) :: rows)).
      rewrite add_to_rows_zero, takes_cost_zero, sum_snd_zero.
      repeat f_equal; lia.
    + rewrite IH. unfold negated, sum_Z.
      cbn [add_to_rows map fst snd takes_cost foldr].
      rewrite Z.add_opp_r. f_equal; [f_equal|]; lia.
Qed.

(** ** [calculate_fifo_cost] *)

Lemma with_purchases_same st : with_purchases st (purchases st) = st.
Proof. by destruct st. Qed.

Lemma in_stock_spec ing i p :
  in_stock ing (i, p) = true <-> ingredient_id p = ing /\ 0 < remaining_quantity p.
Proof.
  unfold in_stock. simpl. rewrite andb_true_iff, Nat.eqb_eq, Z.ltb_lt. tauto.
Qed.

Lemma In_fifo_query st ing i p :
  In (i, p) (fifo_query st ing)
  <-> table_get i (purchases st) = Some p
      /\ ingredient_id p = ing /\ 0 < remaining_quantity p.
Proof. unfold fifo_query. by rewrite In_query_rows, in_stock_spec. Qed.

Lemma fifo_query_snapshot st ing : snapshot (fifo_query st ing) (purchases st).
Proof. intros i p H. by apply In_fifo_query in H as [? _]. Qed.

Lemma fifo_query_NoDup st ing : List.NoDup (map fst (fifo_query st ing)).
Proof. apply NoDup_keys_query_rows. Qed.

Lemma fifo_query_Forall st ing :
  Forall (fun r => ingredient_id (snd r) = ing /\ 0 < remaining_quantity (snd r))
         (fifo_query st ing).
Proof.
  apply List.Forall_forall. intros [i p] H. by apply In_fifo_query in H as [_ ?].
Qed.

Lemma adjust_remaining_ext delta delta' t :
  (forall i, delta i = delta' i) -> adjust_remaining delta t = adjust_remaining delta' t.
Proof.
  intros H. unfold adjust_remaining. apply map_ext. intros r. by rewrite H.
Qed.

Lemma calculate_fifo_cost_unknown st ing needed :
  table_get ing (ingredients st) = None -> calculate_fifo_cost st ing needed = (0, st).
Proof. unfold calculate_fifo_cost. by intros ->. Qed.

(** The call in closed form: the row objects are written back ... *)
Lemma calculate_fifo_cost_flush st ing needed :
  is_Some (table_get ing (ingredients st)) ->
  calculate_fifo_cost st ing needed
  = (takes_cost (fifo_query st ing) (fifo_takes (fifo_query st ing) needed),
     with_purchases st
       (flush (add_to_rows (fifo_query st ing)
                 (negated (fifo_takes (fifo_query st ing) needed)))
              (purchases st))).
Proof.
  intros [x Hx]. unfold calculate_fifo_cost. rewrite Hx, fifo_loop_eq. by rewrite Z.add_0_l.
Qed.

(** ... that is, every batch loses the take of its key. *)
Lemma calculate_fifo_cost_adjust st ing needed :
  is_Some (table_get ing (ingredients st)) ->
  calculate_fifo_cost st ing needed
  = (takes_cost (fifo_query st ing) (fifo_takes (fifo_query st ing) needed),
     with_purchases st
       (adjust_remaining
          (fun i => - amount_of i (fifo_takes (fifo_query st ing) needed))
          (purchases st))).
Proof.
  intros H. rewrite calculate_fifo_cost_flush by done. do 2 f_equal.
  rewrite flush_add_to_rows.
  - apply adjust_remaining_ext. intros i. apply amount_of_negated.
  - by rewrite map_fst_negated, map_fst_fifo_takes.
  - apply fifo_query_NoDup.
  - apply fifo_query_snapshot.
Qed.

(** With nothing to fill the loop stops at once and the commit writes back
    what the table holds. *)
Lemma calculate_fifo_cost_nonpositive st ing needed :
  needed <= 0 -> calculate_fifo_cost st ing needed = (0, st).
Proof.
  intros Hle. destruct (table_get ing (ingredients st)) as [x|] eqn:Hx.
  - rewrite calculate_fifo_cost_flush by (rewrite Hx; eauto).
    rewrite fifo_takes_done by done.
    rewrite add_to_rows_zero, takes_cost_zero.
    rewrite flush_snapshot by apply fifo_query_snapshot.
    by rewrite with_purchases_same.
  - by apply calculate_fifo_cost_unknown.
Qed.

(** The loop and the walk without a [break] take the same amounts. *)
Lemma fifo_takes_spec_takes rows needed :
  0 <= needed -> Forall (fun r => 0 < remaining_quantity (snd r)) rows ->
  fifo_takes rows needed = spec_takes rows needed.
Proof.
  revert needed. induction rows as [|[i p] rows IH]; intros needed Hn Hr; simpl; [done|].
  apply Forall_cons in Hr as [Hp Hr]. simpl in Hp.
  destruct (Z.leb_spec needed 0).
  - assert (needed = 0) as -> by lia.
    rewrite Z.min_r by lia. rewrite Z.sub_0_r. f_equal. by apply IH.
  - f_equal. apply IH; [lia|done].
Qed.

Lemma takes_cost_by_key rows takes :
  map fst takes = map fst rows -> List.NoDup (map fst rows) ->
  takes_cost rows takes
  = sum_Z (map (fun r => amount_of (fst r) takes * cost_per_unit (snd r)) rows).
Proof.
  revert takes. induction rows as [|[i p] rows IH]; intros [|[j a] takes] Hk Hnd;
    simpl in *; try done.
  injection Hk as -> Hk. apply List.NoDup_cons_iff in Hnd as [Hi Hnd].
  rewrite amount_of_cons_eq, (IH takes) by done. f_equal. f_equal.
  apply map_ext_in. intros [k q] Hkq. simpl. rewrite amount_of_cons_ne; [done|].
  intros ->. apply Hi. apply List.in_map_iff. by exists (k, q).
Qed.

(** ** The order of a query *)

Section Ordering.
Context {A : Type} (leb : A -> A -> bool).
Hypothesis leb_total : forall x y, leb x y = false -> leb y x = true.

Let row_le (r r' : nat * A) : Prop := leb (snd r) (snd r') = true.

Lemma insert_row_HdRel a x rows :
  row_le a x -> HdRel row_le a rows -> HdRel row_le a (insert_row leb x rows).
Proof.
  intros Hax Hrows. destruct rows as [|y rows]; simpl; [by constructor|].
  destruct (leb (snd x) (snd y)); constructor; [done|].
  by inversion Hrows.
Qed.

Lemma insert_row_Sorted x rows :
  Sorted row_le rows -> Sorted row_le (insert_row leb x rows).
Proof.
  induction rows as [|y rows IH]; simpl; intros Hs.
  - by repeat constructor.
  - destruct (leb (snd x) (snd y)) eqn:Hxy.
    + constructor; [done|]. by constructor.
    + inversion Hs as [|? ? Hs' Hhd]; subst. constructor; [by apply IH|].
      apply insert_row_HdRel; [|done]. by apply leb_total.
Qed.

Lemma order_by_Sorted rows : Sorted row_le (order_by leb rows).
Proof.
  induction rows as [|r rows IH]; simpl; [constructor|].
  by apply insert_row_Sorted.
Qed.
End Ordering.

Lemma date_compare_antisym a b : date_compare b a = CompOpp (date_compare a b).
Proof.
  unfold date_compare.
  rewrite (Z.compare_antisym (year a)), (Z.compare_antisym (month a)),
    (Z.compare_antisym (day a)).
  destruct (year a ?= year b); simpl; try done.
  by destruct (month a ?= month b).
Qed.

Lemma expiry_compare_antisym nf a b :
  expiry_compare nf b a = CompOpp (expiry_compare nf a b).
Proof.
  destruct a, b, nf; simpl; try done; apply date_compare_antisym.
Qed.

Lemma fifo_compare_antisym nf p q :
  fifo_compare nf q p = CompOpp (fifo_compare nf p q).
Proof.
  unfold fifo_compare. rewrite date_compare_antisym, expiry_compare_antisym.
  by destruct (date_compare _ _).
Qed.

Lemma fifo_leb_total nf p q : fifo_leb nf p q = false -> fifo_leb nf q p = true.
Proof.
  unfold fifo_leb. rewrite (fifo_compare_antisym nf p q).
  by destruct (fifo_compare nf p q).
Qed.

Lemma fifo_query_Sorted st ing :
  Sorted (fifo_order (nulls_first st)) (fifo_query st ing).
Proof. apply order_by_Sorted, fifo_leb_total. Qed.

Lemma date_compare_eq a b : date_compare a b = Eq <-> a = b.
Proof.
  unfold date_compare. destruct a as [ya ma da], b as [yb mb db]. simpl.
  destruct (Z.compare_spec ya yb); [|split; [done|intros [=]; lia]..].
  destruct (Z.compare_spec ma mb); [|split; [done|intros [=]; lia]..].
  destruct (Z.compare_spec da db); [|split; [done|intros [=]; lia]..].
  subst. tauto.
Qed.

Lemma date_eqb_eq a b : date_eqb a b = true <-> a = b.
Proof.
  unfold date_eqb. rewrite <- date_compare_eq. by destruct (date_compare a b).
Qed.

Lemma date_compare_Lt a b :
  date_compare a b = Lt
  <-> year a < year b
      \/ (year a = year b
          /\ (month a < month b \/ (month a = month b /\ day a < day b))).
Proof.
  unfold date_compare.
  destruct (Z.compare_spec (year a) (year b));
    destruct (Z.compare_spec (month a) (month b));
    destruct (Z.compare_spec (day a) (day b)); split; try done; try lia.
Qed.

Lemma date_compare_Gt a b : date_compare a b = Gt <-> date_compare b a = Lt.
Proof. rewrite (date_compare_antisym a b). by destruct (date_compare a b). Qed.

Lemma date_compare_trans a b d :
  date_compare a b <> Gt -> date_compare b d <> Gt -> date_compare a d <> Gt.
Proof. rewrite !date_compare_Gt, !date_compare_Lt. lia. Qed.

Lemma expiry_compare_trans nf a b c :
  expiry_compare nf a b <> Gt -> expiry_compare nf b c <> Gt ->
  expiry_compare nf a c <> Gt.
Proof. destruct a, b, c, nf; simpl; try done; apply date_compare_trans. Qed.

Lemma fifo_compare_trans nf p q r :
  fifo_compare nf p q <> Gt -> fifo_compare nf q r <> Gt -> fifo_compare nf p r <> Gt.
Proof.
  unfold fifo_compare.
  pose proof (date_compare_trans (purchase_date p) (purchase_date q) (purchase_date r)) as T.
  pose proof (expiry_compare_trans nf (expiry_date p) (expiry_date q) (expiry_date r)) as T'.
  destruct (date_compare (purchase_date p) (purchase_date q)) eqn:E1;
    destruct (date_compare (purchase_date q) (purchase_date r)) eqn:E2; try done.
  - apply date_compare_eq in E1, E2. rewrite E1, E2.
    assert (date_compare (purchase_date r) (purchase_date r) = Eq) as ->
      by by apply date_compare_eq.
    exact T'.
  - apply date_compare_eq in E1. by rewrite E1, E2.
  - apply date_compare_eq in E2. by rewrite <- E2, E1.
  - intros _ _.
    destruct (date_compare (purchase_date p) (purchase_date r)) eqn:E3; try done.
    + apply date_compare_eq in E3. rewrite E3 in E1.
      apply date_compare_Gt in E2. congruence.
    + exfalso. by apply T.
Qed.

Lemma fifo_leb_trans nf p q r :
  fifo_leb nf p q = true -> fifo_leb nf q r = true -> fifo_leb nf p r = true.
Proof.
  unfold fifo_leb. pose proof (fifo_compare_trans nf p q r) as T.
  destruct (fifo_compare nf p q), (fifo_compare nf q r); try done;
    destruct (fifo_compare nf p r); try done; intros _ _; exfalso; by apply T.
Qed.

Lemma fifo_query_StronglySorted st ing :
  StronglySorted (fifo_order (nulls_first st)) (fifo_query st ing).
Proof.
  apply Sorted_StronglySorted; [|apply fifo_query_Sorted].
  intros r1 r2 r3. apply fifo_leb_trans.
Qed.

Lemma calculate_fifo_cost_spec st ing needed :
  is_Some (table_get ing (ingredients st)) -> 0 <= needed ->
  calculate_fifo_cost st ing needed = spec_allocate st ing needed.
Proof.
  intros Hing Hn. rewrite calculate_fifo_cost_adjust by done. unfold spec_allocate.
  assert (Hpos : Forall (fun r => 0 < remaining_quantity (snd r)) (fifo_query st ing)).
  { eapply Forall_impl; [apply fifo_query_Forall|]. by intros r [_ ?]. }
  rewrite <- (fifo_takes_spec_takes _ _ Hn Hpos).
  rewrite takes_cost_by_key;
    [done|apply map_fst_fifo_takes|apply fifo_query_NoDup].
Qed.

(** C2. FIFO allocation.  For an ingredient of the store and a needed
    quantity that is not negative, [calculate_fifo_cost] considers exactly the
    batches of the ingredient with [remaining_quantity > 0], each once, ordered
    by purchase date and then by expiry date; it takes
    [min(remaining_quantity, quantity_still_needed)] from each in that order,
    decrements every batch by its take and returns the sum of
    [take * cost_per_unit]: it computes what [spec_allocate] describes.  With
    batch A (10 units at cost 2, day 1) and batch B (10 units at cost 3,
    day 2), allocating 15 returns 35 and leaves 0 in A and 5 in B. *)
Theorem fifo_allocation st ing needed :
  is_Some (table_get ing (ingredients st)) -> 0 <= needed ->
  (forall i p,
      In (i, p) (fifo_query st ing)
      <-> table_get i (purchases st) = Some p
          /\ ingredient_id p = ing /\ 0 < remaining_quantity p)
  /\ List.NoDup (map fst (fifo_query st ing))
  /\ StronglySorted (fifo_order (nulls_first st)) (fifo_query st ing)
  /\ calculate_fifo_cost st ing needed = spec_allocate st ing needed
  /\ (forall nf,
        fst (calculate_fifo_cost (two_batches nf) 1 15) = 35
        /\ map remaining_quantity
             (purchases (snd (calculate_fifo_cost (two_batches nf) 1 15)))
           = [0; 5]).
Proof.
  intros Hing Hn. split; [|split; [|split; [|split]]].
  - intros i p. apply In_fifo_query.
  - apply fifo_query_NoDup.
  - apply fifo_query_StronglySorted.
  - by apply calculate_fifo_cost_spec.
  - intros []; by vm_compute.
Qed.

Lemma fifo_allocation_witness :
  is_Some (table_get 1%nat (ingredients (two_batches true))) /\ 0 <= 15
  /\ calculate_fifo_cost (two_batches true) 1 15
     = spec_allocate (two_batches true) 1 15.
Proof.
  assert (H1 : is_Some (table_get 1%nat (ingredients (two_batches true))))
    by (vm_compute; eauto).
  assert (H2 : 0 <= 15) by lia.
  split; [exact H1|split; [exact H2|]].
  exact (proj1 (proj2 (proj2 (proj2 (fifo_allocation (two_batches true) 1 15 H1 H2))))).
Defined.

(** C10. A request of zero or of a negative quantity is a no-op:
    [calculate_fifo_cost] returns cost 0 and leaves the database, hence every
    field of every batch, as it was. *)
Theorem nonpositive_request_is_noop st ing needed :
  needed <= 0 -> calculate_fifo_cost st ing needed = (0, st).
Proof. apply calculate_fifo_cost_nonpositive. Qed.

Lemma nonpositive_request_is_noop_witness :
  -3 <= 0 /\ calculate_fifo_cost (two_batches true) 1 (-3) = (0, two_batches true).
Proof.
  split; [lia|]. apply (nonpositive_request_is_noop (two_batches true) 1 (-3)). lia.
Defined.

(** ** Sums over the rows of a query *)

Lemma sum_Z_perm (l l' : list Z) : Permutation l l' -> sum_Z l = sum_Z l'.
Proof. induction 1; simpl; lia. Qed.

Lemma sum_filter_rows {A : Type} (f : nat * A -> Z) (cond : nat * A -> bool) rows :
  sum_Z (map f (List.filter cond rows))
  = sum_Z (map (fun r => if cond r then f r else 0) rows).
Proof.
  induction rows as [|r rows IH]; simpl; [done|].
  destruct (cond r); simpl; lia.
Qed.

Lemma sum_query_rows {A : Type} (f : nat * A -> Z) cond leb (t : list A) :
  sum_Z (map f (query_rows cond leb t))
  = sum_Z (map (fun r => if cond r then f r else 0) (all_rows t)).
Proof.
  unfold query_rows. rewrite <- sum_filter_rows.
  apply sum_Z_perm, Permutation_map, order_by_perm.
Qed.

Lemma sum_all_rows {A : Type} (h : A -> Z) (t : list A) :
  sum_Z (map (fun r => h (snd r)) (all_rows t)) = table_sum h t.
Proof.
  unfold table_sum, all_rows. rewrite <- (map_snd_enumerate_from 1 t) at 2.
  by rewrite map_map.
Qed.

(** Over batches that hold no negative quantity, the rows in stock carry the
    whole of a column weighted by the remaining quantity. *)
Lemma sum_fifo_query st ing (w : Purchase -> Z) :
  (forall i p, table_get i (purchases st) = Some p -> ingredient_id p = ing ->
               0 <= remaining_quantity p) ->
  sum_Z (map (fun r => remaining_quantity (snd r) * w (snd r)) (fifo_query st ing))
  = table_sum (for_ingredient ing (fun p => remaining_quantity p * w p)) (purchases st).
Proof.
  intros Hnn. unfold fifo_query. rewrite sum_query_rows, <- sum_all_rows.
  f_equal. apply map_ext_in. intros [i p] Hip. apply In_all_rows in Hip.
  unfold in_stock, for_ingredient. simpl.
  destruct (Nat.eqb_spec (ingredient_id p) ing) as [Hing|]; simpl; [|done].
  specialize (Hnn i p Hip Hing). destruct (Z.ltb_spec 0 (remaining_quantity p)); [done|].
  assert (remaining_quantity p = 0) as -> by lia. lia.
Qed.

Lemma amount_of_map_In {A : Type} (g : A -> Z) (rows : list (nat * A)) i x :
  List.NoDup (map fst rows) -> In (i, x) rows ->
  amount_of i (map (fun r => (fst r, g (snd r))) rows) = g x.
Proof.
  induction rows as [|[j y] rows IH]; simpl; intros Hnd Hin; [done|].
  apply List.NoDup_cons_iff in Hnd as [Hj Hnd]. destruct Hin as [[= -> ->]|Hin].
  - apply amount_of_cons_eq.
  - rewrite amount_of_cons_ne; [by apply IH|].
    intros ->. apply Hj. apply List.in_map_iff. by exists (i, x).
Qed.

(** When the stock does not cover the request every row is taken whole. *)
Lemma fifo_takes_shortfall rows needed :
  Forall (fun r => 0 < remaining_quantity (snd r)) rows ->
  sum_Z (map (fun r => remaining_quantity (snd r)) rows) <= needed ->
  fifo_takes rows needed = map (fun r => (fst r, remaining_quantity (snd r))) rows.
Proof.
  revert needed. induction rows as [|[i p] rows IH]; intros needed Hpos Hsum;
    simpl in *; [done|].
  apply Forall_cons in Hpos as [Hp Hpos]. simpl in Hp.
  assert (0 <= sum_Z (map (fun r => remaining_quantity (snd r)) rows)).
  { clear -Hpos. induction Hpos; simpl; [done|]. lia. }
  destruct (Z.leb_spec needed 0); [unfold sum_Z in *; lia|].
  rewrite Z.min_l by (unfold sum_Z in *; lia). f_equal.
  apply IH; [done|]. unfold sum_Z in *. lia.
Qed.

Lemma takes_cost_whole rows :
  takes_cost rows (map (fun r => (fst r, remaining_quantity (snd r))) rows)
  = sum_Z (map (fun r => remaining_quantity (snd r) * cost_per_unit (snd r)) rows).
Proof. induction rows as [|[i p] rows IH]; simpl; [done|]. by rewrite IH. Qed.

Lemma calculate_fifo_cost_shortfall st ing needed :
  is_Some (table_get ing (ingredients st)) ->
  (forall i p, table_get i (purchases st) = Some p -> ingredient_id p = ing ->
               0 <= remaining_quantity p) ->
  remaining_total st ing <= needed ->
  calculate_fifo_cost st ing needed
  = (stock_value st ing, with_purchases st (emptied ing (purchases st))).
Proof.
  intros Hing Hnn Hsum.
  assert (Hpos : Forall (fun r => 0 < remaining_quantity (snd r)) (fifo_query st ing)).
  { eapply Forall_impl; [apply fifo_query_Forall|]. by intros r [_ ?]. }
  assert (Htakes : fifo_takes (fifo_query st ing) needed
                   = map (fun r => (fst r, remaining_quantity (snd r))) (fifo_query st ing)).
  { apply fifo_takes_shortfall; [done|].
    pose proof (sum_fifo_query st ing (fun _ => 1) Hnn) as Hs.
    unfold remaining_total in Hsum.
    erewrite (map_ext _ (fun r => remaining_quantity (snd r) * 1)); [|intros; lia].
    rewrite Hs. erewrite table_sum_ext; [exact Hsum|].
    intros p _. unfold for_ingredient. destruct (Nat.eqb _ _); lia. }
  rewrite calculate_fifo_cost_adjust by done. rewrite Htakes. f_equal.
  - rewrite takes_cost_whole. by apply (sum_fifo_query st ing cost_per_unit).
  - f_equal. unfold adjust_remaining, emptied.
    rewrite <- (map_snd_enumerate_from 1 (purchases st)) at 2.
    rewrite map_map. apply map_ext_in. intros [i p] Hip. apply In_all_rows in Hip.
    simpl. destruct (Nat.eqb_spec (ingredient_id p) ing) as [Hp|Hp].
    + destruct (Z.ltb_spec 0 (remaining_quantity p)) as [Hlt|Hge].
      * rewrite (amount_of_map_In remaining_quantity _ i p);
          [f_equal; lia|apply fifo_query_NoDup|by apply In_fifo_query].
      * specialize (Hnn i p Hip Hp).
        rewrite amount_of_notin.
        -- rewrite (set_remaining_same p 0) by lia. apply set_remaining_same. lia.
        -- rewrite map_map. simpl. intros Hin. apply List.in_map_iff in Hin as ([j q] & Hj & Hq).
           simpl in Hj. subst j. apply In_fifo_query in Hq as (Hq & _ & Hq').
           rewrite Hip in Hq. injection Hq as <-. lia.
    + rewrite amount_of_notin; [apply set_remaining_same; lia|].
      rewrite map_map. simpl. intros Hin. apply List.in_map_iff in Hin as ([j q] & Hj & Hq).
      simpl in Hj. subst j. apply In_fifo_query in Hq as (Hq & Hq' & _).
      rewrite Hip in Hq. injection Hq as <-. done.
Qed.

(** C6, as stated, fails: a batch entered with a negative quantity is not in
    stock, so the allocation never selects it and it keeps its negative
    remaining quantity.  Here the ingredient holds 4 units and a batch of
    -5; a request of 6 exceeds the stock, the cost is that of the 4 units,
    and the second batch is left at -5, not 0. *)
Lemma shortfall_keeps_negative_batch :
  is_Some (table_get 1%nat (ingredients (returned_goods true)))
  /\ remaining_total (returned_goods true) 1 < 6
  /\ fst (calculate_fifo_cost (returned_goods true) 1 6) = 8
  /\ map remaining_quantity
       (purchases (snd (calculate_fifo_cost (returned_goods true) 1 6)))
     = [0; -5]
  /\ ~ (forall i p,
          table_get i (purchases (snd (calculate_fifo_cost (returned_goods true) 1 6)))
          = Some p ->
          ingredient_id p = 1%nat -> remaining_quantity p = 0).
Proof.
  split; [vm_compute; eauto|]. split; [by vm_compute|].
  split; [by vm_compute|]. split; [by vm_compute|].
  intros H. by specialize (H 2%nat _ eq_refl eq_refl).
Qed.

(** The allocation subtracts with rounding.  The batches hold 1, 2^53 - 1
    and 1.5, that is 2^53 + 1.5 in all, and 2^53 + 2 is requested: more than
    the stock.  After the first batch [qty_to_fill] is 2^53 + 1, which
    binary64 rounds to 2^53; after the second it is 1, and the loop takes 1
    of the third batch and leaves 0.5 there. *)
Lemma binary64_shortfall_leaves_stock :
  map Binary64.remaining_quantity (Binary64.purchases Binary64.large_batches)
  = [Binary64.of_Z 1; Binary64.of_Z 9007199254740991;
     PrimFloat.div (Binary64.of_Z 3) (Binary64.of_Z 2)]
  /\ map Binary64.remaining_quantity
       (Binary64.purchases
          (snd (Binary64.calculate_fifo_cost Binary64.large_batches 1
                  (Binary64.of_Z 9007199254740994))))
     = [PrimFloat.zero; PrimFloat.zero;
        PrimFloat.div (Binary64.of_Z 1) (Binary64.of_Z 2)].
Proof. split; by vm_compute. Qed.

(** C6, amended.  The numbers of the ledger and the request are whole and
    stay within [2^53] in magnitude (the range in which binary64 computes
    with them exactly).  Over an ingredient none of whose batches holds a
    negative remaining quantity, a request that exceeds the total remaining
    stock does not fail: the call returns, as cost, the value
    [sum (remaining_quantity * cost_per_unit)] of the stock before the call
    (nothing is charged for the shortfall) and it leaves every batch of the
    ingredient with [remaining_quantity = 0], all else unchanged. *)
Theorem shortfall_is_silent st ing needed :
  is_Some (table_get ing (ingredients st)) ->
  (forall i p, table_get i (purchases st) = Some p -> ingredient_id p = ing ->
               0 <= remaining_quantity p) ->
  remaining_total st ing < needed ->
  ledger_magnitude st + Z.abs needed <= exact_range ->
  allocate st ing needed
  = returns (stock_value st ing, with_purchases st (emptied ing (purchases st)))
  /\ (forall i p,
        table_get i (emptied ing (purchases st)) = Some p ->
        ingredient_id p = ing -> remaining_quantity p = 0).
Proof.
  intros Hing Hnn Hlt _. split.
  - unfold allocate. f_equal. apply calculate_fifo_cost_shortfall; [done|done|lia].
  - intros i p Hp Hi. unfold emptied in Hp. destruct i as [|i]; [done|]. simpl in Hp.
    rewrite list_lookup_fmap in Hp. destruct (purchases st !! i) as [q|]; [|done].
    simpl in Hp. injection Hp as <-.
    destruct (Nat.eqb_spec (ingredient_id q) ing); [done|]. by simpl in Hi.
Qed.

Lemma shortfall_is_silent_witness :
  is_Some (table_get 1%nat (ingredients (two_batches true)))
  /\ (forall i p, table_get i (purchases (two_batches true)) = Some p ->
                  ingredient_id p = 1%nat -> 0 <= remaining_quantity p)
  /\ remaining_total (two_batches true) 1 < 25
  /\ ledger_magnitude (two_batches true) + Z.abs 25 <= exact_range
  /\ allocate (two_batches true) 1 25
     = returns (stock_value (two_batches true) 1,
                with_purchases (two_batches true)
                  (emptied 1 (purchases (two_batches true)))).
Proof.
  assert (H1 : is_Some (table_get 1%nat (ingredients (two_batches true))))
    by (vm_compute; eauto).
  assert (H2 : forall i p, table_get i (purchases (two_batches true)) = Some p ->
                           ingredient_id p = 1%nat -> 0 <= remaining_quantity p).
  { intros i p Hp _. apply elem_of_table_get in Hp. vm_compute in Hp.
    destruct Hp as [<-|[<-|[]]]; simpl; lia. }
  assert (H3 : remaining_total (two_batches true) 1 < 25) by (by vm_compute).
  assert (H4 : ledger_magnitude (two_batches true) + Z.abs 25 <= exact_range)
    by (by vm_compute).
  split; [exact H1|]. split; [exact H2|]. split; [exact H3|]. split; [exact H4|].
  exact (proj1 (shortfall_is_silent (two_batches true) 1 25 H1 H2 H3 H4)).
Defined.

(** C7, as stated, fails: for an ingredient id that is not in the store
    [calculate_fifo_cost] returns the cost 0.0; it raises nothing, and [cook]
    goes on to record a usage and answers with success. *)
Lemma unknown_ingredient_is_not_rejected :
  table_get 7%nat (ingredients (two_batches true)) = None
  /\ allocate (two_batches true) 7 5 = returns (0, two_batches true)
  /\ allocate (two_batches true) 7 5 <> fails not_found
  /\ fst (cook (two_batches true) day2 "dinner" [mkCookItem 7 5 "std"]) = success.
Proof. repeat split; try done. Qed.

(** C7, amended.  For an ingredient id that is not in the store the
    allocation does not fail: it returns cost 0 and leaves the database, hence
    every batch, unchanged. *)
Theorem unknown_ingredient_allocation st ing needed :
  table_get ing (ingredients st) = None ->
  allocate st ing needed = returns (0, st).
Proof.
  intros H. unfold allocate. by rewrite calculate_fifo_cost_unknown.
Qed.

Lemma unknown_ingredient_allocation_witness :
  table_get 7%nat (ingredients (two_batches true)) = None
  /\ allocate (two_batches true) 7 5 = returns (0, two_batches true).
Proof.
  split; [reflexivity|].
  apply (unknown_ingredient_allocation (two_batches true) 7 5). reflexivity.
Defined.

(** ** What each route does to the tables *)

Lemma purchase_items_tables p_date eid items acc :
  exists news,
    purchases (fst (fold_left (purchase_item_step p_date eid) items acc))
    = purchases (fst acc) ++ news
    /\ Forall2 (fresh_batch eid p_date) items news
    /\ shopping_events (fst (fold_left (purchase_item_step p_date eid) items acc))
       = shopping_events (fst acc)
    /\ usages (fst (fold_left (purchase_item_step p_date eid) items acc))
       = usages (fst acc).
Proof.
  revert acc. induction items as [|it items IH]; intros [st tc]; cbn [fold_left].
  - exists []. rewrite app_nil_r. repeat split. constructor.
  - destruct (IH (purchase_item_step p_date eid (st, tc) it)) as (news & Hp & Hf & He & Hu).
    rewrite Hp, He, Hu. unfold purchase_item_step.
    destruct (find_ingredient (item_name it) (current_user st) (ingredients st))
      as [k|]; simpl;
      eexists (_ :: news); rewrite <- app_assoc; simpl;
      (split; [reflexivity|]); (split; [|done]);
      (constructor; [|done]); by repeat split.
Qed.

Lemma purchase_tables st p_date p_place items :
  exists news,
    purchases (snd (purchase st p_date p_place items)) = purchases st ++ news
    /\ Forall2 (fresh_batch (S (length (shopping_events st))) p_date) items news
    /\ length (shopping_events (snd (purchase st p_date p_place items)))
       = S (length (shopping_events st))
    /\ (forall i e, table_get i (shopping_events st) = Some e ->
                    table_get i (shopping_events (snd (purchase st p_date p_place items)))
                    = Some e)
    /\ usages (snd (purchase st p_date p_place items)) = usages st.
Proof.
  unfold purchase.
  set (st0 := with_events st (shopping_events st ++ [mkShoppingEvent p_date p_place 0 0])).
  set (eid := length (shopping_events st0)).
  assert (Heid : eid = S (length (shopping_events st))).
  { subst eid st0. simpl. rewrite length_app. simpl. lia. }
  destruct (purchase_items_tables p_date eid items (st0, 0)) as (news & Hp & Hf & He & Hu).
  destruct (fold_left _ items (st0, 0)) as [st1 tc] eqn:Hfold. simpl in *.
  exists news. split; [exact Hp|]. split; [by rewrite <- Heid|].
  split; [|split; [|exact Hu]].
  - rewrite length_table_set, He, length_app. simpl. lia.
  - intros i e Hi. rewrite table_get_set_ne.
    + rewrite He. by apply table_get_app_l.
    + apply table_get_lt in Hi. lia.
Qed.

Lemma cook_item_step_purchases u_date meal st item :
  purchases (cook_item_step u_date meal st item)
  = purchases (snd (calculate_fifo_cost st (cook_ingredient_id item)
                      (final_quantity st item))).
Proof.
  unfold cook_item_step. by destruct (calculate_fifo_cost _ _ _) as [c st1].
Qed.

Lemma calculate_fifo_cost_other_tables st ing needed :
  ingredients (snd (calculate_fifo_cost st ing needed)) = ingredients st
  /\ shopping_events (snd (calculate_fifo_cost st ing needed)) = shopping_events st
  /\ usages (snd (calculate_fifo_cost st ing needed)) = usages st
  /\ unit_matrix (snd (calculate_fifo_cost st ing needed)) = unit_matrix st
  /\ nulls_first (snd (calculate_fifo_cost st ing needed)) = nulls_first st.
Proof.
  unfold calculate_fifo_cost. destruct (table_get ing (ingredients st)); [|done].
  by destruct (fifo_loop _ _ _) as [[rows' tc] q].
Qed.

Lemma cook_item_step_events u_date meal st item :
  shopping_events (cook_item_step u_date meal st item) = shopping_events st.
Proof.
  unfold cook_item_step.
  pose proof (calculate_fifo_cost_other_tables st (cook_ingredient_id item)
                (final_quantity st item)) as (_ & He & _).
  by destruct (calculate_fifo_cost _ _ _) as [c st1].
Qed.

(** ** Conservation of quantity *)

Lemma for_ingredient_set_remaining ing (f : Purchase -> Z) p r :
  (forall q s, f (set_remaining q s) = f q) ->
  for_ingredient ing f (set_remaining p r) = for_ingredient ing f p.
Proof. intros H. unfold for_ingredient. simpl. by rewrite H. Qed.

Lemma add_to_rows_balance ing ing' rows amounts :
  map fst amounts = map fst rows ->
  Forall (fun r => ingredient_id (snd r) = ing) rows ->
  table_sum (for_ingredient ing' batch_balance) (map snd (add_to_rows rows amounts))
  = table_sum (for_ingredient ing' batch_balance) (map snd rows)
    + (if Nat.eqb ing ing' then sum_Z (map snd amounts) else 0).
Proof.
  revert amounts. induction rows as [|[i p] rows IH]; intros [|[j a] amounts] Hk Hr;
    simpl in *; try done.
  - destruct (Nat.eqb ing ing'); unfold sum_Z; simpl; lia.
  - injection Hk as -> Hk. apply Forall_cons in Hr as [Hp Hr]. simpl in Hp.
    unfold table_sum in *. simpl. rewrite (IH amounts) by done.
    unfold for_ingredient at 1 3, batch_balance. simpl. rewrite Hp.
    destruct (Nat.eqb ing ing'); lia.
Qed.

Lemma calculate_fifo_cost_balance st ing needed ing' :
  ledger_balance (snd (calculate_fifo_cost st ing needed)) ing'
  + (if Nat.eqb ing ing' then allocated_quantity st ing needed else 0)
  = ledger_balance st ing'.
Proof.
  unfold allocated_quantity.
  destruct (table_get ing (ingredients st)) as [x|] eqn:Hx.
  - rewrite calculate_fifo_cost_flush by (rewrite Hx; eauto).
    unfold ledger_balance. simpl.
    rewrite (flush_sum _ (fifo_query st ing));
      [|by rewrite map_fst_add_to_rows|apply fifo_query_NoDup|apply fifo_query_snapshot].
    rewrite (add_to_rows_balance ing ing').
    + rewrite sum_snd_negated. fold batch_balance. destruct (Nat.eqb ing ing'); lia.
    + by rewrite map_fst_negated, map_fst_fifo_takes.
    + eapply Forall_impl; [apply fifo_query_Forall|]. by intros r [? _].
  - rewrite calculate_fifo_cost_unknown by done. simpl. destruct (Nat.eqb _ _); lia.
Qed.

Lemma discard_item_balance st pid amount ing :
  ledger_balance (snd (discard_item st pid amount)) ing = ledger_balance st ing.
Proof.
  unfold discard_item. destruct (table_get pid (purchases st)) as [p|] eqn:Hp; [|done].
  set (a := default (remaining_quantity p) amount).
  destruct (remaining_quantity p <? a); [done|].
  match goal with |- context [truthy_id (shopping_event_id ?q)] => set (p3 := q) end.
  assert (Hb : for_ingredient ing batch_balance p3 = for_ingredient ing batch_balance p).
  { subst p3. unfold for_ingredient, batch_balance.
    destruct (_ =? 0); simpl; destruct (Nat.eqb _ _); lia. }
  assert (Hs : table_sum (for_ingredient ing batch_balance) (table_set pid p3 (purchases st))
               = table_sum (for_ingredient ing batch_balance) (purchases st)).
  { rewrite (table_sum_set _ _ _ _ p Hp). lia. }
  destruct (truthy_id _) as [eid|]; [|exact Hs].
  simpl. destruct (table_get eid (shopping_events st)); [exact Hs|done].
Qed.

Lemma update_purchase_status_balance st pid s ing :
  ledger_balance (snd (update_purchase_status st pid s)) ing = ledger_balance st ing.
Proof.
  unfold update_purchase_status.
  destruct (table_get pid (purchases st)) as [p|] eqn:Hp; [|done].
  destruct (_ && _); [|done].
  match goal with |- context [truthy_id (shopping_event_id ?q)] => set (p4 := q) end.
  assert (Hs : table_sum (for_ingredient ing batch_balance) (table_set pid p4 (purchases st))
               = table_sum (for_ingredient ing batch_balance) (purchases st)).
  { rewrite (table_sum_set _ _ _ _ p Hp). subst p4.
    unfold for_ingredient, batch_balance. simpl. destruct (Nat.eqb _ _); lia. }
  destruct (truthy_id _) as [eid|]; [|exact Hs].
  simpl. destruct (table_get eid (shopping_events st)); [exact Hs|done].
Qed.

Lemma fresh_batches_balance eid d ing items news :
  Forall2 (fresh_batch eid d) items news ->
  table_sum (for_ingredient ing batch_balance) news = 0.
Proof.
  induction 1 as [|it p items news Hf _ IH]; [done|].
  unfold table_sum in *. simpl. rewrite IH.
  destruct Hf as (Hq & Hr & Hd & _). unfold for_ingredient, batch_balance.
  destruct (Nat.eqb _ _); lia.
Qed.

Lemma purchase_balance st d pl items ing :
  ledger_balance (snd (purchase st d pl items)) ing = ledger_balance st ing.
Proof.
  destruct (purchase_tables st d pl items) as (news & Hp & Hf & _).
  unfold ledger_balance. fold batch_balance. rewrite Hp, table_sum_app.
  rewrite (fresh_batches_balance _ _ _ _ _ Hf). lia.
Qed.

Lemma ledger_balance_cook_item_step u_date meal st item ing :
  ledger_balance (cook_item_step u_date meal st item) ing
  = ledger_balance (snd (calculate_fifo_cost st (cook_ingredient_id item)
                           (final_quantity st item))) ing.
Proof. unfold ledger_balance. by rewrite cook_item_step_purchases. Qed.

Lemma cook_balance st u_date meal items ing :
  ledger_balance (snd (cook st u_date meal items)) ing
  + allocated_by_cook st u_date meal items ing
  = ledger_balance st ing.
Proof.
  unfold cook. simpl. revert st. induction items as [|item items IH]; intros st; simpl.
  - lia.
  - specialize (IH (cook_item_step u_date meal st item)).
    rewrite ledger_balance_cook_item_step in IH.
    pose proof (calculate_fifo_cost_balance st (cook_ingredient_id item)
                  (final_quantity st item) ing) as H.
    destruct (Nat.eqb_spec (cook_ingredient_id item) ing) as [Heq|Hne].
    + rewrite Heq in *. lia.
    + lia.
Qed.

Lemma step_balance st o ing :
  no_reversal o ->
  ledger_balance (step st o) ing + allocated_by st o ing = ledger_balance st ing.
Proof.
  destruct o as [d pl items|d meal items|pid a|pid s|uid]; unfold step; simpl; intros H.
  - rewrite purchase_balance. lia.
  - apply cook_balance.
  - rewrite discard_item_balance. lia.
  - rewrite update_purchase_status_balance. lia.
  - done.
Qed.

Lemma run_cons o ops st : run (o :: ops) st = run ops (step st o).
Proof. reflexivity. Qed.

Lemma run_app ops1 ops2 st : run (ops1 ++ ops2) st = run ops2 (run ops1 st).
Proof. unfold run. apply fold_left_app. Qed.

Lemma run_balance ops st ing :
  Forall no_reversal ops ->
  ledger_balance (run ops st) ing + total_allocated ops st ing = ledger_balance st ing.
Proof.
  revert st. induction ops as [|o ops IH]; intros st Hops.
  - simpl. lia.
  - apply Forall_cons in Hops as [Ho Hops]. rewrite run_cons.
    cbn [total_allocated].
    specialize (IH (step st o) Hops). pose proof (step_balance st o ing Ho). lia.
Qed.

Lemma table_sum_for_ingredient_balance ing t :
  table_sum (for_ingredient ing batch_balance) t
  = table_sum (for_ingredient ing remaining_quantity) t
    + table_sum (for_ingredient ing discarded_quantity) t
    - table_sum (for_ingredient ing quantity) t.
Proof.
  unfold table_sum. induction t as [|p t IH]; simpl; [done|].
  rewrite IH. unfold for_ingredient, batch_balance. destruct (Nat.eqb _ _); lia.
Qed.

Lemma ledger_balance_split st ing :
  ledger_balance st ing
  = remaining_total st ing + discarded_total st ing - original_total st ing.
Proof. apply table_sum_for_ingredient_balance. Qed.

(** C1, as stated, fails: the quantities are binary64 values, and the
    allocation subtracts with rounding.  A batch of 0.9 is bought and a meal
    takes 0.2 of it.  The take is 0.2, the batch keeps 0.9 - 0.2 = 0.7
    (rounded), nothing is discarded, and remaining + taken + discarded is
    0.7 + 0.2 + 0 = 0.8999999999999999: less than the original 0.9. *)
Lemma binary64_loses_quantity :
  map Binary64.quantity (Binary64.purchases Binary64.decimal_batch)
  = [Binary64.tenths 9]
  /\ Binary64.fifo_takes (Binary64.fifo_query Binary64.decimal_batch 1)
       (Binary64.tenths 2)
     = [Binary64.tenths 2]
  /\ map Binary64.quantity (Binary64.purchases Binary64.decimal_meal)
     = [Binary64.tenths 9]
  /\ map Binary64.remaining_quantity (Binary64.purchases Binary64.decimal_meal)
     = [Binary64.tenths 7]
  /\ map Binary64.discarded_quantity (Binary64.purchases Binary64.decimal_meal)
     = [PrimFloat.zero]
  /\ PrimFloat.ltb
       (PrimFloat.add (PrimFloat.add (Binary64.tenths 7) (Binary64.tenths 2))
                      PrimFloat.zero)
       (Binary64.tenths 9)
     = true.
Proof. repeat split; by vm_compute. Qed.

(** C1, amended.  Quantity conservation for whole numbers in the exact range
    of binary64.  Start from a database with no batch and run any sequence of
    [purchase], [cook] (which allocates with [calculate_fifo_cost]),
    [discard_item] and [update_purchase_status] requests whose quantities are
    whole numbers and stay, with those of the ledger, within [2^53] in
    magnitude.  In the state the sequence reaches, and so after every one of
    its operations, the remaining quantities of the batches of an ingredient,
    plus the quantities the allocations took from them, plus their discarded
    quantities, add up to their original quantities. *)
Theorem quantity_conservation ops st ing :
  empty_ledger st -> Forall no_reversal ops -> quantities_exact_along ops st ->
  remaining_total (run ops st) ing + total_allocated ops st ing
  + discarded_total (run ops st) ing
  = original_total (run ops st) ing.
Proof.
  intros (Hp & _) Hops _. pose proof (run_balance ops st ing Hops) as H.
  rewrite (ledger_balance_split (run ops st)) in H.
  assert (H0 : ledger_balance st ing = 0) by (unfold ledger_balance; by rewrite Hp).
  lia.
Qed.

Lemma quantity_conservation_witness :
  empty_ledger (empty_store true)
  /\ Forall no_reversal
       [OpPurchase day1 "market" [mkItem "milk" 10 "ml" 20 2 None];
        OpCook day2 "dinner" [mkCookItem 1 4 "std"];
        OpDiscard 1 (Some 3)]
  /\ quantities_exact_along
       [OpPurchase day1 "market" [mkItem "milk" 10 "ml" 20 2 None];
        OpCook day2 "dinner" [mkCookItem 1 4 "std"];
        OpDiscard 1 (Some 3)] (empty_store true)
  /\ remaining_total
       (run [OpPurchase day1 "market" [mkItem "milk" 10 "ml" 20 2 None];
             OpCook day2 "dinner" [mkCookItem 1 4 "std"];
             OpDiscard 1 (Some 3)] (empty_store true)) 1
     + total_allocated
         [OpPurchase day1 "market" [mkItem "milk" 10 "ml" 20 2 None];
          OpCook day2 "dinner" [mkCookItem 1 4 "std"];
          OpDiscard 1 (Some 3)] (empty_store true) 1
     + discarded_total
         (run [OpPurchase day1 "market" [mkItem "milk" 10 "ml" 20 2 None];
               OpCook day2 "dinner" [mkCookItem 1 4 "std"];
               OpDiscard 1 (Some 3)] (empty_store true)) 1
     = original_total
         (run [OpPurchase day1 "market" [mkItem "milk" 10 "ml" 20 2 None];
               OpCook day2 "dinner" [mkCookItem 1 4 "std"];
               OpDiscard 1 (Some 3)] (empty_store true)) 1.
Proof.
  assert (H1 : empty_ledger (empty_store true)) by done.
  assert (H2 : Forall no_reversal
                 [OpPurchase day1 "market" [mkItem "milk" 10 "ml" 20 2 None];
                  OpCook day2 "dinner" [mkCookItem 1 4 "std"];
                  OpDiscard 1 (Some 3)])
    by (repeat constructor).
  assert (H3 : quantities_exact_along
                 [OpPurchase day1 "market" [mkItem "milk" 10 "ml" 20 2 None];
                  OpCook day2 "dinner" [mkCookItem 1 4 "std"];
                  OpDiscard 1 (Some 3)] (empty_store true))
    by (repeat split; by vm_compute).
  split; [exact H1|]. split; [exact H2|]. split; [exact H3|].
  exact (quantity_conservation _ (empty_store true) 1 H1 H2 H3).
Defined.

(** ** Discarding *)

Lemma discard_item_rejects st pid p amount :
  table_get pid (purchases st) = Some p ->
  remaining_quantity p < default (remaining_quantity p) amount ->
  discard_item st pid amount = (exceeds_remaining, st).
Proof.
  intros Hp Hlt. unfold discard_item. rewrite Hp.
  by destruct (Z.ltb_spec (remaining_quantity p) (default (remaining_quantity p) amount));
    [|lia].
Qed.

Lemma discard_item_accepts st pid p amount :
  table_get pid (purchases st) = Some p -> event_resolves st p ->
  default (remaining_quantity p) amount <= remaining_quantity p ->
  exists st',
    discard_item st pid amount = (success, st')
    /\ purchases st'
       = table_set pid (after_discard p (default (remaining_quantity p) amount))
           (purchases st)
    /\ match truthy_id (shopping_event_id p) with
       | None => shopping_events st' = shopping_events st
       | Some eid =>
           exists e,
             table_get eid (shopping_events st) = Some e
             /\ shopping_events st'
                = table_set eid
                    (set_total_waste e
                       (total_waste e
                        + default (remaining_quantity p) amount * cost_per_unit p))
                    (shopping_events st)
       end
    /\ usages st' = usages st /\ ingredients st' = ingredients st.
Proof.
  intros Hp Hev Hle. unfold discard_item. rewrite Hp.
  set (a := default (remaining_quantity p) amount) in *.
  destruct (Z.ltb_spec (remaining_quantity p) a); [lia|].
  match goal with |- context [truthy_id (shopping_event_id ?q)] => set (p3 := q) end.
  assert (Hp3 : p3 = after_discard p a).
  { subst p3. unfold after_discard. simpl. by destruct (_ =? 0). }
  assert (Hid : shopping_event_id p3 = shopping_event_id p) by (by rewrite Hp3).
  rewrite Hid. unfold event_resolves in Hev.
  destruct (truthy_id (shopping_event_id p)) as [eid|].
  - destruct Hev as [e He]. simpl. rewrite He. eexists. split; [reflexivity|].
    simpl. rewrite Hp3. eauto 10.
  - eexists. split; [reflexivity|]. simpl. by rewrite Hp3.
Qed.

(** C5, as stated, fails: a negative amount is not rejected.  Discarding -3
    from batch A (10 remaining of 10) succeeds; the batch then holds 13, its
    discarded quantity is -3 and the waste of its shopping event is -6. *)
Lemma negative_discard_is_accepted :
  fst (discard_item (two_batches true) 1 (Some (-3))) = success
  /\ discard_item (two_batches true) 1 (Some (-3))
     <> (exceeds_remaining, two_batches true)
  /\ map remaining_quantity
       (purchases (snd (discard_item (two_batches true) 1 (Some (-3)))))
     = [13; 10]
  /\ map discarded_quantity
       (purchases (snd (discard_item (two_batches true) 1 (Some (-3)))))
     = [-3; 0]
  /\ map total_waste
       (shopping_events (snd (discard_item (two_batches true) 1 (Some (-3)))))
     = [-6; 0].
Proof. repeat split; by vm_compute. Qed.

(** C5, amended.  For a batch of the store (whose shopping event, if it names
    one, exists), [discard_item] fails with "Exceeds remaining" -- leaving the
    whole database, so the batch and its event, unchanged -- exactly when the
    amount is greater than the remaining quantity; with every other amount,
    a negative one included, it succeeds and books the amount: the batch
    becomes [after_discard] and its event's waste grows by
    [amount * cost_per_unit]. *)
Theorem discard_error_handling st pid p amount :
  table_get pid (purchases st) = Some p -> event_resolves st p ->
  (remaining_quantity p < default (remaining_quantity p) amount
   -> discard_item st pid amount = (exceeds_remaining, st))
  /\ (default (remaining_quantity p) amount <= remaining_quantity p
      -> exists st',
        discard_item st pid amount = (success, st')
        /\ table_get pid (purchases st')
           = Some (after_discard p (default (remaining_quantity p) amount))
        /\ match truthy_id (shopping_event_id p) with
           | None => shopping_events st' = shopping_events st
           | Some eid =>
               exists e,
                 table_get eid (shopping_events st) = Some e
                 /\ table_get eid (shopping_events st')
                    = Some (set_total_waste e
                              (total_waste e
                               + default (remaining_quantity p) amount
                                 * cost_per_unit p))
           end)
  /\ (fst (discard_item st pid amount) = exceeds_remaining
      <-> remaining_quantity p < default (remaining_quantity p) amount).
Proof.
  intros Hp Hev. split; [|split].
  - by apply discard_item_rejects.
  - intros Hle.
    destruct (discard_item_accepts st pid p amount Hp Hev Hle)
      as (st' & Hd & Hps & Hes & _).
    exists st'. split; [done|]. split.
    + rewrite Hps. apply table_get_set_eq. rewrite Hp. eauto.
    + destruct (truthy_id (shopping_event_id p)) as [eid|]; [|done].
      destruct Hes as (e & He & Hes). exists e. split; [done|].
      rewrite Hes. apply table_get_set_eq. rewrite He. eauto.
  - split.
    + intros Hf.
      destruct (Z.lt_ge_cases (remaining_quantity p)
                  (default (remaining_quantity p) amount)) as [|Hle]; [done|].
      destruct (discard_item_accepts st pid p amount Hp Hev) as (st' & Hd & _); [lia|].
      rewrite Hd in Hf. discriminate.
    + intros Hlt. by rewrite (discard_item_rejects st pid p amount Hp Hlt).
Qed.

Lemma discard_error_handling_witness :
  table_get 1%nat (purchases (two_batches true))
  = Some (mkPurchase 1 day1 10 10 2 None (Some 1%nat) "active" 0 0)
  /\ event_resolves (two_batches true)
       (mkPurchase 1 day1 10 10 2 None (Some 1%nat) "active" 0 0)
  /\ (fst (discard_item (two_batches true) 1 (Some 11)) = exceeds_remaining
      <-> 10 < 11).
Proof.
  assert (H1 : table_get 1%nat (purchases (two_batches true))
               = Some (mkPurchase 1 day1 10 10 2 None (Some 1%nat) "active" 0 0))
    by reflexivity.
  assert (H2 : event_resolves (two_batches true)
                 (mkPurchase 1 day1 10 10 2 None (Some 1%nat) "active" 0 0))
    by (vm_compute; eauto).
  split; [exact H1|]. split; [exact H2|].
  exact (proj2 (proj2 (discard_error_handling (two_batches true) 1 _ (Some 11) H1 H2))).
Defined.

Lemma update_purchase_status_discards st pid p :
  table_get pid (purchases st) = Some p -> event_resolves st p ->
  status p <> "discarded"%string ->
  exists st',
    update_purchase_status st pid "discarded" = (success, st')
    /\ purchases st' = table_set pid (fully_discarded p) (purchases st)
    /\ match truthy_id (shopping_event_id p) with
       | None => shopping_events st' = shopping_events st
       | Some eid =>
           exists e,
             table_get eid (shopping_events st) = Some e
             /\ shopping_events st'
                = table_set eid
                    (set_total_waste e
                       (total_waste e + remaining_quantity p * cost_per_unit p))
                    (shopping_events st)
       end
    /\ usages st' = usages st /\ ingredients st' = ingredients st.
Proof.
  intros Hp Hev Hs. unfold update_purchase_status. rewrite Hp.
  apply String.eqb_neq in Hs. rewrite Hs.
  change (("discarded" =? "discarded")%string && negb false) with true. cbv iota.
  unfold event_resolves in Hev. simpl shopping_event_id.
  destruct (truthy_id (shopping_event_id p)) as [eid|].
  - destruct Hev as [e He]. simpl. rewrite He. eexists. split; [reflexivity|].
    simpl. eauto 10.
  - eexists. split; [reflexivity|]. by simpl.
Qed.

Lemma update_purchase_status_already st pid p s :
  table_get pid (purchases st) = Some p -> status p = "discarded"%string ->
  update_purchase_status st pid s = (success, st).
Proof.
  intros Hp Hs. unfold update_purchase_status. rewrite Hp, Hs.
  by rewrite andb_false_r.
Qed.

(** C8. Idempotent full discard.  On a batch that is not discarded,
    [update_purchase_status] with 'discarded' discards the whole remaining
    quantity: the batch gets [remaining_quantity = 0], status 'discarded',
    [remaining_quantity] more discarded quantity and
    [remaining_quantity * cost_per_unit] more discarded cost, and the waste of
    its shopping event grows by that same cost; no other batch and no other
    event changes.  On a batch that is already discarded the request changes
    nothing in the database; so a second full discard is a no-op. *)
Theorem full_discard_idempotent st pid p :
  table_get pid (purchases st) = Some p -> event_resolves st p ->
  (status p <> "discarded"%string ->
   exists st',
     update_purchase_status st pid "discarded" = (success, st')
     /\ table_get pid (purchases st') = Some (fully_discarded p)
     /\ (forall j, j <> pid -> table_get j (purchases st') = table_get j (purchases st))
     /\ match truthy_id (shopping_event_id p) with
        | None => shopping_events st' = shopping_events st
        | Some eid =>
            exists e,
              table_get eid (shopping_events st) = Some e
              /\ table_get eid (shopping_events st')
                 = Some (set_total_waste e
                           (total_waste e + remaining_quantity p * cost_per_unit p))
              /\ (forall j, j <> eid ->
                            table_get j (shopping_events st')
                            = table_get j (shopping_events st))
        end
     /\ update_purchase_status st' pid "discarded" = (success, st'))
  /\ (status p = "discarded"%string ->
      update_purchase_status st pid "discarded" = (success, st)).
Proof.
  intros Hp Hev. split.
  - intros Hs.
    destruct (update_purchase_status_discards st pid p Hp Hev Hs)
      as (st' & Hu & Hps & Hes & _).
    assert (Hp' : table_get pid (purchases st') = Some (fully_discarded p)).
    { rewrite Hps. apply table_get_set_eq. rewrite Hp. eauto. }
    exists st'. split; [done|]. split; [done|]. split; [|split].
    + intros j Hj. rewrite Hps. by apply table_get_set_ne.
    + destruct (truthy_id (shopping_event_id p)) as [eid|]; [|done].
      destruct Hes as (e & He & Hes). exists e. split; [done|]. rewrite Hes. split.
      * apply table_get_set_eq. rewrite He. eauto.
      * intros j Hj. by apply table_get_set_ne.
    + by apply (update_purchase_status_already st' pid (fully_discarded p)).
  - by apply update_purchase_status_already.
Qed.

Lemma full_discard_idempotent_witness :
  table_get 1%nat (purchases (two_batches true))
  = Some (mkPurchase 1 day1 10 10 2 None (Some 1%nat) "active" 0 0)
  /\ event_resolves (two_batches true)
       (mkPurchase 1 day1 10 10 2 None (Some 1%nat) "active" 0 0)
  /\ ("active" <> "discarded")%string
  /\ exists st',
      update_purchase_status (two_batches true) 1 "discarded" = (success, st')
      /\ update_purchase_status st' 1 "discarded" = (success, st').
Proof.
  assert (H1 : table_get 1%nat (purchases (two_batches true))
               = Some (mkPurchase 1 day1 10 10 2 None (Some 1%nat) "active" 0 0))
    by reflexivity.
  assert (H2 : event_resolves (two_batches true)
                 (mkPurchase 1 day1 10 10 2 None (Some 1%nat) "active" 0 0))
    by (vm_compute; eauto).
  assert (H3 : ("active" <> "discarded")%string) by discriminate.
  split; [exact H1|]. split; [exact H2|]. split; [exact H3|].
  destruct (proj1 (full_discard_idempotent (two_batches true) 1 _ H1 H2) H3)
    as (st' & Hu & _ & _ & _ & Hagain).
  exists st'. by split.
Defined.

(** ** The batch table after each request *)

Lemma discard_item_purchases st pid amount :
  purchases (snd (discard_item st pid amount)) = purchases st
  \/ exists p,
      table_get pid (purchases st) = Some p
      /\ default (remaining_quantity p) amount <= remaining_quantity p
      /\ purchases (snd (discard_item st pid amount))
         = table_set pid (after_discard p (default (remaining_quantity p) amount))
             (purchases st).
Proof.
  unfold discard_item. destruct (table_get pid (purchases st)) as [p|] eqn:Hp; [|by left].
  set (a := default (remaining_quantity p) amount).
  destruct (Z.ltb_spec (remaining_quantity p) a); [by left|].
  match goal with |- context [truthy_id (shopping_event_id ?q)] => set (p3 := q) end.
  assert (Hp3 : p3 = after_discard p a).
  { subst p3. unfold after_discard. simpl. by destruct (_ =? 0). }
  destruct (truthy_id _) as [eid|]; simpl.
  - destruct (table_get eid (shopping_events st)); simpl; [|by left].
    right. exists p. by rewrite Hp3.
  - right. exists p. by rewrite Hp3.
Qed.

Lemma update_purchase_status_purchases st pid s :
  purchases (snd (update_purchase_status st pid s)) = purchases st
  \/ exists p,
      table_get pid (purchases st) = Some p
      /\ purchases (snd (update_purchase_status st pid s))
         = table_set pid (fully_discarded p) (purchases st).
Proof.
  unfold update_purchase_status.
  destruct (table_get pid (purchases st)) as [p|] eqn:Hp; [|by left].
  destruct (_ && _); [|by left]. simpl shopping_event_id.
  destruct (truthy_id _) as [eid|]; simpl.
  - destruct (table_get eid (shopping_events st)); simpl; [|by left].
    right. by exists p.
  - right. by exists p.
Qed.

Lemma map_fst_restore_amounts rows r :
  map fst (restore_amounts rows r) = map fst rows.
Proof.
  revert r. induction rows as [|[i p] rows IH]; intros r; simpl; [done|].
  destruct (r <=? 0); simpl; by rewrite IH.
Qed.

Lemma restore_amounts_done rows r :
  r <= 0 -> restore_amounts rows r = map (fun x => (fst x, 0)) rows.
Proof.
  intros H. induction rows as [|[i p] rows IH]; simpl; [done|].
  destruct (Z.leb_spec r 0); [|lia]. by rewrite IH.
Qed.

Lemma add_to_rows_zero' rows :
  add_to_rows rows (map (fun r => (fst r, 0)) rows) = rows.
Proof.
  induction rows as [|[i p] rows IH]; simpl; [done|].
  rewrite IH. f_equal. f_equal. apply set_remaining_same. lia.
Qed.

(** The loop of [api_delete_usage] in closed form. *)
Lemma restore_loop_eq rows r :
  restore_loop rows r
  = (add_to_rows rows (restore_amounts rows r),
     r - sum_Z (map snd (restore_amounts rows r))).
Proof.
  revert r. induction rows as [|[i p] rows IH]; intros r.
  - simpl. f_equal. lia.
  - cbn [restore_loop restore_amounts]. destruct (Z.leb_spec r 0) as [Hle|Hgt].
    + rewrite (restore_amounts_done rows r Hle).
      change ((i, 0) :: map (fun x => (fst x, 0)) rows)
        with (map (fun x : nat * Purchase => (fst x, 0)) ((i, p) :: rows)).
      rewrite add_to_rows_zero', sum_snd_zero. f_equal. lia.
    + rewrite IH. unfold sum_Z. cbn [add_to_rows map fst snd foldr].
      f_equal. lia.
Qed.

Lemma not_full_spec ing i p :
  not_full ing (i, p) = true
  <-> ingredient_id p = ing /\ remaining_quantity p < quantity p.
Proof.
  unfold not_full. simpl. rewrite andb_true_iff, Nat.eqb_eq, Z.ltb_lt. tauto.
Qed.

Lemma In_restore_query st ing i p :
  In (i, p) (restore_query st ing)
  <-> table_get i (purchases st) = Some p
      /\ ingredient_id p = ing /\ remaining_quantity p < quantity p.
Proof. unfold restore_query. by rewrite In_query_rows, not_full_spec. Qed.

Lemma restore_query_snapshot st ing : snapshot (restore_query st ing) (purchases st).
Proof. intros i p H. by apply In_restore_query in H as [? _]. Qed.

Lemma restore_query_NoDup st ing : List.NoDup (map fst (restore_query st ing)).
Proof. apply NoDup_keys_query_rows. Qed.

Lemma restore_query_Forall st ing :
  Forall (fun r => ingredient_id (snd r) = ing
                   /\ remaining_quantity (snd r) < quantity (snd r))
         (restore_query st ing).
Proof.
  apply List.Forall_forall. intros [i p] H. by apply In_restore_query in H as [_ ?].
Qed.

Lemma most_recent_In rows r : most_recent rows = Some r -> In r rows.
Proof.
  revert r. induction rows as [|x rows IH]; intros r; simpl; [done|].
  destruct (most_recent rows) as [b|].
  - destruct (date_leb _ _); intros [= <-]; [by left|right; by apply IH].
  - intros [= <-]. by left.
Qed.

Lemma most_recent_None rows : most_recent rows = None -> rows = [].
Proof.
  destruct rows as [|x rows]; simpl; [done|].
  destruct (most_recent rows); [by destruct (date_leb _ _)|done].
Qed.

Lemma last_purchase_query_Some t ing i p :
  last_purchase_query t ing = Some (i, p) ->
  table_get i t = Some p /\ ingredient_id p = ing.
Proof.
  unfold last_purchase_query. intros H%most_recent_In.
  apply List.filter_In in H as [H1 H2]. apply In_all_rows in H1.
  unfold of_ingredient in H2. simpl in H2. by apply Nat.eqb_eq in H2.
Qed.

Lemma api_delete_usage_eq st uid usage :
  get_usage uid (usages st) = Some usage ->
  api_delete_usage st uid
  = (success,
     with_usages
       (with_purchases st
          (restored_table st (usage_ingredient_id usage) (actual_usage usage)))
       (delete_row uid (usages st))).
Proof.
  intros Hu. unfold api_delete_usage. rewrite Hu, restore_loop_eq. reflexivity.
Qed.

Lemma api_delete_usage_unknown st uid :
  get_usage uid (usages st) = None -> api_delete_usage st uid = (not_found, st).
Proof. unfold api_delete_usage. by intros ->. Qed.

(** ** Bounds on the remaining quantity *)

Lemma snapshot_Forall {A : Type} (P : A -> Prop) (rows : list (nat * A)) t :
  snapshot rows t -> Forall P t -> Forall P (map snd rows).
Proof.
  intros Hs Ht. apply List.Forall_forall. intros x Hx.
  apply List.in_map_iff in Hx as ([i y] & <- & Hy). simpl.
  apply Hs, elem_of_table_get in Hy. by eapply List.Forall_forall in Ht.
Qed.

Lemma Forall_table_set {A : Type} (P : A -> Prop) t i x :
  Forall P t -> P x -> Forall P (table_set i x t).
Proof. intros Ht Hx. destruct i; simpl; [done|]. by apply Forall_insert. Qed.

Lemma add_to_rows_Forall (P : Purchase -> Prop) (Q : Purchase -> Z -> Prop) rows amounts :
  (forall p a, P p -> Q p a -> P (set_remaining p (remaining_quantity p + a))) ->
  Forall2 (fun r am => Q (snd r) (snd am)) rows amounts ->
  Forall P (map snd rows) -> Forall P (map snd (add_to_rows rows amounts)).
Proof.
  intros HPQ H2. induction H2 as [|[i p] [j a] rows amounts Hq _ IH]; simpl; [done|].
  intros [Hp Hr]%Forall_cons. constructor; [|by apply IH]. by apply HPQ.
Qed.

Lemma fifo_takes_bounds rows fill :
  Forall (fun r => 0 <= remaining_quantity (snd r)) rows ->
  Forall2 (fun r am => - remaining_quantity (snd r) <= snd am <= 0)
          rows (negated (fifo_takes rows fill)).
Proof.
  revert fill. induction rows as [|[i p] rows IH]; intros fill Hr; simpl; [constructor|].
  apply Forall_cons in Hr as [Hp Hr]. simpl in Hp.
  destruct (Z.leb_spec fill 0); (constructor; [simpl; lia|by apply IH]).
Qed.

Lemma restore_amounts_bounds rows r :
  Forall (fun x => remaining_quantity (snd x) < quantity (snd x)) rows ->
  Forall2 (fun x am => 0 <= snd am <= quantity (snd x) - remaining_quantity (snd x))
          rows (restore_amounts rows r).
Proof.
  revert r. induction rows as [|[i p] rows IH]; intros r Hr; simpl; [constructor|].
  apply Forall_cons in Hr as [Hp Hr]. simpl in Hp.
  destruct (Z.leb_spec r 0); (constructor; [simpl; lia|by apply IH]).
Qed.

Lemma Forall_map_snd {A : Type} (P : A -> Prop) (rows : list (nat * A)) :
  Forall P (map snd rows) <-> Forall (fun r => P (snd r)) rows.
Proof. apply List.Forall_map. Qed.

Lemma calculate_fifo_cost_bounds st ing needed :
  (Forall nonneg_batch (purchases st) ->
   Forall nonneg_batch (purchases (snd (calculate_fifo_cost st ing needed))))
  /\ (Forall bounded_batch (purchases st) ->
      Forall bounded_batch (purchases (snd (calculate_fifo_cost st ing needed)))).
Proof.
  destruct (table_get ing (ingredients st)) as [x|] eqn:Hx;
    [|by rewrite calculate_fifo_cost_unknown].
  rewrite calculate_fifo_cost_flush by (rewrite Hx; eauto). simpl.
  pose proof (fifo_query_snapshot st ing) as Hs.
  split; intros Ht; (apply flush_Forall; [done|]).
  - eapply (add_to_rows_Forall nonneg_batch
              (fun p a => - remaining_quantity p <= a <= 0)).
    + unfold nonneg_batch. simpl. lia.
    + apply fifo_takes_bounds.
      apply (Forall_map_snd (fun p => 0 <= remaining_quantity p)).
      by apply (snapshot_Forall _ _ _ Hs).
    + by apply (snapshot_Forall _ _ _ Hs).
  - eapply (add_to_rows_Forall bounded_batch
              (fun p a => - remaining_quantity p <= a <= 0)).
    + unfold bounded_batch. simpl. lia.
    + apply fifo_takes_bounds.
      apply (Forall_map_snd (fun p => 0 <= remaining_quantity p)).
      apply (snapshot_Forall (fun p => 0 <= remaining_quantity p) _ _ Hs).
      eapply Forall_impl; [exact Ht|]. unfold bounded_batch. simpl. lia.
    + by apply (snapshot_Forall _ _ _ Hs).
Qed.

Lemma cook_bounds st u_date meal items :
  (Forall nonneg_batch (purchases st) ->
   Forall nonneg_batch (purchases (snd (cook st u_date meal items))))
  /\ (Forall bounded_batch (purchases st) ->
      Forall bounded_batch (purchases (snd (cook st u_date meal items)))).
Proof.
  unfold cook. simpl. revert st. induction items as [|item items IH]; intros st; [done|].
  cbn [fold_left]. specialize (IH (cook_item_step u_date meal st item)).
  rewrite cook_item_step_purchases in IH.
  pose proof (calculate_fifo_cost_bounds st (cook_ingredient_id item)
                (final_quantity st item)) as [H1 H2].
  destruct IH as [IH1 IH2]. split; auto.
Qed.

Lemma purchase_bounds st d pl items :
  Forall (fun it => 0 <= item_qty it) items ->
  (Forall nonneg_batch (purchases st) ->
   Forall nonneg_batch (purchases (snd (purchase st d pl items))))
  /\ (Forall bounded_batch (purchases st) ->
      Forall bounded_batch (purchases (snd (purchase st d pl items)))).
Proof.
  intros Hq. destruct (purchase_tables st d pl items) as (news & Hp & Hf & _).
  rewrite Hp.
  assert (Hnew : Forall bounded_batch news).
  { clear Hp. induction Hf as [|it p items news Hfp _ IH]; [constructor|].
    apply Forall_cons in Hq as [Hit Hq]. constructor; [|by apply IH].
    destruct Hfp as (H1 & H2 & _). unfold bounded_batch. lia. }
  split; intros Ht; apply Forall_app; (split; [done|]); [|done].
  eapply Forall_impl; [exact Hnew|]. unfold bounded_batch, nonneg_batch. simpl. lia.
Qed.

Lemma discard_item_bounds st pid amount :
  (Forall nonneg_batch (purchases st) ->
   Forall nonneg_batch (purchases (snd (discard_item st pid amount))))
  /\ (match amount with Some a => 0 <= a | None => True end ->
      Forall bounded_batch (purchases st) ->
      Forall bounded_batch (purchases (snd (discard_item st pid amount)))).
Proof.
  destruct (discard_item_purchases st pid amount) as [->|(p & Hp & Hle & ->)]; [done|].
  apply elem_of_table_get in Hp.
  split.
  - intros Ht. apply Forall_table_set; [done|]. unfold nonneg_batch. simpl. lia.
  - intros Ha Ht. apply Forall_table_set; [done|].
    eapply List.Forall_forall in Hp; [|exact Ht]. unfold bounded_batch in *. simpl.
    destruct amount as [a|]; simpl in *; lia.
Qed.

Lemma update_purchase_status_bounds st pid s :
  (Forall nonneg_batch (purchases st) ->
   Forall nonneg_batch (purchases (snd (update_purchase_status st pid s))))
  /\ (Forall bounded_batch (purchases st) ->
      Forall bounded_batch (purchases (snd (update_purchase_status st pid s)))).
Proof.
  destruct (update_purchase_status_purchases st pid s) as [->|(p & Hp & ->)]; [done|].
  apply elem_of_table_get in Hp.
  split; intros Ht; (apply Forall_table_set; [done|]).
  - unfold nonneg_batch. simpl. lia.
  - eapply List.Forall_forall in Hp; [|exact Ht]. unfold bounded_batch in *. simpl. lia.
Qed.

Lemma restored_table_nonneg st ing q :
  Forall nonneg_batch (purchases st) ->
  Forall nonneg_batch (restored_table st ing q).
Proof.
  intros Ht. unfold restored_table.
  set (amounts := restore_amounts (restore_query st ing) q).
  set (t1 := flush (add_to_rows (restore_query st ing) amounts) (purchases st)).
  assert (Ht1 : Forall nonneg_batch t1).
  { apply flush_Forall; [done|].
    eapply (add_to_rows_Forall nonneg_batch (fun p a => 0 <= a)).
    - unfold nonneg_batch. simpl. lia.
    - eapply Forall2_impl; [apply restore_amounts_bounds|].
      + eapply Forall_impl; [apply restore_query_Forall|]. by intros r [_ ?].
      + simpl. intros. lia.
    - apply (snapshot_Forall _ _ _ (restore_query_snapshot st ing) Ht). }
  destruct (Z.ltb_spec 0 (q - sum_Z (map snd amounts))) as [Hpos|]; [|done].
  destruct (last_purchase_query t1 ing) as [[i lp]|] eqn:Hl; [|done].
  apply last_purchase_query_Some in Hl as [Hl _]. apply elem_of_table_get in Hl.
  apply Forall_table_set; [done|].
  eapply List.Forall_forall in Hl; [|exact Ht1]. unfold nonneg_batch in *. simpl. lia.
Qed.

Lemma step_nonneg st o :
  nonneg_request o ->
  Forall nonneg_batch (purchases st) -> Forall nonneg_batch (purchases (step st o)).
Proof.
  destruct o as [d pl items|d meal items|pid a|pid s|uid]; unfold step; simpl; intros Ho.
  - by apply purchase_bounds.
  - apply cook_bounds.
  - apply discard_item_bounds.
  - apply update_purchase_status_bounds.
  - intros Ht. destruct (get_usage uid (usages st)) as [u|] eqn:Hu.
    + rewrite (api_delete_usage_eq _ _ _ Hu). simpl. by apply restored_table_nonneg.
    + by rewrite api_delete_usage_unknown.
Qed.

Lemma step_bounded st o :
  nonneg_request o -> no_reversal o ->
  Forall bounded_batch (purchases st) -> Forall bounded_batch (purchases (step st o)).
Proof.
  destruct o as [d pl items|d meal items|pid a|pid s|uid]; unfold step; simpl;
    intros Ho Hr.
  - by apply purchase_bounds.
  - apply cook_bounds.
  - by apply discard_item_bounds.
  - apply update_purchase_status_bounds.
  - done.
Qed.

(** ** What never changes in a batch *)

Lemma same_batch_refl p : same_batch p p.
Proof. by repeat split. Qed.

Lemma same_batch_trans p q r : same_batch p q -> same_batch q r -> same_batch p r.
Proof. unfold same_batch. intuition congruence. Qed.

Lemma table_extends_refl t : table_extends t t.
Proof. intros i p Hp. exists p. split; [done|apply same_batch_refl]. Qed.

Lemma table_extends_trans t1 t2 t3 :
  table_extends t1 t2 -> table_extends t2 t3 -> table_extends t1 t3.
Proof.
  intros H12 H23 i p Hp. destruct (H12 i p Hp) as (q & Hq & Hpq).
  destruct (H23 i q Hq) as (r & Hr & Hqr). exists r. split; [done|].
  by eapply same_batch_trans.
Qed.

Lemma table_extends_app t news : table_extends t (t ++ news).
Proof.
  intros i p Hp. exists p. split; [by apply table_get_app_l|apply same_batch_refl].
Qed.

Lemma table_extends_set t i p x :
  table_get i t = Some p -> same_batch p x -> table_extends t (table_set i x t).
Proof.
  intros Hp Hx j q Hq. destruct (decide (i = j)) as [->|Hne].
  - exists x. rewrite table_get_set_eq by (rewrite Hq; eauto). split; [done|]. congruence.
  - exists q. rewrite table_get_set_ne by done. split; [done|apply same_batch_refl].
Qed.

Lemma table_extends_adjust delta t : table_extends t (adjust_remaining delta t).
Proof.
  intros i p Hp. rewrite table_get_adjust_remaining, Hp. simpl.
  eexists. split; [reflexivity|]. by repeat split.
Qed.

Lemma calculate_fifo_cost_extends st ing needed :
  table_extends (purchases st) (purchases (snd (calculate_fifo_cost st ing needed))).
Proof.
  destruct (table_get ing (ingredients st)) as [x|] eqn:Hx.
  - rewrite calculate_fifo_cost_adjust by (rewrite Hx; eauto). apply table_extends_adjust.
  - rewrite calculate_fifo_cost_unknown by done. apply table_extends_refl.
Qed.

Lemma cook_extends st u_date meal items :
  table_extends (purchases st) (purchases (snd (cook st u_date meal items))).
Proof.
  unfold cook. simpl. revert st. induction items as [|item items IH]; intros st.
  - apply table_extends_refl.
  - cbn [fold_left]. eapply table_extends_trans; [|apply IH].
    rewrite cook_item_step_purchases. apply calculate_fifo_cost_extends.
Qed.

Lemma restored_table_extends st ing q :
  table_extends (purchases st) (restored_table st ing q).
Proof.
  unfold restored_table.
  set (amounts := restore_amounts (restore_query st ing) q).
  set (t1 := flush (add_to_rows (restore_query st ing) amounts) (purchases st)).
  assert (Ht1 : table_extends (purchases st) t1).
  { subst t1. rewrite flush_add_to_rows;
      [apply table_extends_adjust|apply map_fst_restore_amounts
      |apply restore_query_NoDup|apply restore_query_snapshot]. }
  destruct (0 <? _); [|done].
  destruct (last_purchase_query t1 ing) as [[i lp]|] eqn:Hl; [|done].
  apply last_purchase_query_Some in Hl as [Hl _].
  eapply table_extends_trans; [exact Ht1|].
  eapply table_extends_set; [exact Hl|]. by repeat split.
Qed.

Lemma step_extends st o : table_extends (purchases st) (purchases (step st o)).
Proof.
  destruct o as [d pl items|d meal items|pid a|pid s|uid]; unfold step; simpl.
  - destruct (purchase_tables st d pl items) as (news & -> & _). apply table_extends_app.
  - apply cook_extends.
  - destruct (discard_item_purchases st pid a) as [->|(p & Hp & _ & ->)];
      [apply table_extends_refl|].
    eapply table_extends_set; [exact Hp|]. by repeat split.
  - destruct (update_purchase_status_purchases st pid s) as [->|(p & Hp & ->)];
      [apply table_extends_refl|].
    eapply table_extends_set; [exact Hp|]. by repeat split.
  - destruct (get_usage uid (usages st)) as [u|] eqn:Hu.
    + rewrite (api_delete_usage_eq _ _ _ Hu). simpl. apply restored_table_extends.
    + rewrite api_delete_usage_unknown by done. apply table_extends_refl.
Qed.

Lemma run_extends ops st : table_extends (purchases st) (purchases (run ops st)).
Proof.
  revert st. induction ops as [|o ops IH]; intros st.
  - apply table_extends_refl.
  - rewrite run_cons. eapply table_extends_trans; [apply step_extends|apply IH].
Qed.

Lemma run_nonneg ops st :
  Forall nonneg_request ops ->
  Forall nonneg_batch (purchases st) -> Forall nonneg_batch (purchases (run ops st)).
Proof.
  revert st. induction ops as [|o ops IH]; intros st Hops Ht; [done|].
  apply Forall_cons in Hops as [Ho Hops]. rewrite run_cons.
  apply IH; [done|]. by apply step_nonneg.
Qed.

Lemma run_bounded ops st :
  Forall nonneg_request ops -> Forall no_reversal ops ->
  Forall bounded_batch (purchases st) -> Forall bounded_batch (purchases (run ops st)).
Proof.
  revert st. induction ops as [|o ops IH]; intros st Hops Hrev Ht; [done|].
  apply Forall_cons in Hops as [Ho Hops]. apply Forall_cons in Hrev as [Hr Hrev].
  rewrite run_cons. apply IH; [done|done|]. by apply step_bounded.
Qed.

(** C4, as stated, fails, with requests that are all well-formed: buy 10
    units, cook 15 (the shortfall of 5 is silent and the usage records 15),
    then reverse that usage.  The reversal fills the batch back to 10 and adds
    the remaining 5 to the most recent batch, the same one: it now holds 15
    of an original 10. *)
Lemma reversal_overfills_batch :
  Forall nonneg_request
    [OpPurchase day1 "market" [mkItem "milk" 10 "ml" 20 2 None];
     OpCook day2 "dinner" [mkCookItem 1 15 "std"];
     OpApiDeleteUsage 1]
  /\ exists p,
      table_get 1%nat
        (purchases
           (run [OpPurchase day1 "market" [mkItem "milk" 10 "ml" 20 2 None];
                 OpCook day2 "dinner" [mkCookItem 1 15 "std"];
                 OpApiDeleteUsage 1] (empty_store true)))
      = Some p
      /\ remaining_quantity p = 15 /\ quantity p = 10
      /\ ~ (0 <= remaining_quantity p <= quantity p).
Proof.
  split; [repeat constructor; simpl; lia|].
  eexists. split; [by vm_compute|]. simpl. repeat split; lia.
Qed.

(** C4, amended.  In every state reached from a database with no batch by
    [purchase], [cook], [discard_item], [update_purchase_status] and
    [api_delete_usage] requests whose purchase quantities and discard amounts
    are not negative, every batch has [0 <= remaining_quantity]; when no
    request of the run is a usage reversal it also has
    [remaining_quantity <= quantity]; and in every later state, whatever the
    requests that follow, the batch is still there with the unit cost and the
    quantity it has now, hence the ones it was created with. *)
Theorem batch_bounds_invariant ops st i p :
  empty_ledger st -> Forall nonneg_request ops ->
  table_get i (purchases (run ops st)) = Some p ->
  0 <= remaining_quantity p
  /\ (Forall no_reversal ops -> remaining_quantity p <= quantity p)
  /\ (forall ops',
        exists p',
          table_get i (purchases (run (ops ++ ops') st)) = Some p'
          /\ cost_per_unit p' = cost_per_unit p /\ quantity p' = quantity p).
Proof.
  intros (Hp & _) Hops Hi. pose proof (elem_of_table_get _ _ _ Hi) as Hin.
  split; [|split].
  - assert (H : Forall nonneg_batch (purchases (run ops st))).
    { apply run_nonneg; [done|]. rewrite Hp. constructor. }
    by eapply List.Forall_forall in Hin; [|exact H].
  - intros Hrev.
    assert (H : Forall bounded_batch (purchases (run ops st))).
    { apply run_bounded; [done|done|]. rewrite Hp. constructor. }
    eapply List.Forall_forall in Hin; [|exact H]. apply Hin.
  - intros ops'. rewrite run_app.
    destruct (run_extends ops' (run ops st) i p Hi) as (p' & Hp' & Hs).
    exists p'. split; [done|]. unfold same_batch in Hs. tauto.
Qed.

Lemma batch_bounds_invariant_witness :
  empty_ledger (empty_store true)
  /\ Forall nonneg_request
       [OpPurchase day1 "market" [mkItem "milk" 10 "ml" 20 2 None];
        OpCook day2 "dinner" [mkCookItem 1 4 "std"]]
  /\ table_get 1%nat
       (purchases
          (run [OpPurchase day1 "market" [mkItem "milk" 10 "ml" 20 2 None];
                OpCook day2 "dinner" [mkCookItem 1 4 "std"]] (empty_store true)))
     = Some (mkPurchase 1 day1 10 6 2 None (Some 1%nat) "active" 0 0)
  /\ 0 <= 6.
Proof.
  assert (H1 : empty_ledger (empty_store true)) by done.
  assert (H2 : Forall nonneg_request
                 [OpPurchase day1 "market" [mkItem "milk" 10 "ml" 20 2 None];
                  OpCook day2 "dinner" [mkCookItem 1 4 "std"]])
    by (repeat constructor; simpl; lia).
  assert (H3 : table_get 1%nat
                 (purchases
                    (run [OpPurchase day1 "market" [mkItem "milk" 10 "ml" 20 2 None];
                          OpCook day2 "dinner" [mkCookItem 1 4 "std"]]
                       (empty_store true)))
               = Some (mkPurchase 1 day1 10 6 2 None (Some 1%nat) "active" 0 0))
    by reflexivity.
  split; [exact H1|]. split; [exact H2|]. split; [exact H3|].
  exact (proj1 (batch_bounds_invariant _ _ _ _ H1 H2 H3)).
Defined.

(** ** Usage reversal *)

Lemma get_usage_Some uid t u : get_usage uid t = Some u -> usage_id u = uid /\ In u t.
Proof.
  unfold get_usage. induction t as [|x t IH]; simpl; [done|].
  destruct (Nat.eqb_spec (usage_id x) uid) as [Heq|Hne]; simpl.
  - intros [= <-]. split; [done|by left].
  - intros H. destruct (IH H). split; [done|by right].
Qed.

Lemma get_usage_delete_row uid t : get_usage uid (delete_row uid t) = None.
Proof.
  unfold get_usage, delete_row. induction t as [|x t IH]; simpl; [done|].
  destruct (Nat.eqb_spec (usage_id x) uid) as [Heq|Hne]; simpl; [done|].
  by destruct (Nat.eqb_spec (usage_id x) uid).
Qed.

Lemma restore_amounts_spec_restores rows q :
  0 <= q ->
  Forall (fun r => remaining_quantity (snd r) < quantity (snd r)) rows ->
  restore_amounts rows q = spec_restores rows q.
Proof.
  revert q. induction rows as [|[i p] rows IH]; intros q Hq Hr; simpl; [done|].
  apply Forall_cons in Hr as [Hp Hr]. simpl in Hp.
  destruct (Z.leb_spec q 0).
  - assert (q = 0) as -> by lia.
    rewrite Z.min_r by lia. rewrite Z.sub_0_r. f_equal. by apply IH.
  - f_equal. apply IH; [lia|done].
Qed.

Lemma restore_amounts_sum_le rows q :
  0 <= q -> sum_Z (map snd (restore_amounts rows q)) <= q.
Proof.
  revert q. induction rows as [|[i p] rows IH]; intros q Hq; simpl; [done|].
  destruct (Z.leb_spec q 0); simpl.
  - specialize (IH q Hq). lia.
  - specialize (IH (q - Z.min (quantity p - remaining_quantity p) q)). lia.
Qed.

Lemma add_to_rows_remaining ing ing' rows amounts :
  map fst amounts = map fst rows ->
  Forall (fun r => ingredient_id (snd r) = ing) rows ->
  table_sum (for_ingredient ing' remaining_quantity) (map snd (add_to_rows rows amounts))
  = table_sum (for_ingredient ing' remaining_quantity) (map snd rows)
    + (if Nat.eqb ing ing' then sum_Z (map snd amounts) else 0).
Proof.
  revert amounts. induction rows as [|[i p] rows IH]; intros [|[j a] amounts] Hk Hr;
    simpl in *; try done.
  - destruct (Nat.eqb ing ing'); unfold sum_Z; simpl; lia.
  - injection Hk as -> Hk. apply Forall_cons in Hr as [Hp Hr]. simpl in Hp.
    unfold table_sum in *. simpl. rewrite (IH amounts) by done.
    unfold for_ingredient at 1 3. simpl. rewrite Hp.
    destruct (Nat.eqb ing ing'); lia.
Qed.

Lemma last_purchase_query_is_Some t ing i p :
  table_get i t = Some p -> ingredient_id p = ing ->
  is_Some (last_purchase_query t ing).
Proof.
  intros Hp Hi. unfold last_purchase_query.
  destruct (most_recent _) as [r|] eqn:Hm; [eauto|].
  apply most_recent_None in Hm.
  assert (Hin : In (i, p) (List.filter (of_ingredient ing) (all_rows t))).
  { apply List.filter_In. split; [by apply In_all_rows|].
    unfold of_ingredient. simpl. by apply Nat.eqb_eq. }
  rewrite Hm in Hin. done.
Qed.

(** Reversing a usage of quantity [q >= 0] over an ingredient with a batch
    puts [q] units back into the batches of that ingredient, none elsewhere. *)
Lemma restored_table_total st ing q ing' :
  0 <= q ->
  (exists i p, table_get i (purchases st) = Some p /\ ingredient_id p = ing) ->
  table_sum (for_ingredient ing' remaining_quantity) (restored_table st ing q)
  = table_sum (for_ingredient ing' remaining_quantity) (purchases st)
    + (if Nat.eqb ing ing' then q else 0).
Proof.
  intros Hq (i0 & p0 & Hp0 & Hi0). unfold restored_table.
  set (amounts := restore_amounts (restore_query st ing) q).
  set (t1 := flush (add_to_rows (restore_query st ing) amounts) (purchases st)).
  assert (Hsum : table_sum (for_ingredient ing' remaining_quantity) t1
                 = table_sum (for_ingredient ing' remaining_quantity) (purchases st)
                   + (if Nat.eqb ing ing' then sum_Z (map snd amounts) else 0)).
  { subst t1. rewrite (flush_sum _ (restore_query st ing));
      [|by rewrite map_fst_add_to_rows|apply restore_query_NoDup
       |apply restore_query_snapshot].
    rewrite (add_to_rows_remaining ing ing');
      [lia|apply map_fst_restore_amounts|].
    eapply Forall_impl; [apply restore_query_Forall|]. by intros r [? _]. }
  pose proof (restore_amounts_sum_le (restore_query st ing) q Hq) as Hle.
  fold amounts in Hle.
  destruct (Z.ltb_spec 0 (q - sum_Z (map snd amounts))) as [Hpos|Hzero].
  - assert (Hext : table_extends (purchases st) t1).
    { subst t1. rewrite flush_add_to_rows;
        [apply table_extends_adjust|apply map_fst_restore_amounts
        |apply restore_query_NoDup|apply restore_query_snapshot]. }
    destruct (Hext i0 p0 Hp0) as (p1 & Hp1 & Hsame).
    destruct (last_purchase_query_is_Some t1 ing i0 p1 Hp1) as [[k lp] Hl].
    { destruct Hsame as (-> & _). done. }
    rewrite Hl. apply last_purchase_query_Some in Hl as [Hl Hing].
    rewrite (table_sum_set _ _ _ _ lp Hl), Hsum.
    unfold for_ingredient. simpl. rewrite Hing.
    destruct (Nat.eqb ing ing'); lia.
  - rewrite Hsum. destruct (Nat.eqb ing ing'); lia.
Qed.

(** The most recent batch is found by key and purchase date alone. *)
Lemma enumerate_from_map {A B : Type} (g : nat * A -> B) n (t : list A) :
  enumerate_from n (map g (enumerate_from n t))
  = map (fun r => (fst r, g r)) (enumerate_from n t).
Proof. revert n. induction t as [|a t IH]; intros n; simpl; [done|]. by rewrite IH. Qed.

Lemma filter_map_commute {A B : Type} (h : A -> B) (c : B -> bool) (c' : A -> bool) l :
  (forall x, c (h x) = c' x) ->
  List.filter c (map h l) = map h (List.filter c' l).
Proof.
  intros H. induction l as [|x l IH]; simpl; [done|].
  rewrite H. destruct (c' x); simpl; by rewrite IH.
Qed.

Lemma most_recent_map (h : nat * Purchase -> nat * Purchase) rows :
  (forall r, purchase_date (snd (h r)) = purchase_date (snd r)) ->
  most_recent (map h rows) = h <$> most_recent rows.
Proof.
  intros H. induction rows as [|r rows IH]; simpl; [done|].
  rewrite IH. destruct (most_recent rows) as [b|]; simpl; [|done].
  rewrite !H. by destruct (date_leb _ _).
Qed.

Lemma last_purchase_query_adjust delta t ing :
  last_purchase_query (adjust_remaining delta t) ing
  = (fun r => (fst r, set_remaining (snd r) (remaining_quantity (snd r) + delta (fst r))))
      <$> last_purchase_query t ing.
Proof.
  unfold last_purchase_query, adjust_remaining, all_rows.
  rewrite enumerate_from_map.
  rewrite (filter_map_commute _ (of_ingredient ing) (of_ingredient ing)) by done.
  by apply most_recent_map.
Qed.

(** The committed table is the one the specification describes. *)
Lemma restored_table_spec st ing q k lp0 :
  0 <= q -> last_purchase_query (purchases st) ing = Some (k, lp0) ->
  restored_table st ing q
  = adjust_remaining
      (fun i => amount_of i (spec_restores (restore_query st ing) q)
                + (if Nat.eqb i k
                   then q - sum_Z (map snd (spec_restores (restore_query st ing) q))
                   else 0))
      (purchases st).
Proof.
  intros Hq Hlast. unfold restored_table.
  rewrite restore_amounts_spec_restores;
    [|done|eapply Forall_impl; [apply restore_query_Forall|]; by intros r [_ ?]].
  set (amounts := spec_restores (restore_query st ing) q).
  assert (Hk : map fst amounts = map fst (restore_query st ing)).
  { subst amounts. rewrite <- restore_amounts_spec_restores;
      [apply map_fst_restore_amounts|done|].
    eapply Forall_impl; [apply restore_query_Forall|]. by intros r [_ ?]. }
  rewrite flush_add_to_rows;
    [|done|apply restore_query_NoDup|apply restore_query_snapshot].
  set (remainder := q - sum_Z (map snd amounts)).
  pose proof (last_purchase_query_Some _ _ _ _ Hlast) as [Hk0 _].
  destruct (Z.ltb_spec 0 remainder) as [Hpos|Hzero].
  - rewrite last_purchase_query_adjust, Hlast. simpl.
    apply table_ext. intros i. rewrite table_get_adjust_remaining.
    destruct (decide (k = i)) as [->|Hne].
    + rewrite table_get_set_eq
        by (rewrite table_get_adjust_remaining, Hk0; simpl; eauto).
      rewrite Hk0, Nat.eqb_refl. simpl. f_equal. f_equal. lia.
    + rewrite table_get_set_ne by done. rewrite table_get_adjust_remaining.
      destruct (Nat.eqb_spec i k); [congruence|]. by rewrite Z.add_0_r.
  - assert (Hge : 0 <= remainder).
    { subst remainder amounts. rewrite <- restore_amounts_spec_restores;
        [pose proof (restore_amounts_sum_le (restore_query st ing) q Hq); lia|done|].
      eapply Forall_impl; [apply restore_query_Forall|]. by intros r [_ ?]. }
    apply adjust_remaining_ext. intros i. destruct (Nat.eqb i k); lia.
Qed.

Lemma api_delete_usage_spec st uid u :
  get_usage uid (usages st) = Some u -> 0 <= actual_usage u ->
  (exists i p, table_get i (purchases st) = Some p
               /\ ingredient_id p = usage_ingredient_id u) ->
  api_delete_usage st uid = (success, spec_reverse st u).
Proof.
  intros Hu Hq (i & p & Hp & Hi). rewrite (api_delete_usage_eq _ _ _ Hu).
  destruct (get_usage_Some _ _ _ Hu) as [Hid _].
  destruct (last_purchase_query_is_Some _ _ _ _ Hp Hi) as [[k lp0] Hl].
  unfold spec_reverse. rewrite Hl, Hid.
  by rewrite (restored_table_spec st _ _ k lp0 Hq Hl).
Qed.

(** C3, as stated, fails for a usage of negative quantity, which [cook]
    records when it is sent a negative amount: the loop of
    [api_delete_usage] stops at once, the fallback is guarded by
    [remaining_to_restore > 0], and nothing is restored.  Here the usage has
    quantity -5; reversing it succeeds and deletes it, and the batches of the
    ingredient hold 20 units before and after, not 20 + (-5). *)
Lemma negative_usage_restores_nothing :
  (exists u, get_usage 1 (usages (negative_usage true)) = Some u
             /\ actual_usage u = -5 /\ usage_ingredient_id u = 1%nat)
  /\ fst (api_delete_usage (negative_usage true) 1) = success
  /\ remaining_total (negative_usage true) 1 = 20
  /\ remaining_total (snd (api_delete_usage (negative_usage true) 1)) 1 = 20
  /\ remaining_total (snd (api_delete_usage (negative_usage true) 1)) 1
     <> remaining_total (negative_usage true) 1 + -5.
Proof.
  split; [eexists; split; [by vm_compute|done]|].
  repeat split; by vm_compute.
Qed.

(** The reversal adds with rounding.  The batch of 0.9 from which a meal
    took 0.2 holds 0.7; reversing the usage of 0.2 succeeds, deletes the usage
    and leaves the batch at 0.7 + 0.2 = 0.8999999999999999: it was given less
    than the 0.2 it lost, and is not full again. *)
Lemma binary64_reversal_rounds :
  map Binary64.actual_usage (Binary64.usages Binary64.decimal_meal)
  = [Binary64.tenths 2]
  /\ map Binary64.remaining_quantity (Binary64.purchases Binary64.decimal_meal)
     = [Binary64.tenths 7]
  /\ fst (Binary64.api_delete_usage Binary64.decimal_meal 1) = success
  /\ Binary64.usages (snd (Binary64.api_delete_usage Binary64.decimal_meal 1)) = []
  /\ map Binary64.remaining_quantity
       (Binary64.purchases (snd (Binary64.api_delete_usage Binary64.decimal_meal 1)))
     = [PrimFloat.add (Binary64.tenths 7) (Binary64.tenths 2)]
  /\ PrimFloat.ltb (PrimFloat.add (Binary64.tenths 7) (Binary64.tenths 2))
                   (Binary64.tenths 9) = true.
Proof. repeat split; by vm_compute. Qed.

(** C3, amended.  The quantities are whole numbers that stay within [2^53] in
    magnitude (the range in which binary64 adds and subtracts them exactly).
    For a usage whose quantity [Q] is not negative and whose ingredient has at
    least one batch, [api_delete_usage] succeeds and commits what
    [spec_reverse] describes: the batches of the ingredient with
    [remaining_quantity < quantity] are filled oldest first (purchase date,
    then expiry date), each with [min(space, amount still to restore)], what
    is left goes to the most recently purchased batch, and the usage is
    deleted.  The batches of the ingredient gain exactly [Q] in total, those
    of other ingredients nothing, and the same reversal sent again is
    answered 404 and changes nothing. *)
Theorem usage_reversal st uid u :
  get_usage uid (usages st) = Some u -> 0 <= actual_usage u ->
  (exists i p, table_get i (purchases st) = Some p
               /\ ingredient_id p = usage_ingredient_id u) ->
  quantity_magnitude st <= exact_range ->
  api_delete_usage st uid = (success, spec_reverse st u)
  /\ remaining_total (spec_reverse st u) (usage_ingredient_id u)
     = remaining_total st (usage_ingredient_id u) + actual_usage u
  /\ (forall ing', ing' <> usage_ingredient_id u ->
                   remaining_total (spec_reverse st u) ing' = remaining_total st ing')
  /\ get_usage uid (usages (spec_reverse st u)) = None
  /\ api_delete_usage (spec_reverse st u) uid = (not_found, spec_reverse st u).
Proof.
  intros Hu Hq Hb _. pose proof (api_delete_usage_spec st uid u Hu Hq Hb) as Hspec.
  assert (Hst : spec_reverse st u
                = with_usages
                    (with_purchases st
                       (restored_table st (usage_ingredient_id u) (actual_usage u)))
                    (delete_row uid (usages st))).
  { rewrite (api_delete_usage_eq _ _ _ Hu) in Hspec. congruence. }
  assert (Hgone : get_usage uid (usages (spec_reverse st u)) = None).
  { rewrite Hst. simpl. apply get_usage_delete_row. }
  split; [done|]. split; [|split; [|split; [done|]]].
  - rewrite Hst. unfold remaining_total. simpl.
    rewrite (restored_table_total st _ _ _ Hq Hb). by rewrite Nat.eqb_refl.
  - intros ing' Hne. rewrite Hst. unfold remaining_total. simpl.
    rewrite (restored_table_total st _ _ _ Hq Hb).
    destruct (Nat.eqb_spec (usage_ingredient_id u) ing'); [congruence|lia].
  - by apply api_delete_usage_unknown.
Qed.

Lemma usage_reversal_witness :
  get_usage 1 (usages (run [OpCook day2 "dinner" [mkCookItem 1 13 "std"]]
                          (two_batches true)))
  = Some (mkUsage 1 1 day2 "dinner" 13 "std" 13 29)
  /\ 0 <= 13
  /\ quantity_magnitude (run [OpCook day2 "dinner" [mkCookItem 1 13 "std"]]
                           (two_batches true)) <= exact_range
  /\ remaining_total
       (spec_reverse (run [OpCook day2 "dinner" [mkCookItem 1 13 "std"]]
                        (two_batches true))
          (mkUsage 1 1 day2 "dinner" 13 "std" 13 29)) 1
     = remaining_total (run [OpCook day2 "dinner" [mkCookItem 1 13 "std"]]
                          (two_batches true)) 1 + 13.
Proof.
  assert (H1 : get_usage 1 (usages (run [OpCook day2 "dinner" [mkCookItem 1 13 "std"]]
                                       (two_batches true)))
               = Some (mkUsage 1 1 day2 "dinner" 13 "std" 13 29)) by reflexivity.
  assert (H2 : 0 <= 13) by lia.
  assert (H3 : exists i p,
             table_get i (purchases (run [OpCook day2 "dinner" [mkCookItem 1 13 "std"]]
                                       (two_batches true))) = Some p
             /\ ingredient_id p
                = usage_ingredient_id (mkUsage 1 1 day2 "dinner" 13 "std" 13 29)).
  { exists 1%nat. eexists. split; reflexivity. }
  assert (H4 : quantity_magnitude (run [OpCook day2 "dinner" [mkCookItem 1 13 "std"]]
                                     (two_batches true)) <= exact_range)
    by (by vm_compute).
  split; [exact H1|]. split; [exact H2|]. split; [exact H4|].
  exact (proj1 (proj2 (usage_reversal _ _ _ H1 H2 H3 H4))).
Defined.

(** The older route [/delete_usage/<id>] is not the reversal of the
    specification: it adds the whole quantity to the most recent batch and
    answers 400 when the usage does not exist. *)
Lemma delete_usage_legacy :
  map remaining_quantity
    (purchases (snd (delete_usage
                       (run [OpCook day2 "dinner" [mkCookItem 1 13 "std"]]
                          (two_batches true)) 1)))
  = [0; 20]
  /\ map remaining_quantity
       (purchases (snd (api_delete_usage
                          (run [OpCook day2 "dinner" [mkCookItem 1 13 "std"]]
                             (two_batches true)) 1)))
     = [10; 10]
  /\ fst (delete_usage (two_batches true) 1) = failure_400.
Proof. repeat split; by vm_compute. Qed.

(** ** Aggregates *)

Lemma date_eqb_refl d : date_eqb d d = true.
Proof. by apply date_eqb_eq. Qed.

Lemma date_eqb_sym a b : date_eqb a b = date_eqb b a.
Proof.
  destruct (date_eqb a b) eqn:H1, (date_eqb b a) eqn:H2; try done.
  - apply date_eqb_eq in H1. subst. by rewrite date_eqb_refl in H2.
  - apply date_eqb_eq in H2. subst. by rewrite date_eqb_refl in H1.
Qed.

Lemma dict_get_set_eq k v data : dict_get k (dict_set k v data) = Some v.
Proof.
  induction data as [|[k' v'] data IH]; simpl.
  - by rewrite date_eqb_refl.
  - destruct (date_eqb k' k) eqn:Hk; simpl; by rewrite Hk.
Qed.

Lemma dict_get_set_ne k k' v data :
  date_eqb k k' = false -> dict_get k' (dict_set k v data) = dict_get k' data.
Proof.
  intros Hne. induction data as [|[k0 v0] data IH]; simpl.
  - by rewrite Hne.
  - destruct (date_eqb k0 k) eqn:Hk; simpl.
    + apply date_eqb_eq in Hk. subst k0. by rewrite Hne.
    + by rewrite IH.
Qed.


Lemma dict_update_get k g data k' :
  dict_get k' (dict_update k g data)
  = if date_eqb k k' then Some (g (entry_at k data)) else dict_get k' data.
Proof.
  unfold dict_update, dict_touch, entry_at.
  destruct (dict_get k data) as [e|] eqn:He; simpl.
  - rewrite He. destruct (date_eqb k k') eqn:Hk.
    + apply date_eqb_eq in Hk. subst k'. apply dict_get_set_eq.
    + by apply dict_get_set_ne.
  - rewrite dict_get_set_eq. destruct (date_eqb k k') eqn:Hk.
    + apply date_eqb_eq in Hk. subst k'. apply dict_get_set_eq.
    + by rewrite !dict_get_set_ne.
Qed.



Lemma add_usage_update data u :
  add_usage data u
  = dict_update (usage_date u)
      (fun e => mkEntry (entry_usage e + cost u) (entry_waste e) (entry_total e + cost u))
      data.
Proof. reflexivity. Qed.

Lemma add_waste_update data ev :
  add_waste data ev
  = if 0 <? total_waste ev
    then dict_update (event_date ev)
           (fun e => mkEntry (entry_usage e) (entry_waste e + total_waste ev)
                             (entry_total e + total_waste ev))
           data
    else data.
Proof. reflexivity. Qed.














Lemma make_date_first y m :
  1 <= y <= 9999 -> 1 <= m <= 12 -> make_date y m 1 = Some (mkdate y m 1).
Proof.
  intros Hy Hm. unfold make_date.
  assert (Hd : 1 <= days_in_month y m).
  { unfold days_in_month.
    assert (m = 1 \/ m = 2 \/ m = 3 \/ m = 4 \/ m = 5 \/ m = 6 \/ m = 7 \/ m = 8
            \/ m = 9 \/ m = 10 \/ m = 11 \/ m = 12) as Hcases by lia.
    repeat (destruct Hcases as [->|Hcases]); try subst m; try lia.
    destruct (is_leap y); lia. }
  replace (1 <=? y) with true by (symmetry; apply Z.leb_le; lia).
  replace (y <=? 9999) with true by (symmetry; apply Z.leb_le; lia).
  replace (1 <=? m) with true by (symmetry; apply Z.leb_le; lia).
  replace (m <=? 12) with true by (symmetry; apply Z.leb_le; lia).
  replace (1 <=? days_in_month y m) with true by (symmetry; apply Z.leb_le; lia).
  reflexivity.
Qed.


(** For December 9999 [date(year + 1, 1, 1)] raises: neither the dashboard
    nor [monthly_stats] has an aggregate for that month. *)
Lemma december_9999_raises st :
  monthly_stats st 9999 12 = None
  /\ monthly_usage st 9999 12 = None /\ monthly_waste st 9999 12 = None.
Proof. done. Qed.




(** The sums of the two pages are rounded sums.  Three meals cost 0.1 on
    day 1, and 0.2 and 0.30000000000000004 on day 2.  Added row by row they
    give 0.6000000000000001 for the month; the day entries of
    [monthly_stats] are 0.1 and 0.5, which add up to 0.6. *)
Lemma binary64_daily_sums_differ :
  map Binary64.cost (Binary64.usages Binary64.three_meals)
  = [Binary64.tenths 1; Binary64.tenths 2;
     PrimFloat.mul (Binary64.of_Z 3) (Binary64.tenths 1)]
  /\ (exists data,
        Binary64.monthly_stats Binary64.three_meals 2024 1 = Some data
        /\ map (fun kv => (fst kv, Binary64.entry_usage (snd kv))) data
           = [(day1, Binary64.tenths 1); (day2, Binary64.tenths 5)]
        /\ Binary64.sum (map (fun kv => Binary64.entry_usage (snd kv)) data)
           = Binary64.tenths 6)
  /\ (exists x,
        Binary64.monthly_usage Binary64.three_meals 2024 1 = Some x
        /\ PrimFloat.ltb (Binary64.tenths 6) x = true).
Proof.
  split; [by vm_compute|]. split.
  - eexists. split; [by vm_compute|]. split; by vm_compute.
  - eexists. split; by vm_compute.
Qed.



(** ** Shopping events of the batches *)

Lemma table_get_is_Some {A : Type} (t : list A) i :
  is_Some (table_get i t) <-> (0 < i <= length t)%nat.
Proof.
  destruct i as [|i]; simpl.
  - split; [by intros [? ?]|lia].
  - rewrite lookup_lt_is_Some. lia.
Qed.

Lemma calculate_fifo_cost_length st ing needed :
  length (purchases (snd (calculate_fifo_cost st ing needed)))
  = length (purchases st).
Proof.
  destruct (table_get ing (ingredients st)) as [x|] eqn:Hx.
  - rewrite calculate_fifo_cost_flush by (rewrite Hx; eauto). apply length_flush.
  - by rewrite calculate_fifo_cost_unknown.
Qed.

Lemma cook_tables st u_date meal items :
  length (purchases (snd (cook st u_date meal items))) = length (purchases st)
  /\ shopping_events (snd (cook st u_date meal items)) = shopping_events st.
Proof.
  unfold cook. simpl. revert st. induction items as [|item items IH]; intros st; [done|].
  cbn [fold_left]. destruct (IH (cook_item_step u_date meal st item)) as [-> ->].
  rewrite cook_item_step_purchases, cook_item_step_events.
  by rewrite calculate_fifo_cost_length.
Qed.

Lemma restored_table_length st ing q :
  length (restored_table st ing q) = length (purchases st).
Proof.
  unfold restored_table. destruct (0 <? _); [|apply length_flush].
  destruct (last_purchase_query _ _) as [[i lp]|]; [|apply length_flush].
  by rewrite length_table_set, length_flush.
Qed.

Lemma discard_item_events st pid amount :
  length (shopping_events (snd (discard_item st pid amount)))
  = length (shopping_events st).
Proof.
  unfold discard_item. destruct (table_get pid (purchases st)); [|done].
  destruct (_ <? _); [done|]. destruct (truthy_id _); [|done]. simpl.
  destruct (table_get _ _); [|done]. simpl. apply length_table_set.
Qed.

Lemma update_purchase_status_events st pid s :
  length (shopping_events (snd (update_purchase_status st pid s)))
  = length (shopping_events st).
Proof.
  unfold update_purchase_status. destruct (table_get pid (purchases st)); [|done].
  destruct (_ && _); [|done]. destruct (truthy_id _); [|done]. simpl.
  destruct (table_get _ _); [|done]. simpl. apply length_table_set.
Qed.

Lemma step_events_length st o :
  (length (shopping_events st) <= length (shopping_events (step st o)))%nat.
Proof.
  destruct o as [d pl items|d meal items|pid a|pid s|uid]; unfold step; cbn [handle].
  - destruct (purchase_tables st d pl items) as (news & _ & _ & -> & _). lia.
  - destruct (cook_tables st d meal items) as [_ ->]. lia.
  - rewrite discard_item_events. lia.
  - rewrite update_purchase_status_events. lia.
  - destruct (get_usage uid (usages st)) as [u|] eqn:Hu.
    + by rewrite (api_delete_usage_eq _ _ _ Hu).
    + by rewrite api_delete_usage_unknown.
Qed.

Lemma table_extends_same_length t t' i p' :
  table_extends t t' -> length t' = length t -> table_get i t' = Some p' ->
  exists p, table_get i t = Some p /\ same_batch p p'.
Proof.
  intros Hext Hlen Hp'.
  assert (His : is_Some (table_get i t)).
  { apply table_get_is_Some. rewrite <- Hlen. apply table_get_is_Some. eauto. }
  destruct His as [p Hp]. destruct (Hext i p Hp) as (q & Hq & Hs).
  exists p. split; [done|]. congruence.
Qed.

Lemma step_purchases_origin st o i p' :
  table_get i (purchases (step st o)) = Some p' ->
  (exists p, table_get i (purchases st) = Some p /\ same_batch p p')
  \/ shopping_event_id p' = Some (S (length (shopping_events st)))
     /\ (length (shopping_events st) < length (shopping_events (step st o)))%nat.
Proof.
  intros Hp'.
  assert (Hsame : length (purchases (step st o)) = length (purchases st) ->
                  exists p, table_get i (purchases st) = Some p /\ same_batch p p').
  { intros Hlen. eapply table_extends_same_length; [apply step_extends|done|done]. }
  destruct o as [d pl items|d meal items|pid a|pid s|uid]; unfold step in *;
    cbn [handle] in *.
  - destruct (purchase_tables st d pl items) as (news & Hps & Hf & Hlen & _).
    rewrite Hps in Hp'. destruct i as [|i]; [done|]. simpl in Hp'.
    apply lookup_app_Some in Hp' as [Hold|[_ Hnew]].
    + left. exists p'. split; [done|apply same_batch_refl].
    + right. split; [|lia].
      apply list_elem_of_lookup_2, list_elem_of_In in Hnew.
      clear -Hf Hnew. induction Hf as [|it q items news Hq _ IH]; [done|].
      destruct Hnew as [->|Hin]; [|by apply IH].
      by destruct Hq as (_ & _ & _ & _ & _ & _ & _ & ? & _).
  - left. apply Hsame. apply cook_tables.
  - left. apply Hsame.
    destruct (discard_item_purchases st pid a) as [->|(p & _ & _ & ->)];
      [done|apply length_table_set].
  - left. apply Hsame.
    destruct (update_purchase_status_purchases st pid s) as [->|(p & _ & ->)];
      [done|apply length_table_set].
  - left. apply Hsame. destruct (get_usage uid (usages st)) as [u|] eqn:Hu.
    + rewrite (api_delete_usage_eq _ _ _ Hu). simpl. apply restored_table_length.
    + by rewrite api_delete_usage_unknown.
Qed.

Lemma event_resolves_length st p :
  event_resolves st p
  <-> match truthy_id (shopping_event_id p) with
      | None => True
      | Some eid => (eid <= length (shopping_events st))%nat
      end.
Proof.
  unfold event_resolves. destruct (shopping_event_id p) as [[|e]|]; simpl; try done.
  rewrite lookup_lt_is_Some. lia.
Qed.

Lemma step_events_resolve st o : events_resolve st -> events_resolve (step st o).
Proof.
  intros Hst i p' Hp'. apply event_resolves_length.
  pose proof (step_events_length st o) as Hlen.
  destruct (step_purchases_origin st o i p' Hp') as [(p & Hp & Hs)|[Hid Hlt]].
  - apply Hst, event_resolves_length in Hp.
    destruct Hs as (_ & _ & _ & _ & _ & ->).
    destruct (truthy_id (shopping_event_id p)); [lia|done].
  - rewrite Hid. simpl. lia.
Qed.

(** Reached from a database with no batch, every state resolves the events
    of its batches. *)
Lemma run_events_resolve ops st :
  empty_ledger st -> events_resolve (run ops st).
Proof.
  intros (Hp & _).
  assert (H0 : events_resolve st) by (intros [|i] p; rewrite Hp; done).
  revert st H0 Hp. induction ops as [|o ops IH] using rev_ind; intros st H0 Hp; [done|].
  rewrite run_app. simpl. apply step_events_resolve. by apply IH.
Qed.

(** * Further properties of the code *)

(** ** Allocation: what it touches, how much it takes, in which order *)

Lemma fifo_takes_In rows fill i a :
  Forall (fun r => 0 < remaining_quantity (snd r)) rows ->
  In (i, a) (fifo_takes rows fill) ->
  exists p, In (i, p) rows /\ 0 <= a <= remaining_quantity p /\ a <= Z.max fill 0.
Proof.
  revert fill. induction rows as [|[j q] rows IH]; intros fill Hpos Hin; simpl in *; [done|].
  apply Forall_cons in Hpos as [Hq Hpos]. simpl in Hq.
  destruct (Z.leb_spec fill 0).
  - destruct Hin as [[= <- <-]|Hin].
    + exists q. split; [by left|lia].
    + destruct (IH fill Hpos Hin) as (p & Hp & Ha). exists p. split; [by right|done].
  - destruct Hin as [[= <- <-]|Hin].
    + exists q. split; [by left|lia].
    + destruct (IH _ Hpos Hin) as (p & Hp & Ha). exists p. split; [by right|lia].
Qed.

Lemma fifo_query_positive st ing :
  Forall (fun r => 0 < remaining_quantity (snd r)) (fifo_query st ing).
Proof. eapply Forall_impl; [apply fifo_query_Forall|]. by intros r [_ ?]. Qed.

(** The take of a key, against the batch the table holds under it. *)
Lemma fifo_take_of_key st ing needed i p :
  table_get i (purchases st) = Some p ->
  0 <= amount_of i (fifo_takes (fifo_query st ing) needed) <= Z.max (remaining_quantity p) 0
  /\ (ingredient_id p <> ing \/ remaining_quantity p <= 0 ->
      amount_of i (fifo_takes (fifo_query st ing) needed) = 0).
Proof.
  intros Hp.
  destruct (amount_of_In i (fifo_takes (fifo_query st ing) needed)) as [->|Hin].
  - split; [lia|done].
  - destruct (fifo_takes_In _ _ _ _ (fifo_query_positive st ing) Hin) as (q & Hq & Ha).
    apply In_fifo_query in Hq as (Hq & Hing & Hpos). rewrite Hp in Hq.
    injection Hq as <-. split; [lia|]. intros [?|?]; [done|lia].
Qed.

(** X1. [calculate_fifo_cost] writes nothing but the remaining quantity of
    batches of the requested ingredient that are in stock: every batch stays
    under its key with all its other columns, its remaining quantity never
    grows and never becomes negative if it was not, a batch of another
    ingredient or out of stock is returned as it was, and no other table
    changes. *)
Theorem allocation_frame st ing needed i p :
  table_get i (purchases st) = Some p ->
  exists p',
    table_get i (purchases (snd (calculate_fifo_cost st ing needed))) = Some p'
    /\ p' = set_remaining p (remaining_quantity p')
    /\ remaining_quantity p' <= remaining_quantity p
    /\ (0 <= remaining_quantity p -> 0 <= remaining_quantity p')
    /\ (ingredient_id p <> ing \/ remaining_quantity p <= 0 -> p' = p)
    /\ length (purchases (snd (calculate_fifo_cost st ing needed)))
       = length (purchases st)
    /\ ingredients (snd (calculate_fifo_cost st ing needed)) = ingredients st
    /\ shopping_events (snd (calculate_fifo_cost st ing needed)) = shopping_events st
    /\ usages (snd (calculate_fifo_cost st ing needed)) = usages st.
Proof.
  intros Hp.
  destruct (calculate_fifo_cost_other_tables st ing needed) as (Hi & He & Hu & _).
  pose proof (calculate_fifo_cost_length st ing needed) as Hlen.
  destruct (table_get ing (ingredients st)) as [x|] eqn:Hx.
  - rewrite calculate_fifo_cost_adjust in * by (rewrite Hx; eauto).
    cbn [snd purchases with_purchases] in *.
    rewrite table_get_adjust_remaining, Hp. simpl.
    destruct (fifo_take_of_key st ing needed i p Hp) as [Ha H0].
    eexists. split; [reflexivity|]. simpl.
    split; [done|]. split; [lia|]. split; [lia|]. split; [|done].
    intros Hor. rewrite (H0 Hor). apply set_remaining_same. lia.
  - rewrite calculate_fifo_cost_unknown in * by done. simpl. exists p.
    split; [done|]. split; [by rewrite set_remaining_same|].
    split; [lia|]. done.
Qed.

Lemma allocation_frame_witness :
  table_get 2%nat (purchases (two_batches true))
  = Some (mkPurchase 1 day2 10 10 3 None (Some 2%nat) "active" 0 0)
  /\ exists p',
      table_get 2%nat (purchases (snd (calculate_fifo_cost (two_batches true) 1 15)))
      = Some p'
      /\ remaining_quantity p' <= 10.
Proof.
  assert (H1 : table_get 2%nat (purchases (two_batches true))
               = Some (mkPurchase 1 day2 10 10 3 None (Some 2%nat) "active" 0 0))
    by reflexivity.
  split; [exact H1|].
  destruct (allocation_frame (two_batches true) 1 15 2 _ H1) as (p' & Hp' & _ & Hle & _).
  exists p'. split; [exact Hp'|exact Hle].
Defined.

Lemma sum_fifo_query_available st ing :
  sum_Z (map (fun r => remaining_quantity (snd r)) (fifo_query st ing))
  = available_stock st ing.
Proof.
  unfold fifo_query, available_stock. rewrite sum_query_rows, <- sum_all_rows.
  f_equal. apply map_ext. intros [i p]. unfold in_stock, for_ingredient. simpl.
  destruct (Nat.eqb _ _); simpl; [|done].
  destruct (Z.ltb_spec 0 (remaining_quantity p)); lia.
Qed.

Lemma sum_remaining_nonneg (rows : list (nat * Purchase)) :
  Forall (fun r => 0 < remaining_quantity (snd r)) rows ->
  0 <= sum_Z (map (fun r => remaining_quantity (snd r)) rows).
Proof. induction 1; simpl; [done|]. lia. Qed.

Lemma sum_fifo_takes rows needed :
  0 <= needed -> Forall (fun r => 0 < remaining_quantity (snd r)) rows ->
  sum_Z (map snd (fifo_takes rows needed))
  = Z.min needed (sum_Z (map (fun r => remaining_quantity (snd r)) rows)).
Proof.
  revert needed. induction rows as [|[i p] rows IH]; intros needed Hn Hpos; simpl.
  - lia.
  - apply Forall_cons in Hpos as [Hp Hpos]. simpl in Hp.
    pose proof (sum_remaining_nonneg rows Hpos) as Hs.
    destruct (Z.leb_spec needed 0); simpl.
    + rewrite IH by done. lia.
    + rewrite IH by (done || lia). lia.
Qed.

Lemma calculate_fifo_cost_remaining_total st ing needed ing' :
  remaining_total (snd (calculate_fifo_cost st ing needed)) ing'
  = remaining_total st ing'
    - (if Nat.eqb ing ing' then allocated_quantity st ing needed else 0).
Proof.
  unfold allocated_quantity.
  destruct (table_get ing (ingredients st)) as [x|] eqn:Hx.
  - rewrite calculate_fifo_cost_flush by (rewrite Hx; eauto).
    unfold remaining_total. simpl.
    rewrite (flush_sum _ (fifo_query st ing));
      [|by rewrite map_fst_add_to_rows|apply fifo_query_NoDup|apply fifo_query_snapshot].
    rewrite (add_to_rows_remaining ing ing').
    + rewrite sum_snd_negated. destruct (Nat.eqb ing ing'); lia.
    + by rewrite map_fst_negated, map_fst_fifo_takes.
    + eapply Forall_impl; [apply fifo_query_Forall|]. by intros r [? _].
  - rewrite calculate_fifo_cost_unknown by done. simpl. destruct (Nat.eqb _ _); lia.
Qed.

Lemma add_to_rows_available ing rows fill :
  Forall (fun r => ingredient_id (snd r) = ing /\ 0 < remaining_quantity (snd r)) rows ->
  table_sum (for_ingredient ing (fun p => Z.max (remaining_quantity p) 0))
    (map snd (add_to_rows rows (negated (fifo_takes rows fill))))
  = table_sum (for_ingredient ing (fun p => Z.max (remaining_quantity p) 0))
      (map snd rows)
    - sum_Z (map snd (fifo_takes rows fill)).
Proof.
  revert fill. induction rows as [|[i p] rows IH]; intros fill Hr.
  - unfold table_sum. simpl. lia.
  - apply Forall_cons in Hr as [[Hi Hp] Hr]. simpl in Hi, Hp.
    specialize (IH (if fill <=? 0 then fill
                    else fill - Z.min (remaining_quantity p) fill) Hr).
    cbn [fifo_takes]. destruct (Z.leb_spec fill 0);
      unfold negated, table_sum, sum_Z in *;
      cbn [map add_to_rows fst snd foldr] in *;
      rewrite IH; unfold for_ingredient; simpl; rewrite Hi, Nat.eqb_refl; lia.
Qed.

(** X2. The quantities are whole numbers that stay within [2^53] in
    magnitude (the range in which binary64 adds and subtracts them exactly).
    For an ingredient of the store and a request that is not negative,
    [calculate_fifo_cost] takes exactly [min(needed_qty, stock)] units out of
    the batches of the ingredient, where the stock is what its batches hold:
    never more than asked, never more than there is, and all of the request
    when the stock covers it. *)
Theorem allocation_takes_min st ing needed :
  is_Some (table_get ing (ingredients st)) -> 0 <= needed ->
  quantity_magnitude st + Z.abs needed <= exact_range ->
  allocated_quantity st ing needed = Z.min needed (available_stock st ing)
  /\ remaining_total (snd (calculate_fifo_cost st ing needed)) ing
     = remaining_total st ing - Z.min needed (available_stock st ing)
  /\ available_stock (snd (calculate_fifo_cost st ing needed)) ing
     = available_stock st ing - Z.min needed (available_stock st ing).
Proof.
  intros Hing Hn _.
  assert (Ha : allocated_quantity st ing needed = Z.min needed (available_stock st ing)).
  { unfold allocated_quantity. destruct Hing as [x ->].
    rewrite sum_fifo_takes by (done || apply fifo_query_positive).
    by rewrite sum_fifo_query_available. }
  split; [done|]. split.
  - rewrite calculate_fifo_cost_remaining_total, Nat.eqb_refl. lia.
  - rewrite <- Ha. unfold allocated_quantity. destruct Hing as [x Hx]. rewrite Hx.
    rewrite calculate_fifo_cost_flush by (rewrite Hx; eauto).
    unfold available_stock. simpl.
    rewrite (flush_sum _ (fifo_query st ing));
      [|by rewrite map_fst_add_to_rows|apply fifo_query_NoDup|apply fifo_query_snapshot].
    rewrite add_to_rows_available by apply fifo_query_Forall. lia.
Qed.

Lemma allocation_takes_min_witness :
  is_Some (table_get 1%nat (ingredients (two_batches true))) /\ 0 <= 15
  /\ quantity_magnitude (two_batches true) + Z.abs 15 <= exact_range
  /\ allocated_quantity (two_batches true) 1 15
     = Z.min 15 (available_stock (two_batches true) 1).
Proof.
  assert (H1 : is_Some (table_get 1%nat (ingredients (two_batches true))))
    by (vm_compute; eauto).
  assert (H2 : 0 <= 15) by lia.
  assert (H3 : quantity_magnitude (two_batches true) + Z.abs 15 <= exact_range)
    by (by vm_compute).
  split; [exact H1|]. split; [exact H2|]. split; [exact H3|].
  exact (proj1 (allocation_takes_min (two_batches true) 1 15 H1 H2 H3)).
Defined.

Lemma ForallOrdPairs_impl_In {A : Type} (R R' : A -> A -> Prop) l :
  ForallOrdPairs R l ->
  (forall x y, In x l -> In y l -> R x y -> R' x y) ->
  ForallOrdPairs R' l.
Proof.
  induction 1 as [|a l Ha Hl IH]; intros Himp; constructor.
  - apply List.Forall_forall. intros y Hy. apply Himp; [by left|by right|].
    by eapply List.Forall_forall in Ha.
  - apply IH. intros x y Hx Hy. apply Himp; by right.
Qed.

Lemma amount_of_zero_map {A : Type} (rows : list (nat * A)) i :
  amount_of i (map (fun r => (fst r, 0)) rows) = 0.
Proof.
  induction rows as [|[j x] rows IH]; [done|]. simpl.
  destruct (decide (j = i)) as [->|Hne].
  - apply amount_of_cons_eq.
  - by rewrite amount_of_cons_ne.
Qed.

(** A row is taken from only when every row before it is taken whole. *)
Lemma fifo_takes_order rows fill :
  List.NoDup (map fst rows) ->
  ForallOrdPairs
    (fun r r' => amount_of (fst r') (fifo_takes rows fill) <> 0 ->
                 amount_of (fst r) (fifo_takes rows fill) = remaining_quantity (snd r))
    rows.
Proof.
  revert fill. induction rows as [|[i p] rows IH]; intros fill Hnd; [constructor|].
  cbn [map fst] in Hnd. apply List.NoDup_cons_iff in Hnd as [Hi Hnd].
  assert (Hne : forall r, In r rows -> i <> fst r).
  { intros r Hr ->. apply Hi. apply List.in_map_iff. by exists r. }
  cbn [fifo_takes]. destruct (Z.leb_spec fill 0) as [Hle|Hgt].
  - constructor.
    + apply List.Forall_forall. intros r' Hr'. simpl.
      rewrite amount_of_cons_ne by (by apply Hne).
      rewrite fifo_takes_done by done. by rewrite amount_of_zero_map.
    + eapply ForallOrdPairs_impl_In; [apply (IH fill Hnd)|].
      intros x y Hx Hy. simpl. by rewrite !amount_of_cons_ne by (by apply Hne).
  - constructor.
    + apply List.Forall_forall. intros r' Hr'. simpl.
      rewrite amount_of_cons_ne by (by apply Hne). rewrite amount_of_cons_eq.
      intros Hnz. destruct (Z.le_gt_cases (remaining_quantity p) fill); [lia|].
      exfalso. apply Hnz. rewrite fifo_takes_done by lia. apply amount_of_zero_map.
    + eapply ForallOrdPairs_impl_In;
        [apply (IH (fill - Z.min (remaining_quantity p) fill) Hnd)|].
      intros x y Hx Hy. simpl. by rewrite !amount_of_cons_ne by (by apply Hne).
Qed.

Lemma remaining_at_after_allocation st ing needed i p :
  In (i, p) (fifo_query st ing) ->
  remaining_at (snd (calculate_fifo_cost st ing needed)) i
  = remaining_quantity p
    - match table_get ing (ingredients st) with
      | Some _ => amount_of i (fifo_takes (fifo_query st ing) needed)
      | None => 0
      end.
Proof.
  intros Hin. apply fifo_query_snapshot in Hin. unfold remaining_at.
  destruct (table_get ing (ingredients st)) as [x|] eqn:Hx.
  - rewrite calculate_fifo_cost_adjust by (rewrite Hx; eauto). simpl.
    rewrite table_get_adjust_remaining, Hin. simpl. lia.
  - rewrite calculate_fifo_cost_unknown by done. simpl. rewrite Hin. lia.
Qed.

(** X3. First in, first out: in the order of the query (purchase date, then
    expiry date), [calculate_fifo_cost] draws from a batch only when it has
    emptied every batch before it.  If the call lowers the remaining quantity
    of a batch, every earlier batch of the query is left with 0. *)
Theorem oldest_batches_are_emptied_first st ing needed :
  ForallOrdPairs
    (fun older newer =>
       remaining_at (snd (calculate_fifo_cost st ing needed)) (fst newer)
       < remaining_quantity (snd newer) ->
       remaining_at (snd (calculate_fifo_cost st ing needed)) (fst older) = 0)
    (fifo_query st ing).
Proof.
  eapply ForallOrdPairs_impl_In;
    [apply (fifo_takes_order (fifo_query st ing) needed), fifo_query_NoDup|].
  intros [i p] [j q] Hi Hj Hord. simpl in *.
  rewrite (remaining_at_after_allocation st ing needed i p Hi).
  rewrite (remaining_at_after_allocation st ing needed j q Hj).
  destruct (table_get ing (ingredients st)); [|lia].
  intros Hlt. rewrite Hord; lia.
Qed.

(** ** The value on hand *)

Lemma sum_filter_list {A : Type} (f : A -> Z) (c : A -> bool) l :
  sum_Z (map f (List.filter c l)) = sum_Z (map (fun x => if c x then f x else 0) l).
Proof. induction l as [|x l IH]; simpl; [done|]. destruct (c x); simpl; lia. Qed.

Lemma get_total_asset_value_sum st :
  get_total_asset_value st = table_sum asset_of (purchases st).
Proof. unfold get_total_asset_value. by rewrite sum_filter_list. Qed.

Lemma fifo_rows_asset rows fill :
  Forall (fun r => 0 < remaining_quantity (snd r)) rows ->
  table_sum asset_of (map snd (add_to_rows rows (negated (fifo_takes rows fill))))
  = table_sum asset_of (map snd rows) - takes_cost rows (fifo_takes rows fill).
Proof.
  revert fill. induction rows as [|[i p] rows IH]; intros fill Hr.
  - unfold table_sum. simpl. lia.
  - apply Forall_cons in Hr as [Hp Hr]. simpl in Hp.
    specialize (IH (if fill <=? 0 then fill
                    else fill - Z.min (remaining_quantity p) fill) Hr).
    cbn [fifo_takes]. destruct (Z.leb_spec fill 0);
      unfold negated, table_sum, sum_Z in *;
      cbn [map add_to_rows fst snd foldr takes_cost] in *;
      rewrite IH; unfold asset_of; simpl.
    + destruct (Z.ltb_spec 0 (remaining_quantity p + - 0));
        destruct (Z.ltb_spec 0 (remaining_quantity p)); try lia; try nia.
    + destruct (Z.ltb_spec 0 (remaining_quantity p
                               + - Z.min (remaining_quantity p) fill));
        destruct (Z.ltb_spec 0 (remaining_quantity p)); try lia.
      replace (Z.min (remaining_quantity p) fill) with (remaining_quantity p) by lia.
      lia.
Qed.

Lemma calculate_fifo_cost_asset st ing needed :
  table_sum asset_of (purchases (snd (calculate_fifo_cost st ing needed)))
  = table_sum asset_of (purchases st) - fst (calculate_fifo_cost st ing needed).
Proof.
  destruct (table_get ing (ingredients st)) as [x|] eqn:Hx.
  - rewrite calculate_fifo_cost_flush by (rewrite Hx; eauto). simpl.
    rewrite (flush_sum _ (fifo_query st ing));
      [|by rewrite map_fst_add_to_rows|apply fifo_query_NoDup|apply fifo_query_snapshot].
    rewrite fifo_rows_asset by apply fifo_query_positive. lia.
  - rewrite calculate_fifo_cost_unknown by done. simpl. lia.
Qed.

(** X4. The quantities and unit costs are whole numbers that stay, with the
    values [quantity * cost_per_unit], within [2^53] in magnitude (the range
    in which binary64 computes with them exactly).  An allocation then moves
    value from the stock to its cost, exactly: after [calculate_fifo_cost],
    [get_total_asset_value] is lower by the cost the call returned, for every
    ingredient and every request. *)
Theorem allocation_cost_is_asset_decrease st ing needed :
  ledger_magnitude st + Z.abs needed <= exact_range ->
  get_total_asset_value (snd (calculate_fifo_cost st ing needed))
  = get_total_asset_value st - fst (calculate_fifo_cost st ing needed).
Proof.
  intros _. rewrite !get_total_asset_value_sum. apply calculate_fifo_cost_asset.
Qed.

Lemma allocation_cost_is_asset_decrease_witness :
  ledger_magnitude (two_batches true) + Z.abs 15 <= exact_range
  /\ get_total_asset_value (snd (calculate_fifo_cost (two_batches true) 1 15))
     = get_total_asset_value (two_batches true)
       - fst (calculate_fifo_cost (two_batches true) 1 15).
Proof.
  assert (H : ledger_magnitude (two_batches true) + Z.abs 15 <= exact_range)
    by (by vm_compute).
  split; [exact H|].
  exact (allocation_cost_is_asset_decrease (two_batches true) 1 15 H).
Defined.

(** ** [purchase]: the trip, its batches, its ingredients *)

Lemma owned_by_spec user g : owned_by user g = true <-> user_id g = Some user.
Proof.
  unfold owned_by. destruct (user_id g) as [u|]; [|done].
  rewrite Nat.eqb_eq. split; [by intros ->|by intros [= ->]].
Qed.

Lemma find_ingredient_Some nm user t k :
  find_ingredient nm user t = Some k ->
  exists g, table_get k t = Some g /\ name g = nm /\ user_id g = Some user.
Proof.
  unfold find_ingredient.
  destruct (List.filter _ (all_rows t)) as [|[i g] l] eqn:Hf; simpl; [done|].
  intros [= <-].
  assert (Hin : In (i, g)
                   (List.filter
                      (fun r => String.eqb (name (snd r)) nm && owned_by user (snd r))
                      (all_rows t)))
    by (rewrite Hf; by left).
  apply List.filter_In in Hin as [Hin Hnm]. apply In_all_rows in Hin.
  simpl in Hnm. apply andb_true_iff in Hnm as [Hnm Hown].
  apply String.eqb_eq in Hnm. apply owned_by_spec in Hown. eauto.
Qed.

Lemma find_ingredient_None nm user t :
  find_ingredient nm user t = None ->
  forall g, In g t -> user_id g = Some user -> name g <> nm.
Proof.
  unfold find_ingredient.
  destruct (List.filter _ (all_rows t)) as [|[i g0] l] eqn:Hf; simpl; [|done].
  intros _ g Hg Hown Hnm. apply table_get_of_In in Hg as [i Hi].
  apply In_all_rows in Hi.
  assert (Hin : In (i, g)
                   (List.filter
                      (fun r => String.eqb (name (snd r)) nm && owned_by user (snd r))
                      (all_rows t))).
  { apply List.filter_In. split; [done|]. simpl. apply andb_true_iff.
    split; [by apply String.eqb_eq|by apply owned_by_spec]. }
  by rewrite Hf in Hin.
Qed.

Lemma find_ingredient_is_Some nm user t g :
  In g t -> name g = nm -> user_id g = Some user ->
  is_Some (find_ingredient nm user t).
Proof.
  intros Hg Hnm Hown. destruct (find_ingredient nm user t) eqn:Hf; [eauto|].
  by destruct (find_ingredient_None nm user t Hf g Hg Hown).
Qed.

Lemma trip_batch_app t extra eid d it p :
  trip_batch t eid d it p -> trip_batch (t ++ extra) eid d it p.
Proof.
  intros [Hf (g & Hg & Hn)]. split; [done|]. exists g. split; [|done].
  by apply table_get_app_l.
Qed.

Lemma own_ingredient_app user t extra it p :
  own_ingredient user t it p -> own_ingredient user (t ++ extra) it p.
Proof.
  intros (g & Hg & Hn). exists g. split; [|done]. by apply table_get_app_l.
Qed.

Lemma owned_names_snoc user (t : list Ingredient) g :
  List.NoDup (owned_names user t) ->
  (forall g', In g' t -> user_id g' = Some user -> name g' <> name g) ->
  List.NoDup (owned_names user (t ++ [g])).
Proof.
  intros Hnd Hfresh. unfold owned_names in *. rewrite List.filter_app, map_app.
  simpl. destruct (owned_by user g); simpl; [|by rewrite app_nil_r].
  apply List.NoDup_app; [done|repeat constructor; tauto|].
  intros x Hx [<-|[]]. apply List.in_map_iff in Hx as (g' & Hn & Hg').
  apply List.filter_In in Hg' as [Hg' Hown]. apply owned_by_spec in Hown.
  by apply (Hfresh g' Hg' Hown).
Qed.

Lemma purchase_item_step_spec p_date eid acc it :
  exists p extra,
    purchases (fst (purchase_item_step p_date eid acc it)) = purchases (fst acc) ++ [p]
    /\ ingredients (fst (purchase_item_step p_date eid acc it))
       = ingredients (fst acc) ++ extra
    /\ trip_batch (ingredients (fst (purchase_item_step p_date eid acc it)))
         eid p_date it p
    /\ snd (purchase_item_step p_date eid acc it) = snd acc + item_final_price it
    /\ current_user (fst (purchase_item_step p_date eid acc it))
       = current_user (fst acc)
    /\ own_ingredient (current_user (fst acc))
         (ingredients (fst (purchase_item_step p_date eid acc it))) it p
    /\ (List.NoDup (owned_names (current_user (fst acc)) (ingredients (fst acc))) ->
        List.NoDup (owned_names (current_user (fst acc))
                      (ingredients (fst (purchase_item_step p_date eid acc it))))).
Proof.
  destruct acc as [st tc]. unfold purchase_item_step. cbn [fst snd].
  destruct (find_ingredient (item_name it) (current_user st) (ingredients st))
    as [k|] eqn:Hfind;
    cbn [fst snd purchases ingredients current_user with_purchases with_ingredients].
  - destruct (find_ingredient_Some _ _ _ _ Hfind) as (g & Hg & Hn & Hown).
    eexists _, []. rewrite app_nil_r. split; [reflexivity|]. split; [done|].
    split; [split; [by repeat split|]; exists g; by split|].
    split; [done|]. split; [done|]. split; [|done]. exists g. by repeat split.
  - eexists _, [_]. split; [reflexivity|]. split; [reflexivity|].
    split; [split; [by repeat split|];
            eexists; split; [apply table_get_app_new|done]|].
    split; [done|]. split; [done|]. split.
    + eexists. split; [apply table_get_app_new|done].
    + intros Hnd. apply owned_names_snoc; [done|]. simpl.
      by apply find_ingredient_None.
Qed.

Lemma purchase_items_full p_date eid items acc :
  exists news extra,
    purchases (fst (fold_left (purchase_item_step p_date eid) items acc))
    = purchases (fst acc) ++ news
    /\ ingredients (fst (fold_left (purchase_item_step p_date eid) items acc))
       = ingredients (fst acc) ++ extra
    /\ Forall2 (trip_batch
                  (ingredients (fst (fold_left (purchase_item_step p_date eid) items acc)))
                  eid p_date) items news
    /\ snd (fold_left (purchase_item_step p_date eid) items acc)
       = snd acc + sum_Z (map item_final_price items)
    /\ current_user (fst (fold_left (purchase_item_step p_date eid) items acc))
       = current_user (fst acc)
    /\ Forall2 (own_ingredient (current_user (fst acc))
                  (ingredients (fst (fold_left (purchase_item_step p_date eid) items acc))))
               items news
    /\ (List.NoDup (owned_names (current_user (fst acc)) (ingredients (fst acc))) ->
        List.NoDup (owned_names (current_user (fst acc))
                      (ingredients
                         (fst (fold_left (purchase_item_step p_date eid) items acc))))).
Proof.
  revert acc. induction items as [|it items IH]; intros acc; cbn [fold_left].
  - exists [], []. rewrite !app_nil_r. simpl.
    repeat split; [constructor|lia|constructor|done].
  - destruct (purchase_item_step_spec p_date eid acc it)
      as (p & extra0 & Hp0 & Hi0 & Hb0 & Htc0 & Hu0 & Ho0 & Hnd0).
    destruct (IH (purchase_item_step p_date eid acc it))
      as (news & extra & Hp & Hi & Hf & Htc & Hu & Ho & Hnd).
    rewrite Hu0 in Ho, Hnd, Hu.
    exists (p :: news), (extra0 ++ extra).
    split; [by rewrite Hp, Hp0, <- app_assoc|].
    split; [by rewrite Hi, Hi0, <- app_assoc|].
    split; [constructor; [|exact Hf]; rewrite Hi; by apply trip_batch_app|].
    split; [rewrite Htc, Htc0; simpl; lia|].
    split; [done|]. split; [|auto].
    constructor; [|exact Ho]. rewrite Hi. by apply own_ingredient_app.
Qed.

Lemma table_set_last {A : Type} (t : list A) x y :
  table_set (S (length t)) x (t ++ [y]) = t ++ [x].
Proof.
  simpl. rewrite insert_app_r_alt by lia. by rewrite Nat.sub_diag.
Qed.

(** Among the ingredients of one user a name is a key. *)
Lemma owned_lookup_inj user (t : list Ingredient) i j g g' :
  List.NoDup (owned_names user t) ->
  t !! i = Some g -> t !! j = Some g' ->
  user_id g = Some user -> user_id g' = Some user -> name g = name g' -> i = j.
Proof.
  unfold owned_names. revert i j.
  induction t as [|x t IH]; intros i j Hnd Hi Hj Hg Hg' Hn; [done|].
  assert (Hin : forall k y, t !! k = Some y -> user_id y = Some user ->
                            In (name y) (map name (List.filter (owned_by user) t))).
  { intros k y Hk Hy. apply List.in_map, List.filter_In.
    split; [apply list_elem_of_lookup_2 in Hk; by apply list_elem_of_In in Hk
           |by apply owned_by_spec]. }
  cbn [List.filter] in Hnd. destruct i as [|i], j as [|j]; simpl in Hi, Hj.
  - done.
  - injection Hi as ->. rewrite (proj2 (owned_by_spec user g) Hg) in Hnd.
    apply List.NoDup_cons_iff in Hnd as [Hni _]. destruct Hni. rewrite Hn. eauto.
  - injection Hj as ->. rewrite (proj2 (owned_by_spec user g') Hg') in Hnd.
    apply List.NoDup_cons_iff in Hnd as [Hni _]. destruct Hni. rewrite <- Hn. eauto.
  - f_equal. apply IH; try done.
    destruct (owned_by user x); [by apply List.NoDup_cons_iff in Hnd as [_ ?]|done].
Qed.

Lemma purchase_full st p_date p_place items :
  exists news extra,
    fst (purchase st p_date p_place items) = success
    /\ purchases (snd (purchase st p_date p_place items)) = purchases st ++ news
    /\ Forall2 (trip_batch (ingredients (snd (purchase st p_date p_place items)))
                  (S (length (shopping_events st))) p_date) items news
    /\ shopping_events (snd (purchase st p_date p_place items))
       = shopping_events st
         ++ [mkShoppingEvent p_date p_place (sum_Z (map item_final_price items)) 0]
    /\ ingredients (snd (purchase st p_date p_place items)) = ingredients st ++ extra
    /\ usages (snd (purchase st p_date p_place items)) = usages st
    /\ current_user (snd (purchase st p_date p_place items)) = current_user st
    /\ Forall2 (own_ingredient (current_user st)
                  (ingredients (snd (purchase st p_date p_place items)))) items news
    /\ (List.NoDup (owned_names (current_user st) (ingredients st)) ->
        List.NoDup (owned_names (current_user st)
                      (ingredients (snd (purchase st p_date p_place items))))).
Proof.
  unfold purchase.
  set (event := mkShoppingEvent p_date p_place 0 0).
  set (st0 := with_events st (shopping_events st ++ [event])).
  assert (Heid : length (shopping_events st0) = S (length (shopping_events st))).
  { subst st0. simpl. rewrite length_app. simpl. lia. }
  rewrite Heid.
  destruct (purchase_items_full p_date (S (length (shopping_events st))) items (st0, 0))
    as (news & extra & Hp & Hi & Hf & Htc & Hcu & Ho & Hnd).
  destruct (purchase_items_tables p_date (S (length (shopping_events st))) items (st0, 0))
    as (_ & _ & _ & He & Hu).
  destruct (fold_left _ items (st0, 0)) as [st1 tc].
  cbn [fst snd purchases ingredients shopping_events usages current_user with_events]
    in *.
  subst st0.
  cbn [fst snd purchases ingredients shopping_events usages current_user with_events]
    in *.
  exists news, extra. split; [done|]. split; [done|]. split; [done|].
  split; [|done]. rewrite He, table_set_last. subst tc event. by rewrite Z.add_0_l.
Qed.

(** X5. [purchase] records a trip as one shopping event and one batch per
    item, in the order of the items: the event carries the date, the place,
    the sum of the item prices as [total_cost] and no waste; every batch is
    full ([remaining_quantity = quantity]), active, without waste, dated like
    the trip, tied to the new event and to the ingredient of the item's name;
    all earlier batches, events and usages are as they were, and ingredients
    are only added. *)
Theorem purchase_records_trip st p_date p_place items :
  exists news extra,
    fst (purchase st p_date p_place items) = success
    /\ purchases (snd (purchase st p_date p_place items)) = purchases st ++ news
    /\ Forall2 (trip_batch (ingredients (snd (purchase st p_date p_place items)))
                  (S (length (shopping_events st))) p_date) items news
    /\ shopping_events (snd (purchase st p_date p_place items))
       = shopping_events st
         ++ [mkShoppingEvent p_date p_place (sum_Z (map item_final_price items)) 0]
    /\ ingredients (snd (purchase st p_date p_place items)) = ingredients st ++ extra
    /\ usages (snd (purchase st p_date p_place items)) = usages st.
Proof.
  destruct (purchase_full st p_date p_place items)
    as (news & extra & H1 & H2 & H3 & H4 & H5 & H6 & _).
  exists news, extra. tauto.
Qed.

(** X6. Ingredients are found or created by name within the ingredients of
    the logged-in user, and never duplicated there.  The batch of every item
    goes to an ingredient of the item's name that belongs to the user -- never
    to a same-named ingredient of another user or of none --; when the user
    already had an ingredient of that name the batch goes to that one; if
    the names of the user's ingredients are distinct they still are after
    [purchase]; and afterwards every item name is found among them. *)
Theorem purchase_reuses_ingredients st p_date p_place items :
  List.NoDup (owned_names (current_user st) (ingredients st)) ->
  List.NoDup (owned_names (current_user st)
                (ingredients (snd (purchase st p_date p_place items))))
  /\ (exists news,
        purchases (snd (purchase st p_date p_place items)) = purchases st ++ news
        /\ Forall2
             (fun it p =>
                own_ingredient (current_user st)
                  (ingredients (snd (purchase st p_date p_place items))) it p
                /\ forall k g, table_get k (ingredients st) = Some g ->
                               name g = item_name it ->
                               user_id g = Some (current_user st) ->
                               ingredient_id p = k)
             items news)
  /\ (forall it, In it items ->
        is_Some (find_ingredient (item_name it) (current_user st)
                   (ingredients (snd (purchase st p_date p_place items))))).
Proof.
  intros Hnd.
  destruct (purchase_full st p_date p_place items)
    as (news & extra & _ & Hp & _ & _ & Hi & _ & _ & Ho & Hnd').
  specialize (Hnd' Hnd). split; [done|]. split.
  - exists news. split; [done|].
    eapply Forall2_impl; [exact Ho|]. intros it p Hown. split; [done|].
    destruct Hown as (g' & Hg' & Hn' & Hu'). intros k g Hk Hn Hu.
    assert (Hk' : table_get k (ingredients (snd (purchase st p_date p_place items)))
                  = Some g) by (rewrite Hi; by apply table_get_app_l).
    destruct (ingredient_id p) as [|i], k as [|k]; try done. f_equal.
    simpl in Hg', Hk'.
    eapply (owned_lookup_inj _ _ i k g' g Hnd'); try done. congruence.
  - intros it Hit. apply list_elem_of_In in Hit.
    apply list_elem_of_lookup in Hit as [i Hi'].
    destruct (Forall2_lookup_l _ _ _ i it Ho Hi') as (p & _ & (g & Hg & Hn & Hu)).
    apply elem_of_table_get in Hg. by eapply find_ingredient_is_Some.
Qed.

Lemma purchase_reuses_ingredients_witness :
  List.NoDup (owned_names (current_user (two_batches true))
                (ingredients (two_batches true)))
  /\ List.NoDup
       (owned_names (current_user (two_batches true))
          (ingredients
             (snd (purchase (two_batches true) day2 "market"
                     [mkItem "milk" 5 "ml" 10 2 None;
                      mkItem "egg" 6 "ea" 12 2 None])))).
Proof.
  assert (H : List.NoDup (owned_names (current_user (two_batches true))
                            (ingredients (two_batches true)))).
  { vm_compute. constructor; [intros []|constructor]. }
  split; [exact H|].
  exact (proj1 (purchase_reuses_ingredients (two_batches true) day2 "market"
                  [mkItem "milk" 5 "ml" 10 2 None; mkItem "egg" 6 "ea" 12 2 None] H)).
Defined.

(** ** What the requests write to a batch *)

Lemma table_written_refl t : table_written t t.
Proof. intros i p Hp. exists p. split; [done|apply rtc_refl]. Qed.

Lemma table_written_trans t1 t2 t3 :
  table_written t1 t2 -> table_written t2 t3 -> table_written t1 t3.
Proof.
  intros H12 H23 i p Hp. destruct (H12 i p Hp) as (q & Hq & Hpq).
  destruct (H23 i q Hq) as (r & Hr & Hqr). exists r. split; [done|].
  by etrans.
Qed.

Lemma table_written_app t news : table_written t (t ++ news).
Proof.
  intros i p Hp. exists p. split; [by apply table_get_app_l|apply rtc_refl].
Qed.

Lemma table_written_set t i p x :
  table_get i t = Some p -> batch_write p x -> table_written t (table_set i x t).
Proof.
  intros Hp Hx j q Hq. destruct (decide (i = j)) as [->|Hne].
  - exists x. rewrite table_get_set_eq by (rewrite Hq; eauto). split; [done|].
    apply rtc_once. congruence.
  - exists q. rewrite table_get_set_ne by done. split; [done|apply rtc_refl].
Qed.

Lemma table_written_adjust delta t : table_written t (adjust_remaining delta t).
Proof.
  intros i p Hp. rewrite table_get_adjust_remaining, Hp. simpl.
  eexists. split; [reflexivity|]. apply rtc_once. constructor.
Qed.

Lemma calculate_fifo_cost_written st ing needed :
  table_written (purchases st) (purchases (snd (calculate_fifo_cost st ing needed))).
Proof.
  destruct (table_get ing (ingredients st)) as [x|] eqn:Hx.
  - rewrite calculate_fifo_cost_adjust by (rewrite Hx; eauto). apply table_written_adjust.
  - rewrite calculate_fifo_cost_unknown by done. apply table_written_refl.
Qed.

Lemma cook_written st u_date meal items :
  table_written (purchases st) (purchases (snd (cook st u_date meal items))).
Proof.
  unfold cook. simpl. revert st. induction items as [|item items IH]; intros st.
  - apply table_written_refl.
  - cbn [fold_left]. eapply table_written_trans; [|apply IH].
    rewrite cook_item_step_purchases. apply calculate_fifo_cost_written.
Qed.

Lemma restored_table_written st ing q :
  table_written (purchases st) (restored_table st ing q).
Proof.
  unfold restored_table.
  set (amounts := restore_amounts (restore_query st ing) q).
  set (t1 := flush (add_to_rows (restore_query st ing) amounts) (purchases st)).
  assert (Ht1 : table_written (purchases st) t1).
  { subst t1. rewrite flush_add_to_rows;
      [apply table_written_adjust|apply map_fst_restore_amounts
      |apply restore_query_NoDup|apply restore_query_snapshot]. }
  destruct (0 <? _); [|done].
  destruct (last_purchase_query t1 ing) as [[i lp]|] eqn:Hl; [|done].
  apply last_purchase_query_Some in Hl as [Hl _].
  eapply table_written_trans; [exact Ht1|].
  eapply table_written_set; [exact Hl|]. constructor.
Qed.

Lemma step_written st o : table_written (purchases st) (purchases (step st o)).
Proof.
  destruct o as [d pl items|d meal items|pid a|pid s|uid]; unfold step; simpl.
  - destruct (purchase_tables st d pl items) as (news & -> & _). apply table_written_app.
  - apply cook_written.
  - destruct (discard_item_purchases st pid a) as [->|(p & Hp & Hle & ->)];
      [apply table_written_refl|].
    eapply table_written_set; [exact Hp|]. by constructor.
  - destruct (update_purchase_status_purchases st pid s) as [->|(p & Hp & ->)];
      [apply table_written_refl|].
    eapply table_written_set; [exact Hp|]. constructor.
  - destruct (get_usage uid (usages st)) as [u|] eqn:Hu.
    + rewrite (api_delete_usage_eq _ _ _ Hu). simpl. apply restored_table_written.
    + rewrite api_delete_usage_unknown by done. apply table_written_refl.
Qed.

Lemma run_written ops st : table_written (purchases st) (purchases (run ops st)).
Proof.
  revert st. induction ops as [|o ops IH]; intros st.
  - apply table_written_refl.
  - rewrite run_cons. eapply table_written_trans; [apply step_written|apply IH].
Qed.

Lemma batch_write_same p p' : batch_write p p' -> same_batch p p'.
Proof. intros []; by repeat split. Qed.

Lemma batch_write_status p p' :
  batch_write p p' -> status p = "discarded"%string -> status p' = "discarded"%string.
Proof. intros [r|a Ha|] Hs; cbn; [done| |done]. by destruct (_ =? 0). Qed.

(** X7. No request removes a batch or rewrites what identifies it: along any
    run a batch stays under its key with its ingredient, purchase date,
    original quantity, unit cost, expiry date and shopping event; and a batch
    whose status is 'discarded' keeps that status whatever is requested
    later, also when a reversal gives it stock again. *)
Theorem batches_are_permanent ops st i p :
  table_get i (purchases st) = Some p ->
  exists p', table_get i (purchases (run ops st)) = Some p'
             /\ same_batch p p'
             /\ (status p = "discarded"%string -> status p' = "discarded"%string).
Proof.
  intros Hp. destruct (run_written ops st i p Hp) as (p' & Hp' & Hw).
  exists p'. split; [done|]. clear Hp Hp'.
  induction Hw as [p|p q r Hpq _ [IH1 IH2]]; [split; [apply same_batch_refl|done]|].
  split.
  - eapply same_batch_trans; [by apply batch_write_same|done].
  - intros Hs. apply IH2. by eapply batch_write_status.
Qed.

Lemma batches_are_permanent_witness :
  table_get 1%nat (purchases (two_batches true))
  = Some (mkPurchase 1 day1 10 10 2 None (Some 1%nat) "active" 0 0)
  /\ exists p',
      table_get 1%nat
        (purchases (run [OpUpdateStatus 1 "discarded";
                         OpCook day2 "dinner" [mkCookItem 1 3 "std"]]
                        (two_batches true))) = Some p'
      /\ same_batch (mkPurchase 1 day1 10 10 2 None (Some 1%nat) "active" 0 0) p'.
Proof.
  assert (H1 : table_get 1%nat (purchases (two_batches true))
               = Some (mkPurchase 1 day1 10 10 2 None (Some 1%nat) "active" 0 0))
    by reflexivity.
  split; [exact H1|].
  destruct (batches_are_permanent
              [OpUpdateStatus 1 "discarded"; OpCook day2 "dinner" [mkCookItem 1 3 "std"]]
              (two_batches true) 1 _ H1) as (p' & Hp' & Hs & _).
  exists p'. split; [exact Hp'|exact Hs].
Defined.

Lemma table_written_same_length t t' i p' :
  table_written t t' -> length t' = length t -> table_get i t' = Some p' ->
  exists p, table_get i t = Some p /\ rtc batch_write p p'.
Proof.
  intros Hw Hlen Hp'.
  assert (His : is_Some (table_get i t)).
  { apply table_get_is_Some. rewrite <- Hlen. apply table_get_is_Some. eauto. }
  destruct His as [p Hp]. destruct (Hw i p Hp) as (q & Hq & Hs).
  exists p. split; [done|]. congruence.
Qed.

Lemma step_length_purchases st o :
  match o with
  | OpPurchase _ _ _ => True
  | _ => length (purchases (step st o)) = length (purchases st)
  end.
Proof.
  destruct o as [d pl items|d meal items|pid a|pid s|uid]; unfold step; cbn [handle];
    [done| | | |].
  - apply cook_tables.
  - destruct (discard_item_purchases st pid a) as [->|(p & _ & _ & ->)];
      [done|apply length_table_set].
  - destruct (update_purchase_status_purchases st pid s) as [->|(p & _ & ->)];
      [done|apply length_table_set].
  - destruct (get_usage uid (usages st)) as [u|] eqn:Hu.
    + rewrite (api_delete_usage_eq _ _ _ Hu). simpl. apply restored_table_length.
    + by rewrite api_delete_usage_unknown.
Qed.

(** A batch of the next state was in the table, and has been written to, or
    is a batch [purchase] has just created. *)
Lemma step_batch_origin st o i p' :
  table_get i (purchases (step st o)) = Some p' ->
  (exists p, table_get i (purchases st) = Some p /\ rtc batch_write p p')
  \/ exists d it, fresh_batch (S (length (shopping_events st))) d it p'.
Proof.
  intros Hp'. pose proof (step_length_purchases st o) as Hlen.
  destruct o as [d pl items|d meal items|pid a|pid s|uid];
    try (left; eapply table_written_same_length; [apply step_written|done|done]).
  unfold step in *. cbn [handle] in *.
  destruct (purchase_tables st d pl items) as (news & Hps & Hf & _).
  rewrite Hps in Hp'. destruct i as [|i]; [done|]. simpl in Hp'.
  apply lookup_app_Some in Hp' as [Hold|[_ Hnew]].
  - left. exists p'. split; [done|apply rtc_refl].
  - right. destruct (Forall2_lookup_r _ _ _ _ _ Hf Hnew) as (it & _ & Hfresh). eauto.
Qed.

Lemma step_batch_invariant (P : Purchase -> Prop) :
  (forall n d it p, fresh_batch (S n) d it p -> P p) ->
  (forall p p', batch_write p p' -> P p -> P p') ->
  forall st o, Forall P (purchases st) -> Forall P (purchases (step st o)).
Proof.
  intros Hfresh Hwrite st o Hst. apply Forall_forall. intros p' Hin.
  apply list_elem_of_In, table_get_of_In in Hin as [i Hi].
  destruct (step_batch_origin st o i p' Hi) as [(p & Hp & Hw)|(d & it & Hf)];
    [|by eapply Hfresh].
  assert (HP : P p).
  { rewrite Forall_forall in Hst. apply Hst, list_elem_of_In.
    by eapply elem_of_table_get. }
  clear -Hw HP Hwrite. induction Hw; eauto.
Qed.

Lemma run_batch_invariant (P : Purchase -> Prop) :
  (forall n d it p, fresh_batch (S n) d it p -> P p) ->
  (forall p p', batch_write p p' -> P p -> P p') ->
  forall ops st, Forall P (purchases st) -> Forall P (purchases (run ops st)).
Proof.
  intros Hfresh Hwrite ops. induction ops as [|o ops IH]; intros st Hst; [done|].
  rewrite run_cons. apply IH. by apply step_batch_invariant.
Qed.

Lemma batch_write_waste_priced p p' :
  batch_write p p' -> waste_priced p -> waste_priced p'.
Proof. unfold waste_priced. intros [r|a Ha|]; cbn; lia. Qed.

(** X8. The numbers of the ledger and of the requests are whole and stay
    within [2^53] in magnitude along the run (the range in which binary64
    computes with them exactly).  Waste is then always booked at the unit cost
    of its batch: if every batch of the store has
    [discarded_cost = discarded_quantity * cost_per_unit], every batch still
    has after any sequence of purchases, meals, partial and full discards,
    status updates and reversals. *)
Theorem waste_is_priced_at_unit_cost ops st :
  Forall waste_priced (purchases st) -> exact_along ops st ->
  Forall waste_priced (purchases (run ops st)).
Proof.
  intros Hst _. revert Hst. apply run_batch_invariant.
  - intros n d it p (_ & _ & Hq & Hc & _). unfold waste_priced. rewrite Hq, Hc. lia.
  - apply batch_write_waste_priced.
Qed.

Lemma waste_is_priced_at_unit_cost_witness :
  Forall waste_priced (purchases (empty_store true))
  /\ exact_along
       [OpPurchase day1 "market" [mkItem "milk" 10 "ml" 20 2 None];
        OpPurchase day2 "market" [mkItem "milk" 10 "ml" 30 3 None];
        OpDiscard 1 (Some 4); OpUpdateStatus 2 "discarded"]
       (empty_store true)
  /\ Forall waste_priced
       (purchases (run [OpDiscard 1 (Some 4); OpUpdateStatus 2 "discarded"]
                       (two_batches true))).
Proof.
  assert (H : Forall waste_priced (purchases (empty_store true))) by constructor.
  assert (H' : exact_along
                 [OpPurchase day1 "market" [mkItem "milk" 10 "ml" 20 2 None];
                  OpPurchase day2 "market" [mkItem "milk" 10 "ml" 30 3 None];
                  OpDiscard 1 (Some 4); OpUpdateStatus 2 "discarded"]
                 (empty_store true))
    by (repeat split; by vm_compute).
  split; [exact H|]. split; [exact H'|].
  exact (waste_is_priced_at_unit_cost
           [OpPurchase day1 "market" [mkItem "milk" 10 "ml" 20 2 None];
            OpPurchase day2 "market" [mkItem "milk" 10 "ml" 30 3 None];
            OpDiscard 1 (Some 4); OpUpdateStatus 2 "discarded"]
           (empty_store true) H H').
Defined.

(** ** Discards: the two routes, and discards in parts *)

Lemma table_set_set {A : Type} (t : list A) i x y :
  table_set i x (table_set i y t) = table_set i x t.
Proof. destruct i as [|i]; simpl; [done|]. apply list_insert_insert_eq. Qed.

(** [discard_item] on a batch of the store, for an amount that is not above
    the remaining quantity. *)
Lemma discard_item_eq st pid p amount :
  table_get pid (purchases st) = Some p ->
  default (remaining_quantity p) amount <= remaining_quantity p ->
  discard_item st pid amount
  = let a := default (remaining_quantity p) amount in
    let st1 := with_purchases st (table_set pid (after_discard p a) (purchases st)) in
    match truthy_id (shopping_event_id p) with
    | None => (success, st1)
    | Some eid =>
        match table_get eid (shopping_events st) with
        | None => (server_error, st)
        | Some e =>
            (success,
             with_events st1
               (table_set eid (set_total_waste e (total_waste e + a * cost_per_unit p))
                  (shopping_events st)))
        end
    end.
Proof.
  intros Hp Hle. unfold discard_item. rewrite Hp.
  set (a := default (remaining_quantity p) amount) in *.
  destruct (Z.ltb_spec (remaining_quantity p) a); [lia|].
  match goal with |- context [truthy_id (shopping_event_id ?q)] => set (p3 := q) end.
  assert (Hp3 : p3 = after_discard p a).
  { subst p3. unfold after_discard. simpl. by destruct (_ =? 0). }
  rewrite Hp3. cbn [after_discard shopping_event_id cost_per_unit].
  destruct (truthy_id (shopping_event_id p)) as [eid|]; [|done].
  cbn [with_purchases shopping_events]. by destruct (table_get eid (shopping_events st)).
Qed.

(** [update_purchase_status] with 'discarded' on a batch that is not
    discarded yet. *)
Lemma update_purchase_status_eq st pid p :
  table_get pid (purchases st) = Some p -> status p <> "discarded"%string ->
  update_purchase_status st pid "discarded"
  = let st1 := with_purchases st (table_set pid (fully_discarded p) (purchases st)) in
    match truthy_id (shopping_event_id p) with
    | None => (success, st1)
    | Some eid =>
        match table_get eid (shopping_events st) with
        | None => (server_error, st)
        | Some e =>
            (success,
             with_events st1
               (table_set eid
                  (set_total_waste e
                     (total_waste e + remaining_quantity p * cost_per_unit p))
                  (shopping_events st)))
        end
    end.
Proof.
  intros Hp Hs. unfold update_purchase_status. rewrite Hp.
  apply String.eqb_neq in Hs. rewrite Hs.
  change (("discarded" =? "discarded")%string && negb false) with true. cbv iota.
  cbn [set_status set_discarded set_remaining shopping_event_id cost_per_unit
       remaining_quantity discarded_quantity discarded_cost].
  destruct (truthy_id (shopping_event_id p)) as [eid|]; [|done].
  cbn [with_purchases shopping_events]. by destruct (table_get eid (shopping_events st)).
Qed.

Lemma after_discard_all p : after_discard p (remaining_quantity p) = fully_discarded p.
Proof. unfold after_discard, fully_discarded. by rewrite Z.sub_diag. Qed.

(** X9. A discard request that names no amount discards everything that is
    left: on a batch that is not discarded yet, [discard_item] without
    'amount' answers the same and leaves the same database as
    [update_purchase_status] with the status 'discarded'. *)
Theorem discard_without_amount_is_full_discard st pid p :
  table_get pid (purchases st) = Some p -> status p <> "discarded"%string ->
  discard_item st pid None = update_purchase_status st pid "discarded".
Proof.
  intros Hp Hs. rewrite (discard_item_eq st pid p None Hp) by (simpl; lia).
  rewrite (update_purchase_status_eq st pid p Hp Hs).
  cbn [default option_rect from_option]. by rewrite after_discard_all.
Qed.

Lemma discard_without_amount_is_full_discard_witness :
  table_get 1%nat (purchases (two_batches true))
  = Some (mkPurchase 1 day1 10 10 2 None (Some 1%nat) "active" 0 0)
  /\ discard_item (two_batches true) 1 None
     = update_purchase_status (two_batches true) 1 "discarded".
Proof.
  assert (H1 : table_get 1%nat (purchases (two_batches true))
               = Some (mkPurchase 1 day1 10 10 2 None (Some 1%nat) "active" 0 0))
    by reflexivity.
  split; [exact H1|].
  apply (discard_without_amount_is_full_discard (two_batches true) 1 _ H1).
  discriminate.
Defined.

Lemma after_discard_twice p a b :
  0 <= b -> a + b <= remaining_quantity p ->
  after_discard (after_discard p a) b = after_discard p (a + b).
Proof.
  intros Hb Hab. unfold after_discard.
  cbn [ingredient_id purchase_date quantity remaining_quantity cost_per_unit
       expiry_date shopping_event_id status discarded_quantity discarded_cost].
  replace (remaining_quantity p - a - b) with (remaining_quantity p - (a + b)) by lia.
  replace (discarded_quantity p + a + b) with (discarded_quantity p + (a + b)) by lia.
  replace (discarded_cost p + a * cost_per_unit p + b * cost_per_unit p)
    with (discarded_cost p + (a + b) * cost_per_unit p) by lia.
  destruct (Z.eqb_spec (remaining_quantity p - (a + b)) 0) as [H0|H0]; [done|].
  destruct (Z.eqb_spec (remaining_quantity p - a) 0); [lia|done].
Qed.

(** X10. The numbers of the ledger and the amounts are whole and stay, with
    the value of the amounts, within [2^53] in magnitude (the range in which
    binary64 computes with them exactly).  Discards then add up: discarding
    [a] and then [b] of a batch, with [a >= 0], [b >= 0] and [a + b] within
    the remaining quantity, answers the same and leaves the same database --
    batch, status and the waste of the shopping event -- as discarding
    [a + b] at once. *)
Theorem discards_add_up st pid p a b :
  table_get pid (purchases st) = Some p ->
  0 <= a -> 0 <= b -> a + b <= remaining_quantity p ->
  ledger_magnitude st + request_quantity st (OpDiscard pid (Some (a + b)))
  + request_value st (OpDiscard pid (Some (a + b))) <= exact_range ->
  discard_item (snd (discard_item st pid (Some a))) pid (Some b)
  = discard_item st pid (Some (a + b)).
Proof.
  intros Hp Ha Hb Hab _.
  rewrite (discard_item_eq st pid p (Some (a + b)) Hp) by (simpl; lia).
  rewrite (discard_item_eq st pid p (Some a) Hp) by (simpl; lia).
  cbn [default from_option]; unfold id.
  assert (Hget : table_get pid (table_set pid (after_discard p a) (purchases st))
                 = Some (after_discard p a))
    by (rewrite table_get_set_eq; [done|rewrite Hp; eauto]).
  assert (Hle : default (remaining_quantity (after_discard p a)) (Some b)
                <= remaining_quantity (after_discard p a)) by (simpl; lia).
  destruct (truthy_id (shopping_event_id p)) as [eid|] eqn:Hid.
  - destruct (table_get eid (shopping_events st)) as [e|] eqn:He; cbn [snd].
    + rewrite (discard_item_eq _ pid (after_discard p a) (Some b)) by done.
      cbn [default from_option]; unfold id.
      cbn [after_discard shopping_event_id cost_per_unit]. rewrite Hid.
      cbn [with_events with_purchases shopping_events purchases ingredients usages
           unit_matrix nulls_first].
      rewrite table_get_set_eq by (rewrite He; eauto).
      rewrite !table_set_set, after_discard_twice by done.
      cbn [set_total_waste total_waste].
      replace (total_waste e + a * cost_per_unit p + b * cost_per_unit p)
        with (total_waste e + (a + b) * cost_per_unit p) by lia.
      done.
    + rewrite (discard_item_eq st pid p (Some b) Hp) by (simpl; lia).
      by rewrite Hid, He.
  - cbn [snd]. rewrite (discard_item_eq _ pid (after_discard p a) (Some b)) by done.
    cbn [default from_option]; unfold id.
    cbn [after_discard shopping_event_id cost_per_unit]. rewrite Hid.
    cbn [with_events with_purchases shopping_events purchases ingredients usages
         unit_matrix nulls_first].
    by rewrite !table_set_set, after_discard_twice.
Qed.

Lemma discards_add_up_witness :
  table_get 1%nat (purchases (two_batches true))
  = Some (mkPurchase 1 day1 10 10 2 None (Some 1%nat) "active" 0 0)
  /\ 0 <= 4 /\ 0 <= 6 /\ 4 + 6 <= 10
  /\ ledger_magnitude (two_batches true)
     + request_quantity (two_batches true) (OpDiscard 1 (Some (4 + 6)))
     + request_value (two_batches true) (OpDiscard 1 (Some (4 + 6))) <= exact_range
  /\ discard_item (snd (discard_item (two_batches true) 1 (Some 4))) 1 (Some 6)
     = discard_item (two_batches true) 1 (Some (4 + 6)).
Proof.
  assert (H1 : table_get 1%nat (purchases (two_batches true))
               = Some (mkPurchase 1 day1 10 10 2 None (Some 1%nat) "active" 0 0))
    by reflexivity.
  assert (H0 : 0 <= 4) by lia.
  assert (H2 : 0 <= 6) by lia.
  assert (H3 : 4 + 6 <= remaining_quantity
                           (mkPurchase 1 day1 10 10 2 None (Some 1%nat) "active" 0 0))
    by (simpl; lia).
  assert (H4 : ledger_magnitude (two_batches true)
               + request_quantity (two_batches true) (OpDiscard 1 (Some (4 + 6)))
               + request_value (two_batches true) (OpDiscard 1 (Some (4 + 6)))
               <= exact_range) by (by vm_compute).
  split; [exact H1|]. split; [exact H0|]. split; [exact H2|]. split; [exact H3|].
  split; [exact H4|].
  exact (discards_add_up (two_batches true) 1 _ 4 6 H1 H0 H2 H3 H4).
Defined.

(** ** [cook]: the usages of a meal *)

Lemma cook_item_step_eq u_date meal st item :
  cook_item_step u_date meal st item
  = with_usages
      (snd (calculate_fifo_cost st (cook_ingredient_id item) (final_quantity st item)))
      (usages st
       ++ [mkUsage (next_usage_id (usages st)) (cook_ingredient_id item) u_date meal
             (cook_amount item) (cook_unit_name item) (final_quantity st item)
             (fst (calculate_fifo_cost st (cook_ingredient_id item)
                     (final_quantity st item)))]).
Proof.
  unfold cook_item_step.
  pose proof (calculate_fifo_cost_other_tables st (cook_ingredient_id item)
                (final_quantity st item)) as (_ & _ & Hu & _).
  destruct (calculate_fifo_cost _ _ _) as [c st1]. simpl in *. by rewrite Hu.
Qed.

Lemma cook_item_step_tables u_date meal st item :
  ingredients (cook_item_step u_date meal st item) = ingredients st
  /\ unit_matrix (cook_item_step u_date meal st item) = unit_matrix st
  /\ nulls_first (cook_item_step u_date meal st item) = nulls_first st.
Proof.
  rewrite cook_item_step_eq.
  pose proof (calculate_fifo_cost_other_tables st (cook_ingredient_id item)
                (final_quantity st item)) as (Hi & _ & _ & Hm & Hn).
  by simpl.
Qed.

Lemma final_quantity_ext st st' item :
  unit_matrix st' = unit_matrix st -> final_quantity st' item = final_quantity st item.
Proof. unfold final_quantity. by intros ->. Qed.

Lemma usage_of_ext st st' d meal item u :
  unit_matrix st' = unit_matrix st -> usage_of st' d meal item u -> usage_of st d meal item u.
Proof. unfold usage_of. intros H. by rewrite (final_quantity_ext _ _ _ H). Qed.

Lemma cook_items_full u_date meal items st :
  exists news,
    usages (fold_left (cook_item_step u_date meal) items st) = usages st ++ news
    /\ Forall2 (usage_of st u_date meal) items news
    /\ sum_Z (map cost news)
       = table_sum asset_of (purchases st)
         - table_sum asset_of (purchases (fold_left (cook_item_step u_date meal) items st))
    /\ ingredients (fold_left (cook_item_step u_date meal) items st) = ingredients st
    /\ unit_matrix (fold_left (cook_item_step u_date meal) items st) = unit_matrix st.
Proof.
  revert st. induction items as [|item items IH]; intros st; cbn [fold_left].
  - exists []. rewrite app_nil_r. repeat split; [constructor|]. simpl. lia.
  - destruct (IH (cook_item_step u_date meal st item)) as (news & Hu & Hf & Hc & Hi & Hm).
    destruct (cook_item_step_tables u_date meal st item) as (Hi1 & Hm1 & _).
    rewrite Hu, Hi, Hm, Hi1, Hm1. rewrite cook_item_step_purchases in Hc.
    rewrite calculate_fifo_cost_asset in Hc.
    pose proof (f_equal usages (cook_item_step_eq u_date meal st item)) as Hus.
    cbn [with_usages usages] in Hus. rewrite Hus.
    eexists (_ :: news). rewrite <- app_assoc. split; [reflexivity|].
    split; [|split; [|done]].
    + constructor; [by repeat split|].
      eapply Forall2_impl; [exact Hf|]. intros it u. by apply usage_of_ext.
    + cbn [map cost sum_Z foldr]. unfold sum_Z in Hc. lia.
Qed.

(** X11. For a meal whose items name ingredients of the database, [cook]
    succeeds and records one usage per item, in the order of the items, after
    the usages there were: each with the ingredient, date, meal, amount and
    unit of the request and, as quantity, the amount times the ratio of the
    unit (the amount itself for a unit the matrix does not know).  It leaves
    ingredients and shopping events alone. *)
Theorem cook_records_usages st u_date meal items :
  Forall (fun it => is_Some (table_get (cook_ingredient_id it) (ingredients st)))
         items ->
  exists news,
    fst (cook st u_date meal items) = success
    /\ usages (snd (cook st u_date meal items)) = usages st ++ news
    /\ Forall2 (usage_of st u_date meal) items news
    /\ ingredients (snd (cook st u_date meal items)) = ingredients st
    /\ shopping_events (snd (cook st u_date meal items)) = shopping_events st.
Proof.
  intros _.
  destruct (cook_items_full u_date meal items st) as (news & Hu & Hf & Hc & Hi & _).
  exists news. unfold cook. cbn [fst snd].
  repeat split; try done. apply (cook_tables st u_date meal items).
Qed.

Lemma cook_records_usages_witness :
  Forall (fun it => is_Some (table_get (cook_ingredient_id it)
                               (ingredients (two_batches true))))
         [mkCookItem 1 13 "std"]
  /\ exists news,
      usages (snd (cook (two_batches true) day2 "dinner" [mkCookItem 1 13 "std"]))
      = usages (two_batches true) ++ news
      /\ Forall2 (usage_of (two_batches true) day2 "dinner")
                 [mkCookItem 1 13 "std"] news.
Proof.
  assert (H : Forall (fun it => is_Some (table_get (cook_ingredient_id it)
                                           (ingredients (two_batches true))))
                     [mkCookItem 1 13 "std"])
    by (repeat constructor; vm_compute; eauto).
  split; [exact H|].
  destruct (cook_records_usages (two_batches true) day2 "dinner"
              [mkCookItem 1 13 "std"] H) as (news & _ & Hu & Hf & _).
  exists news. by split.
Defined.

(** ** The older route [delete_usage] *)

Lemma date_leb_total a b : date_leb a b = false -> date_leb b a = true.
Proof.
  unfold date_leb. rewrite (date_compare_antisym a b).
  by destruct (date_compare a b).
Qed.

Lemma date_leb_trans a b d :
  date_leb a b = true -> date_leb b d = true -> date_leb a d = true.
Proof.
  unfold date_leb. intros H1 H2.
  pose proof (date_compare_trans a b d) as H.
  destruct (date_compare a b), (date_compare b d), (date_compare a d);
    try done; exfalso; by apply H.
Qed.

Lemma date_leb_refl a : date_leb a a = true.
Proof.
  unfold date_leb. by rewrite (proj2 (date_compare_eq a a) eq_refl).
Qed.

(** The row [most_recent] picks has the latest purchase date of the rows. *)
Lemma most_recent_latest rows r :
  most_recent rows = Some r ->
  forall r', In r' rows ->
             date_leb (purchase_date (snd r')) (purchase_date (snd r)) = true.
Proof.
  revert r. induction rows as [|x rows IH]; intros r; simpl; [done|].
  destruct (most_recent rows) as [b|] eqn:Hb.
  - destruct (date_leb (purchase_date (snd b)) (purchase_date (snd x))) eqn:Hle;
      intros [= <-] r' [<-|Hin].
    + apply date_leb_refl.
    + eapply date_leb_trans; [by apply (IH b)|done].
    + by apply date_leb_total.
    + by apply (IH b).
  - apply most_recent_None in Hb. subst rows. intros [= <-] r' [<-|[]].
    apply date_leb_refl.
Qed.

Lemma last_purchase_query_latest t ing k lp :
  last_purchase_query t ing = Some (k, lp) ->
  forall i p, table_get i t = Some p -> ingredient_id p = ing ->
              date_leb (purchase_date p) (purchase_date lp) = true.
Proof.
  unfold last_purchase_query. intros Hm i p Hp Hi.
  apply (most_recent_latest _ _ Hm (i, p)).
  apply List.filter_In. split; [by apply In_all_rows|].
  unfold of_ingredient. simpl. by apply Nat.eqb_eq.
Qed.

Lemma last_purchase_query_None t ing :
  last_purchase_query t ing = None ->
  forall i p, table_get i t = Some p -> ingredient_id p <> ing.
Proof.
  intros Hn i p Hp Hi.
  destruct (last_purchase_query_is_Some t ing i p Hp Hi) as [r Hr]. congruence.
Qed.

(** X12. The older route [delete_usage] gives the whole quantity of the
    usage, of either sign, to one batch: the batch of the ingredient with the
    latest purchase date.  For a usage of the store it succeeds and deletes
    the usage; when the ingredient has a batch, that batch and no other
    changes, its remaining quantity becoming
    [remaining_quantity + actual_usage]; when it has none, the batches are as
    before. *)
Theorem legacy_delete_usage st uid u :
  get_usage uid (usages st) = Some u ->
  fst (delete_usage st uid) = success
  /\ usages (snd (delete_usage st uid)) = delete_row uid (usages st)
  /\ get_usage uid (usages (snd (delete_usage st uid))) = None
  /\ ((forall i p, table_get i (purchases st) = Some p ->
                   ingredient_id p <> usage_ingredient_id u)
      -> purchases (snd (delete_usage st uid)) = purchases st)
  /\ ((exists i p, table_get i (purchases st) = Some p
                   /\ ingredient_id p = usage_ingredient_id u)
      -> exists k lp,
        table_get k (purchases st) = Some lp
        /\ ingredient_id lp = usage_ingredient_id u
        /\ (forall i p, table_get i (purchases st) = Some p ->
                        ingredient_id p = usage_ingredient_id u ->
                        date_leb (purchase_date p) (purchase_date lp) = true)
        /\ purchases (snd (delete_usage st uid))
           = table_set k
               (set_remaining lp (remaining_quantity lp + actual_usage u))
               (purchases st)).
Proof.
  intros Hu. unfold delete_usage. rewrite Hu. cbn [fst snd with_usages usages].
  split; [done|]. split; [done|]. split; [apply get_usage_delete_row|].
  cbn [with_purchases purchases]. split.
  - intros Hnone.
    destruct (last_purchase_query (purchases st) (usage_ingredient_id u))
      as [[k lp]|] eqn:Hl; [|done].
    apply last_purchase_query_Some in Hl as [Hk Hi]. by destruct (Hnone k lp Hk).
  - intros (i & p & Hp & Hi).
    destruct (last_purchase_query (purchases st) (usage_ingredient_id u))
      as [[k lp]|] eqn:Hl.
    + pose proof (last_purchase_query_latest _ _ _ _ Hl) as Hlatest.
      apply last_purchase_query_Some in Hl as [Hk Hik].
      exists k, lp. split; [done|]. split; [done|]. by split.
    + by destruct (last_purchase_query_None _ _ Hl i p Hp Hi).
Qed.

Lemma legacy_delete_usage_witness :
  get_usage 1 (usages (run [OpCook day2 "dinner" [mkCookItem 1 13 "std"]]
                          (two_batches true)))
  = Some (mkUsage 1 1 day2 "dinner" 13 "std" 13 29)
  /\ fst (delete_usage (run [OpCook day2 "dinner" [mkCookItem 1 13 "std"]]
                            (two_batches true)) 1) = success.
Proof.
  assert (H1 : get_usage 1 (usages (run [OpCook day2 "dinner" [mkCookItem 1 13 "std"]]
                                        (two_batches true)))
               = Some (mkUsage 1 1 day2 "dinner" 13 "std" 13 29)) by reflexivity.
  split; [exact H1|].
  exact (proj1 (legacy_delete_usage _ 1 _ H1)).
Defined.

(** ** The month of [monthly_stats] and of the dashboard *)

Lemma make_date_first_None y m :
  make_date y m 1 = None <-> ~ (1 <= y <= 9999 /\ 1 <= m <= 12).
Proof.
  split.
  - intros Hn [Hy Hm]. by rewrite make_date_first in Hn.
  - intros Hno. unfold make_date.
    destruct (Z.leb_spec 1 y); [|done]. destruct (Z.leb_spec y 9999); [|done].
    destruct (Z.leb_spec 1 m); [|done]. destruct (Z.leb_spec m 12); [|done]. lia.
Qed.

Lemma date_leb_spec a b :
  date_leb a b = true
  <-> ~ (year b < year a
         \/ (year b = year a
             /\ (month b < month a \/ (month b = month a /\ day b < day a)))).
Proof.
  unfold date_leb. rewrite <- date_compare_Lt, <- date_compare_Gt.
  by destruct (date_compare a b).
Qed.

Lemma date_ltb_spec a b :
  date_ltb a b = true
  <-> year a < year b
      \/ (year a = year b
          /\ (month a < month b \/ (month a = month b /\ day a < day b))).
Proof.
  unfold date_ltb. rewrite <- date_compare_Lt. by destruct (date_compare a b).
Qed.

(** X13. The window of a month.  [month_bounds] raises exactly when the year
    is outside 1..9999, the month outside 1..12, or the month is December
    9999 (whose end, 1 January 10000, is no date).  Otherwise the window
    [start <= d < end] holds, of the dates of the calendar, exactly those of
    that year and month -- December included, where the end is in the next
    year. *)
Theorem month_window y m :
  (month_bounds y m = None
   <-> ~ (1 <= y <= 9999 /\ 1 <= m <= 12) \/ (y = 9999 /\ m = 12))
  /\ (forall b d, month_bounds y m = Some b -> valid_date d ->
                  (in_range b d = true <-> year d = y /\ month d = m)).
Proof.
  unfold month_bounds. split.
  - destruct (make_date y m 1) as [s|] eqn:Hs.
    + assert (Hv : 1 <= y <= 9999 /\ 1 <= m <= 12).
      { destruct (decide (1 <= y <= 9999 /\ 1 <= m <= 12)) as [Hv|Hv]; [done|].
        apply make_date_first_None in Hv. congruence. }
      destruct (Z.eqb_spec m 12) as [->|Hne].
      * destruct (make_date (y + 1) 1 1) as [e|] eqn:He.
        -- split; [done|]. intros [Hno|[-> _]]; [tauto|].
           by vm_compute in He.
        -- split; [|done]. intros _. right. split; [|done].
           apply make_date_first_None in He. lia.
      * rewrite make_date_first by lia. split; [done|]. intros [Hno|[_ ->]]; tauto.
    + split; [|done]. intros _. left. by apply make_date_first_None.
  - intros b d Hb (Hdy & Hdm & Hdd).
    destruct (make_date y m 1) as [s|] eqn:Hs; [|done].
    assert (Hv : 1 <= y <= 9999 /\ 1 <= m <= 12).
    { destruct (decide (1 <= y <= 9999 /\ 1 <= m <= 12)) as [Hv|Hv]; [done|].
      apply make_date_first_None in Hv. congruence. }
    rewrite make_date_first in Hs by tauto. injection Hs as <-.
    unfold in_range. rewrite andb_true_iff, date_leb_spec, date_ltb_spec.
    destruct (Z.eqb_spec m 12) as [->|Hne].
    + destruct (make_date (y + 1) 1 1) as [e|] eqn:He; [|done].
      assert (Hy : 1 <= y + 1 <= 9999).
      { destruct (decide (1 <= y + 1 <= 9999 /\ 1 <= 1 <= 12)) as [Hv'|Hv']; [tauto|].
        apply make_date_first_None in Hv'. congruence. }
      rewrite make_date_first in He by lia. injection He as <-. injection Hb as <-.
      simpl. lia.
    + rewrite make_date_first in Hb by lia. injection Hb as <-. simpl. lia.
Qed.

Lemma dict_update_entries (P : day_entry -> Prop) k g data :
  P zero_entry -> (forall e, P e -> P (g e)) ->
  (forall d e, dict_get d data = Some e -> P e) ->
  forall d e, dict_get d (dict_update k g data) = Some e -> P e.
Proof.
  intros Hz Hg Hdata d e. rewrite dict_update_get.
  destruct (date_eqb k d); [|apply Hdata].
  intros [= <-]. apply Hg. unfold entry_at.
  destruct (dict_get k data) as [e0|] eqn:He; simpl; [by eapply Hdata|done].
Qed.

Lemma fold_add_usage_adds_up us data :
  (forall d e, dict_get d data = Some e -> entry_adds_up e) ->
  forall d e, dict_get d (fold_left add_usage us data) = Some e -> entry_adds_up e.
Proof.
  revert data. induction us as [|u us IH]; intros data Hdata; cbn [fold_left]; [done|].
  apply IH. rewrite add_usage_update. apply dict_update_entries; [|  |done].
  - unfold entry_adds_up. simpl. lia.
  - unfold entry_adds_up. simpl. intros e [H1 H2]. lia.
Qed.

Lemma fold_add_waste_adds_up evs data :
  (forall d e, dict_get d data = Some e -> entry_adds_up e) ->
  forall d e, dict_get d (fold_left add_waste evs data) = Some e -> entry_adds_up e.
Proof.
  revert data. induction evs as [|ev evs IH]; intros data Hdata; cbn [fold_left]; [done|].
  apply IH. rewrite add_waste_update.
  destruct (Z.ltb_spec 0 (total_waste ev)); [|done].
  apply dict_update_entries; [|  |done].
  - unfold entry_adds_up. simpl. lia.
  - unfold entry_adds_up. simpl. intros e [H1 H2]. lia.
Qed.

(** X14. In the dict [monthly_stats] returns, the waste of every day is not
    negative (an event whose waste is zero or negative is not booked),
    whatever the database holds; and when the costs and wastes of the ledger
    are whole numbers whose magnitudes add up to at most [2^53] (so that
    binary64 adds them exactly, in any order), every day has
    [total = usage + waste]. *)
Theorem monthly_stats_totals_add_up st y m data d e :
  monthly_stats st y m = Some data -> dict_get d data = Some e ->
  0 <= entry_waste e
  /\ (value_magnitude st <= exact_range ->
      entry_total e = entry_usage e + entry_waste e).
Proof.
  unfold monthly_stats. destruct (month_bounds y m) as [b|]; [|done].
  intros [= <-] He.
  assert (H : entry_adds_up e)
    by (revert He; apply fold_add_waste_adds_up, fold_add_usage_adds_up; done).
  destruct H as [H1 H2]. by split.
Qed.

Lemma monthly_stats_totals_add_up_witness :
  monthly_stats (run [OpCook day2 "dinner" [mkCookItem 1 13 "std"]] (two_batches true))
    2024 1 = Some [(day2, mkEntry 29 0 29)]
  /\ dict_get day2 [(day2, mkEntry 29 0 29)] = Some (mkEntry 29 0 29)
  /\ value_magnitude
       (run [OpCook day2 "dinner" [mkCookItem 1 13 "std"]] (two_batches true))
     <= exact_range
  /\ entry_total (mkEntry 29 0 29)
     = entry_usage (mkEntry 29 0 29) + entry_waste (mkEntry 29 0 29).
Proof.
  assert (H1 : monthly_stats
                 (run [OpCook day2 "dinner" [mkCookItem 1 13 "std"]] (two_batches true))
                 2024 1 = Some [(day2, mkEntry 29 0 29)]) by reflexivity.
  assert (H2 : dict_get day2 [(day2, mkEntry 29 0 29)] = Some (mkEntry 29 0 29))
    by reflexivity.
  assert (H3 : value_magnitude
                 (run [OpCook day2 "dinner" [mkCookItem 1 13 "std"]] (two_batches true))
               <= exact_range) by (by vm_compute).
  split; [exact H1|]. split; [exact H2|]. split; [exact H3|].
  exact (proj2 (monthly_stats_totals_add_up _ 2024 1 _ day2 _ H1 H2) H3).
Defined.

(** ** The inventory page *)

Lemma expiry_leb_total nf p q : expiry_leb nf p q = false -> expiry_leb nf q p = true.
Proof.
  unfold expiry_leb. rewrite (expiry_compare_antisym nf (expiry_date p)).
  by destruct (expiry_compare nf (expiry_date p) (expiry_date q)).
Qed.

Lemma expiry_leb_trans nf p q r :
  expiry_leb nf p q = true -> expiry_leb nf q r = true -> expiry_leb nf p r = true.
Proof.
  unfold expiry_leb.
  pose proof (expiry_compare_trans nf (expiry_date p) (expiry_date q) (expiry_date r)) as T.
  destruct (expiry_compare nf (expiry_date p) (expiry_date q)),
    (expiry_compare nf (expiry_date q) (expiry_date r)); try done;
    destruct (expiry_compare nf (expiry_date p) (expiry_date r)); try done;
    intros _ _; exfalso; by apply T.
Qed.

(** X15. The inventory page lists the batches in stock -- every batch with a
    positive remaining quantity, under its key, once, and no other -- in the
    order of their expiry dates (batches without one first or last, as the
    engine sorts NULL). *)
Theorem inventory_lists_stock st :
  (forall i p, In (i, p) (inventory st)
               <-> table_get i (purchases st) = Some p /\ 0 < remaining_quantity p)
  /\ List.NoDup (map fst (inventory st))
  /\ StronglySorted
       (fun r r' => expiry_compare (nulls_first st) (expiry_date (snd r))
                                   (expiry_date (snd r')) <> Gt)
       (inventory st).
Proof.
  unfold inventory. split; [|split].
  - intros i p. rewrite In_query_rows. simpl. by rewrite Z.ltb_lt.
  - apply NoDup_keys_query_rows.
  - assert (Hs : StronglySorted
                   (fun r r' => expiry_leb (nulls_first st) (snd r) (snd r') = true)
                   (query_rows (fun r => 0 <? remaining_quantity (snd r))
                      (expiry_leb (nulls_first st)) (purchases st))).
    { apply Sorted_StronglySorted; [intros r1 r2 r3; apply expiry_leb_trans|].
      apply order_by_Sorted, expiry_leb_total. }
    induction Hs as [|r rows Hs IH Hall]; constructor; [done|].
    revert Hall. apply List.Forall_impl. intros r'. unfold expiry_leb.
    by destruct (expiry_compare _ _ _).
Qed.

(** ** The books: value on hand, used, wasted, bought *)

Lemma asset_of_priced p :
  priced_stock p -> asset_of p = remaining_quantity p * cost_per_unit p.
Proof.
  unfold asset_of. intros [H|H]; destruct (Z.ltb_spec 0 (remaining_quantity p));
    try reflexivity; [|rewrite H; lia].
  replace (remaining_quantity p) with 0 by lia. lia.
Qed.

Lemma fresh_batch_priced eid d it p : fresh_batch eid d it p -> priced_stock p.
Proof.
  intros (_ & Hr & _ & _ & Hc & _). unfold priced_stock. rewrite Hr, Hc.
  destruct (Z.ltb_spec 0 (item_qty it)); [left; lia|by right].
Qed.

Lemma calculate_fifo_cost_priced st ing needed :
  Forall priced_stock (purchases st) ->
  Forall priced_stock (purchases (snd (calculate_fifo_cost st ing needed))).
Proof.
  destruct (table_get ing (ingredients st)) as [x|] eqn:Hx;
    [|by rewrite calculate_fifo_cost_unknown].
  rewrite calculate_fifo_cost_flush by (rewrite Hx; eauto). simpl.
  pose proof (fifo_query_snapshot st ing) as Hs.
  intros Ht. apply flush_Forall; [done|].
  eapply (add_to_rows_Forall priced_stock
            (fun p a => - remaining_quantity p <= a <= 0)).
  - unfold priced_stock. simpl. lia.
  - apply fifo_takes_bounds. eapply Forall_impl; [apply fifo_query_positive|].
    simpl. lia.
  - by apply (snapshot_Forall _ _ _ Hs).
Qed.

Lemma step_priced st o :
  no_reversal o ->
  Forall priced_stock (purchases st) -> Forall priced_stock (purchases (step st o)).
Proof.
  destruct o as [d pl items|d meal items|pid a|pid s|uid]; unfold step; cbn [handle];
    intros Hr Ht; [| | | |done].
  - destruct (purchase_tables st d pl items) as (news & -> & Hf & _).
    apply Forall_app. split; [done|]. clear -Hf.
    induction Hf as [|it p items news Hp _ IH]; constructor; [|done].
    by eapply fresh_batch_priced.
  - unfold cook. cbn [snd]. clear Hr. revert st Ht.
    induction items as [|item items IH]; intros st Ht; [done|].
    cbn [fold_left]. apply IH. rewrite cook_item_step_purchases.
    by apply calculate_fifo_cost_priced.
  - destruct (discard_item_purchases st pid a) as [->|(p & Hp & Hle & ->)]; [done|].
    apply Forall_table_set; [done|]. unfold priced_stock. simpl. lia.
  - destruct (update_purchase_status_purchases st pid s) as [->|(p & Hp & ->)]; [done|].
    apply Forall_table_set; [done|]. unfold priced_stock. simpl. lia.
Qed.

Lemma step_names_event st o :
  Forall names_event (purchases st) -> Forall names_event (purchases (step st o)).
Proof.
  apply step_batch_invariant.
  - intros n d it p (_ & _ & _ & _ & _ & _ & _ & He & _). by exists n.
  - intros p p' Hw [k Hk]. exists k.
    destruct (batch_write_same p p' Hw) as (_ & _ & _ & _ & _ & He). congruence.
Qed.

Lemma table_sum_extends (f : Purchase -> Z) t t' :
  table_extends t t' -> length t' = length t ->
  (forall p p', same_batch p p' -> f p' = f p) ->
  table_sum f t' = table_sum f t.
Proof.
  intros Hext Hlen Hf. unfold table_sum. f_equal. apply list_eq. intros i.
  rewrite !list_lookup_fmap. destruct (t !! i) as [p|] eqn:Hp.
  - destruct (Hext (S i) p Hp) as (p' & Hp' & Hs). simpl in Hp'. rewrite Hp'. simpl.
    f_equal. by apply Hf.
  - apply lookup_ge_None in Hp. rewrite (proj2 (lookup_ge_None t' i)); [done|lia].
Qed.

Lemma step_purchased_value st o :
  no_reversal o ->
  match o with
  | OpPurchase _ _ _ => True
  | _ => purchased_value (step st o) = purchased_value st
  end.
Proof.
  intros Hr. pose proof (step_length_purchases st o) as Hlen.
  pose proof (step_extends st o) as Hext.
  destruct o; [done| | | |done]; unfold purchased_value;
    (apply table_sum_extends; [done|done|]);
    intros p p' (_ & _ & -> & -> & _); done.
Qed.

Lemma cumulative_waste_sum st :
  cumulative_waste st = table_sum total_waste (shopping_events st).
Proof. reflexivity. Qed.

Lemma fresh_batches_value eid d items news :
  Forall2 (fresh_batch eid d) items news ->
  table_sum asset_of news = table_sum (fun p => quantity p * cost_per_unit p) news.
Proof.
  unfold table_sum. induction 1 as [|it p items news Hp _ IH]; [done|].
  cbn [map sum_Z foldr]. unfold sum_Z in IH. rewrite IH.
  rewrite (asset_of_priced p) by (by eapply fresh_batch_priced).
  destruct Hp as (-> & -> & _). done.
Qed.

Lemma purchase_book_balance st d pl items :
  book_balance (snd (purchase st d pl items)) = book_balance st.
Proof.
  destruct (purchase_full st d pl items) as (news & extra & _ & Hp & Hf & He & _ & Hu & _).
  unfold book_balance, usage_cost_total, purchased_value.
  rewrite !get_total_asset_value_sum, !cumulative_waste_sum, Hp, He, Hu.
  rewrite !table_sum_app.
  assert (Hfresh : Forall2 (fresh_batch (S (length (shopping_events st))) d) items news).
  { eapply Forall2_impl; [exact Hf|]. by intros it p [? _]. }
  rewrite (fresh_batches_value _ _ _ _ Hfresh). unfold table_sum at 4. simpl. lia.
Qed.

Lemma cook_book_balance st d meal items :
  book_balance (snd (cook st d meal items)) = book_balance st.
Proof.
  pose proof (step_purchased_value st (OpCook d meal items) I) as Hpv.
  unfold step in Hpv. cbn [handle] in Hpv.
  destruct (cook_items_full d meal items st) as (news & Hu & _ & Hc & _).
  destruct (cook_tables st d meal items) as [_ He].
  unfold book_balance, usage_cost_total, cumulative_waste. rewrite Hpv, He.
  rewrite !get_total_asset_value_sum. unfold cook in *. cbn [snd] in *.
  rewrite Hu, map_app, sum_Z_app. lia.
Qed.

Lemma discard_item_book_balance st pid amount :
  Forall priced_stock (purchases st) -> Forall names_event (purchases st) ->
  book_balance (snd (discard_item st pid amount)) = book_balance st.
Proof.
  intros Hpr Hev.
  destruct (table_get pid (purchases st)) as [p|] eqn:Hp;
    [|unfold discard_item; by rewrite Hp].
  destruct (Z.lt_ge_cases (remaining_quantity p) (default (remaining_quantity p) amount))
    as [Hlt|Hle].
  { by rewrite (discard_item_rejects st pid p amount Hp Hlt). }
  rewrite (discard_item_eq st pid p amount Hp Hle).
  set (a := default (remaining_quantity p) amount) in *. cbv zeta.
  pose proof (elem_of_table_get _ _ _ Hp) as Hin.
  assert (Hpp : priced_stock p) by (by eapply List.Forall_forall in Hpr).
  assert (Hpe : names_event p) by (by eapply List.Forall_forall in Hev).
  destruct Hpe as [k Hk]. rewrite Hk. cbn [truthy_id].
  destruct (table_get (S k) (shopping_events st)) as [e|] eqn:He; [|done].
  cbn [snd]. unfold book_balance, usage_cost_total, purchased_value.
  rewrite !get_total_asset_value_sum, !cumulative_waste_sum.
  cbn [with_events with_purchases purchases shopping_events usages].
  rewrite (table_sum_set _ _ _ _ _ Hp), (table_sum_set _ _ _ _ _ Hp),
    (table_sum_set _ _ _ _ _ He).
  rewrite (asset_of_priced p Hpp), (asset_of_priced (after_discard p a))
    by (unfold priced_stock; simpl; lia).
  simpl. lia.
Qed.

Lemma update_purchase_status_book_balance st pid s :
  Forall priced_stock (purchases st) -> Forall names_event (purchases st) ->
  book_balance (snd (update_purchase_status st pid s)) = book_balance st.
Proof.
  intros Hpr Hev.
  destruct (table_get pid (purchases st)) as [p|] eqn:Hp;
    [|unfold update_purchase_status; by rewrite Hp].
  destruct (String.eqb s "discarded" && negb (String.eqb (status p) "discarded"))
    eqn:Hc; [|unfold update_purchase_status; by rewrite Hp, Hc].
  apply andb_true_iff in Hc as [Hs Hst]. apply String.eqb_eq in Hs. subst s.
  apply negb_true_iff, String.eqb_neq in Hst.
  rewrite (update_purchase_status_eq st pid p Hp Hst). cbv zeta.
  pose proof (elem_of_table_get _ _ _ Hp) as Hin.
  assert (Hpp : priced_stock p) by (by eapply List.Forall_forall in Hpr).
  assert (Hpe : names_event p) by (by eapply List.Forall_forall in Hev).
  destruct Hpe as [k Hk]. rewrite Hk. cbn [truthy_id].
  destruct (table_get (S k) (shopping_events st)) as [e|] eqn:He; [|done].
  cbn [snd]. unfold book_balance, usage_cost_total, purchased_value.
  rewrite !get_total_asset_value_sum, !cumulative_waste_sum.
  cbn [with_events with_purchases purchases shopping_events usages].
  rewrite (table_sum_set _ _ _ _ _ Hp), (table_sum_set _ _ _ _ _ Hp),
    (table_sum_set _ _ _ _ _ He).
  rewrite (asset_of_priced p Hpp), (asset_of_priced (fully_discarded p))
    by (unfold priced_stock; simpl; lia).
  simpl. lia.
Qed.

Lemma step_book_balance st o :
  no_reversal o ->
  Forall priced_stock (purchases st) -> Forall names_event (purchases st) ->
  book_balance (step st o) = book_balance st.
Proof.
  destruct o as [d pl items|d meal items|pid a|pid s|uid]; unfold step; cbn [handle];
    intros Hr Hpr Hev; [| | | |done].
  - apply purchase_book_balance.
  - apply cook_book_balance.
  - by apply discard_item_book_balance.
  - by apply update_purchase_status_book_balance.
Qed.

(** X16. The books balance.  The numbers of the ledger and of the requests
    are whole and stay within [2^53] in magnitude along the run (the range in
    which binary64 computes with them exactly).  Starting from a database
    without batches, usages and shopping events, after any sequence of
    purchases, meals, discards and status updates -- whatever the signs of
    their quantities -- the value on hand ([get_total_asset_value]), the cost
    of all usages and the cumulative waste of the dashboard add up to what
    the batches cost when they were bought, [quantity * cost_per_unit] over
    all batches. *)
Theorem books_balance ops st :
  empty_ledger st -> Forall no_reversal ops -> exact_along ops st ->
  get_total_asset_value (run ops st) + usage_cost_total (run ops st)
  + cumulative_waste (run ops st)
  = purchased_value (run ops st).
Proof.
  intros (Hp & Hu & He) Hops _.
  assert (H0 : Forall priced_stock (purchases st) /\ Forall names_event (purchases st)
               /\ book_balance st = 0).
  { rewrite Hp. split; [constructor|]. split; [constructor|].
    unfold book_balance, get_total_asset_value, usage_cost_total, cumulative_waste,
      purchased_value. by rewrite Hp, Hu, He. }
  clear Hp Hu He.
  assert (H : book_balance (run ops st) = 0); [|unfold book_balance in H; lia].
  revert st H0. induction Hops as [|o ops Ho _ IH]; intros st (Hpr & Hev & Hb); [done|].
  rewrite run_cons. apply IH. split; [by apply step_priced|].
  split; [by apply step_names_event|]. by rewrite step_book_balance.
Qed.

Lemma books_balance_witness :
  empty_ledger (empty_store true)
  /\ Forall no_reversal
       [OpPurchase day1 "market" [mkItem "milk" 10 "ml" 20 2 None;
                                  mkItem "egg" (-5) "ea" 0 0 None];
        OpCook day2 "dinner" [mkCookItem 1 4 "std"];
        OpDiscard 1 (Some (-3)); OpUpdateStatus 1 "discarded"]
  /\ exact_along
       [OpPurchase day1 "market" [mkItem "milk" 10 "ml" 20 2 None;
                                  mkItem "egg" (-5) "ea" 0 0 None];
        OpCook day2 "dinner" [mkCookItem 1 4 "std"];
        OpDiscard 1 (Some (-3)); OpUpdateStatus 1 "discarded"]
       (empty_store true)
  /\ get_total_asset_value
       (run [OpPurchase day1 "market" [mkItem "milk" 10 "ml" 20 2 None;
                                       mkItem "egg" (-5) "ea" 0 0 None];
             OpCook day2 "dinner" [mkCookItem 1 4 "std"];
             OpDiscard 1 (Some (-3)); OpUpdateStatus 1 "discarded"]
            (empty_store true))
     + usage_cost_total
         (run [OpPurchase day1 "market" [mkItem "milk" 10 "ml" 20 2 None;
                                         mkItem "egg" (-5) "ea" 0 0 None];
               OpCook day2 "dinner" [mkCookItem 1 4 "std"];
               OpDiscard 1 (Some (-3)); OpUpdateStatus 1 "discarded"]
              (empty_store true))
     + cumulative_waste
         (run [OpPurchase day1 "market" [mkItem "milk" 10 "ml" 20 2 None;
                                         mkItem "egg" (-5) "ea" 0 0 None];
               OpCook day2 "dinner" [mkCookItem 1 4 "std"];
               OpDiscard 1 (Some (-3)); OpUpdateStatus 1 "discarded"]
              (empty_store true))
     = 20.
Proof.
  assert (H1 : empty_ledger (empty_store true)) by done.
  assert (H2 : Forall no_reversal
                 [OpPurchase day1 "market" [mkItem "milk" 10 "ml" 20 2 None;
                                            mkItem "egg" (-5) "ea" 0 0 None];
                  OpCook day2 "dinner" [mkCookItem 1 4 "std"];
                  OpDiscard 1 (Some (-3)); OpUpdateStatus 1 "discarded"])
    by (repeat constructor).
  assert (H3 : exact_along
                 [OpPurchase day1 "market" [mkItem "milk" 10 "ml" 20 2 None;
                                            mkItem "egg" (-5) "ea" 0 0 None];
                  OpCook day2 "dinner" [mkCookItem 1 4 "std"];
                  OpDiscard 1 (Some (-3)); OpUpdateStatus 1 "discarded"]
                 (empty_store true))
    by (repeat split; by vm_compute).
  split; [exact H1|]. split; [exact H2|]. split; [exact H3|].
  exact (books_balance _ (empty_store true) H1 H2 H3).
Defined.

(** ** The waste of a shopping event *)

Lemma truthy_id_Some o e : truthy_id o = Some e -> o = Some e /\ e <> 0%nat.
Proof. destruct o as [[|k]|]; simpl; [done| |done]. by intros [= <-]. Qed.

Lemma truthy_id_None o : truthy_id o = None -> o = None \/ o = Some 0%nat.
Proof. destruct o as [[|k]|]; simpl; [by right|done|by left]. Qed.

Lemma table_sum_adjust_remaining (f : Purchase -> Z) delta t :
  (forall p r, f (set_remaining p r) = f p) ->
  table_sum f (adjust_remaining delta t) = table_sum f t.
Proof.
  intros Hf. unfold adjust_remaining. rewrite <- (sum_all_rows f t).
  unfold table_sum. rewrite map_map. f_equal. apply map_ext. intros r. apply Hf.
Qed.

Lemma calculate_fifo_cost_column (f : Purchase -> Z) st ing needed :
  (forall p r, f (set_remaining p r) = f p) ->
  table_sum f (purchases (snd (calculate_fifo_cost st ing needed)))
  = table_sum f (purchases st).
Proof.
  intros Hf. destruct (table_get ing (ingredients st)) as [x|] eqn:Hx.
  - rewrite calculate_fifo_cost_adjust by (rewrite Hx; eauto). simpl.
    by apply table_sum_adjust_remaining.
  - by rewrite calculate_fifo_cost_unknown.
Qed.

Lemma cook_column (f : Purchase -> Z) st d meal items :
  (forall p r, f (set_remaining p r) = f p) ->
  table_sum f (purchases (snd (cook st d meal items))) = table_sum f (purchases st).
Proof.
  intros Hf. unfold cook. cbn [snd]. revert st.
  induction items as [|item items IH]; intros st; [done|].
  cbn [fold_left]. rewrite IH, cook_item_step_purchases.
  by apply calculate_fifo_cost_column.
Qed.

Lemma restored_table_column (f : Purchase -> Z) st ing q :
  (forall p r, f (set_remaining p r) = f p) ->
  table_sum f (restored_table st ing q) = table_sum f (purchases st).
Proof.
  intros Hf. unfold restored_table.
  set (amounts := restore_amounts (restore_query st ing) q).
  set (t1 := flush (add_to_rows (restore_query st ing) amounts) (purchases st)).
  assert (Ht1 : table_sum f t1 = table_sum f (purchases st)).
  { subst t1. rewrite flush_add_to_rows;
      [by apply table_sum_adjust_remaining|apply map_fst_restore_amounts
      |apply restore_query_NoDup|apply restore_query_snapshot]. }
  destruct (0 <? _); [|done].
  destruct (last_purchase_query t1 ing) as [[i lp]|] eqn:Hl; [|done].
  apply last_purchase_query_Some in Hl as [Hl _].
  rewrite (table_sum_set _ _ _ _ _ Hl), Hf. lia.
Qed.

Lemma of_event_set_remaining eid p r :
  of_event eid discarded_cost (set_remaining p r) = of_event eid discarded_cost p.
Proof. reflexivity. Qed.

Lemma of_event_other eid (f : Purchase -> Z) p p' :
  shopping_event_id p' = shopping_event_id p ->
  shopping_event_id p <> Some eid ->
  of_event eid f p' = of_event eid f p.
Proof.
  intros He Hne. unfold of_event. rewrite He.
  destruct (shopping_event_id p) as [e|]; [|done].
  destruct (Nat.eqb_spec e eid); [congruence|done].
Qed.

Lemma of_event_own eid (f : Purchase -> Z) p :
  shopping_event_id p = Some eid -> of_event eid f p = f p.
Proof. intros He. unfold of_event. by rewrite He, Nat.eqb_refl. Qed.

(** Booking a waste [w] on a batch and on its event keeps the events'
    wastes attributed. *)
Lemma book_waste_attributed st pid p p' w ps es :
  table_get pid (purchases st) = Some p ->
  shopping_event_id p' = shopping_event_id p ->
  discarded_cost p' = discarded_cost p + w ->
  ps = table_set pid p' (purchases st) ->
  match truthy_id (shopping_event_id p) with
  | None => es = shopping_events st
  | Some eid0 =>
      exists e0, table_get eid0 (shopping_events st) = Some e0
                 /\ es = table_set eid0 (set_total_waste e0 (total_waste e0 + w))
                           (shopping_events st)
  end ->
  waste_attributed st ->
  forall eid e, table_get eid es = Some e ->
                total_waste e = table_sum (of_event eid discarded_cost) ps.
Proof.
  intros Hp Hid Hdc -> Hes Hw eid e He.
  rewrite (table_sum_set _ _ _ _ _ Hp). fold (event_waste st eid).
  destruct (truthy_id (shopping_event_id p)) as [eid0|] eqn:Ht.
  - destruct Hes as (e0 & He0 & ->). apply truthy_id_Some in Ht as [Ht _].
    destruct (decide (eid0 = eid)) as [->|Hne].
    + rewrite table_get_set_eq in He by (rewrite He0; eauto). injection He as <-.
      rewrite !of_event_own by congruence. cbn [set_total_waste total_waste].
      rewrite (Hw eid e0 He0). lia.
    + rewrite table_get_set_ne in He by done.
      rewrite (of_event_other eid _ p p') by congruence.
      rewrite (Hw eid e He). lia.
  - subst es. rewrite (of_event_other eid _ p p'); [rewrite (Hw eid e He); lia|done|].
    apply table_get_lt in He.
    destruct (truthy_id_None _ Ht) as [->| ->]; [done|]. intros [= <-]. lia.
Qed.

Lemma discard_item_attributed st pid amount :
  waste_attributed st -> waste_attributed (snd (discard_item st pid amount)).
Proof.
  intros Hw.
  destruct (table_get pid (purchases st)) as [p|] eqn:Hp;
    [|unfold discard_item; by rewrite Hp].
  destruct (Z.lt_ge_cases (remaining_quantity p) (default (remaining_quantity p) amount))
    as [Hlt|Hle].
  { by rewrite (discard_item_rejects st pid p amount Hp Hlt). }
  rewrite (discard_item_eq st pid p amount Hp Hle).
  set (a := default (remaining_quantity p) amount) in *. cbv zeta.
  destruct (truthy_id (shopping_event_id p)) as [eid0|] eqn:Ht.
  - destruct (table_get eid0 (shopping_events st)) as [e0|] eqn:He0; [|done].
    cbn [snd]. intros eid e He. unfold event_waste.
    cbn [with_events with_purchases purchases shopping_events] in *.
    eapply (book_waste_attributed st pid p (after_discard p a) (a * cost_per_unit p));
      try done.
    rewrite Ht. eauto.
  - cbn [snd]. intros eid e He. unfold event_waste.
    cbn [with_events with_purchases purchases shopping_events] in *.
    eapply (book_waste_attributed st pid p (after_discard p a) (a * cost_per_unit p));
      try done.
    by rewrite Ht.
Qed.

Lemma update_purchase_status_attributed st pid s :
  waste_attributed st -> waste_attributed (snd (update_purchase_status st pid s)).
Proof.
  intros Hw.
  destruct (table_get pid (purchases st)) as [p|] eqn:Hp;
    [|unfold update_purchase_status; by rewrite Hp].
  destruct (String.eqb s "discarded" && negb (String.eqb (status p) "discarded"))
    eqn:Hc; [|unfold update_purchase_status; by rewrite Hp, Hc].
  apply andb_true_iff in Hc as [Hs Hst]. apply String.eqb_eq in Hs. subst s.
  apply negb_true_iff, String.eqb_neq in Hst.
  rewrite (update_purchase_status_eq st pid p Hp Hst). cbv zeta.
  destruct (truthy_id (shopping_event_id p)) as [eid0|] eqn:Ht.
  - destruct (table_get eid0 (shopping_events st)) as [e0|] eqn:He0; [|done].
    cbn [snd]. intros eid e He. unfold event_waste.
    cbn [with_events with_purchases purchases shopping_events] in *.
    eapply (book_waste_attributed st pid p (fully_discarded p)
              (remaining_quantity p * cost_per_unit p)); try done.
    rewrite Ht. eauto.
  - cbn [snd]. intros eid e He. unfold event_waste.
    cbn [with_events with_purchases purchases shopping_events] in *.
    eapply (book_waste_attributed st pid p (fully_discarded p)
              (remaining_quantity p * cost_per_unit p)); try done.
    by rewrite Ht.
Qed.

Lemma purchase_attributed st d pl items :
  events_resolve st -> waste_attributed st ->
  waste_attributed (snd (purchase st d pl items)).
Proof.
  intros Hres Hw eid e He.
  destruct (purchase_full st d pl items) as (news & extra & _ & Hp & Hf & Hes & _).
  rewrite Hes in He. unfold event_waste. rewrite Hp, table_sum_app.
  assert (Hnews : table_sum (of_event eid discarded_cost) news = 0).
  { clear -Hf. unfold table_sum.
    induction Hf as [|it p its news [Hp _] _ IH]; [done|].
    cbn [map sum_Z foldr]. unfold sum_Z in IH. rewrite IH.
    destruct Hp as (_ & _ & _ & Hc & _). unfold of_event. rewrite Hc.
    destruct (shopping_event_id p) as [k|]; [by destruct (Nat.eqb k eid)|done]. }
  rewrite Hnews, Z.add_0_r. destruct eid as [|eid]; [done|]. simpl in He.
  apply lookup_app_Some in He as [Hold|[Hge Hnew]].
  - by apply (Hw (S eid) e).
  - apply list_lookup_singleton_Some in Hnew as [Hi <-]. cbn [total_waste].
    symmetry. unfold table_sum.
    assert (Hz : forall p, In p (purchases st) -> of_event (S eid) discarded_cost p = 0).
    { intros p Hin. apply table_get_of_In in Hin as [i Hi'].
      specialize (Hres i p Hi'). unfold event_resolves in Hres. unfold of_event.
      destruct (shopping_event_id p) as [[|k]|]; simpl in *; try done.
      destruct (Nat.eqb_spec k eid) as [->|]; [|done].
      apply lookup_lt_is_Some in Hres. lia. }
    clear -Hz. induction (purchases st) as [|q t IH]; [done|].
    cbn [map sum_Z foldr]. rewrite Hz by (by left).
    unfold sum_Z in IH. rewrite IH; [done|]. intros p Hin. apply Hz. by right.
Qed.

Lemma step_attributed st o :
  events_resolve st -> waste_attributed st -> waste_attributed (step st o).
Proof.
  destruct o as [d pl items|d meal items|pid a|pid s|uid]; unfold step; cbn [handle];
    intros Hres Hw.
  - by apply purchase_attributed.
  - intros eid e He. destruct (cook_tables st d meal items) as [_ Hes].
    rewrite Hes in He. unfold event_waste.
    rewrite cook_column by apply of_event_set_remaining. by apply Hw.
  - by apply discard_item_attributed.
  - by apply update_purchase_status_attributed.
  - destruct (get_usage uid (usages st)) as [u|] eqn:Hu.
    + rewrite (api_delete_usage_eq _ _ _ Hu). cbn [snd]. intros eid e He.
      unfold event_waste. cbn [with_usages with_purchases purchases shopping_events] in *.
      rewrite restored_table_column by apply of_event_set_remaining. by apply Hw.
    + by rewrite api_delete_usage_unknown.
Qed.

Lemma run_attributed ops st :
  empty_ledger st -> waste_attributed (run ops st).
Proof.
  intros Hst. induction ops as [|o ops IH] using rev_ind.
  - destruct Hst as (_ & _ & He). intros eid e Hg. simpl in Hg. rewrite He in Hg.
    by destruct eid.
  - rewrite run_app. simpl. apply step_attributed; [|done].
    by apply run_events_resolve.
Qed.

(** ** The ingredients of the batches, and the detail of a shopping event *)

Lemma discard_item_ingredients st pid amount :
  ingredients (snd (discard_item st pid amount)) = ingredients st.
Proof.
  unfold discard_item. destruct (table_get pid (purchases st)); [|done].
  destruct (_ <? _); [done|]. destruct (truthy_id _); [|done]. simpl.
  by destruct (table_get _ _).
Qed.

Lemma update_purchase_status_ingredients st pid s :
  ingredients (snd (update_purchase_status st pid s)) = ingredients st.
Proof.
  unfold update_purchase_status. destruct (table_get pid (purchases st)); [|done].
  destruct (_ && _); [|done]. destruct (truthy_id _); [|done]. simpl.
  by destruct (table_get _ _).
Qed.

Lemma step_ingredients_resolve st o :
  ingredients_resolve st -> ingredients_resolve (step st o).
Proof.
  intros Hst.
  assert (Hsame : ingredients (step st o) = ingredients st ->
                  length (purchases (step st o)) = length (purchases st) ->
                  ingredients_resolve (step st o)).
  { intros Hi Hlen i p' Hp'. rewrite Hi.
    destruct (table_extends_same_length _ _ i p' (step_extends st o) Hlen Hp')
      as (p & Hp & (-> & _)). by apply (Hst i). }
  pose proof (step_length_purchases st o) as Hlen.
  destruct o as [d pl items|d meal items|pid a|pid s|uid]; unfold step in *;
    cbn [handle] in *.
  - destruct (purchase_full st d pl items) as (news & extra & _ & Hp & Hf & _ & Hi & _).
    intros i p' Hp'. rewrite Hp in Hp'. destruct i as [|i]; [done|]. simpl in Hp'.
    apply lookup_app_Some in Hp' as [Hold|[_ Hnew]].
    + rewrite Hi. destruct (Hst (S i) p' Hold) as [g Hg]. exists g.
      by apply table_get_app_l.
    + destruct (Forall2_lookup_r _ _ _ _ _ Hf Hnew) as (it & _ & _ & g & Hg & _). eauto.
  - apply Hsame; [|done].
    by destruct (cook_items_full d meal items st) as (news & _ & _ & _ & Hi & _).
  - apply Hsame; [apply discard_item_ingredients|done].
  - apply Hsame; [apply update_purchase_status_ingredients|done].
  - apply Hsame; [|done]. destruct (get_usage uid (usages st)) as [u|] eqn:Hu.
    + by rewrite (api_delete_usage_eq _ _ _ Hu).
    + by rewrite api_delete_usage_unknown.
Qed.

Lemma run_ingredients_resolve ops st :
  empty_ledger st -> ingredients_resolve (run ops st).
Proof.
  intros Hst. induction ops as [|o ops IH] using rev_ind.
  - destruct Hst as (Hp & _). intros i p Hg. simpl in Hg. rewrite Hp in Hg.
    by destruct i.
  - rewrite run_app. simpl. by apply step_ingredients_resolve.
Qed.

Lemma detail_fold st rows acc :
  Forall (fun r => is_Some (table_get (ingredient_id (snd r)) (ingredients st))) rows ->
  exists items,
    fold_left (detail_step st) rows (Some acc) = Some (acc ++ items)
    /\ Forall2 (shows_batch st) rows items.
Proof.
  revert acc. induction rows as [|r rows IH]; intros acc Hr; cbn [fold_left].
  - exists []. rewrite app_nil_r. split; [done|constructor].
  - apply Forall_cons in Hr as [[g Hg] Hr]. unfold detail_step at 2. rewrite Hg.
    destruct (IH (acc ++ [mkDetailItem (fst r) (name g) (quantity (snd r))
                            (remaining_quantity (snd r))
                            (quantity (snd r) * cost_per_unit (snd r))
                            (discarded_cost (snd r)) (status (snd r))]) Hr)
      as (items & Hfold & Hf).
    eexists (_ :: items). rewrite Hfold, <- app_assoc. split; [reflexivity|].
    constructor; [|done]. unfold shows_batch. simpl. eauto 10.
Qed.

Lemma In_event_purchases st eid i p :
  In (i, p) (event_purchases st eid)
  <-> table_get i (purchases st) = Some p /\ shopping_event_id p = Some eid.
Proof.
  unfold event_purchases. rewrite List.filter_In, In_all_rows. simpl.
  destruct (shopping_event_id p) as [e|]; [|split; [by intros [_ ?]|by intros [_ ?]]].
  destruct (Nat.eqb_spec e eid) as [->|Hne]; [tauto|].
  split; [by intros [_ ?]|]. intros [_ [= ?]]. done.
Qed.

Lemma event_purchases_waste st eid :
  sum_Z (map (fun r => discarded_cost (snd r)) (event_purchases st eid))
  = event_waste st eid.
Proof.
  unfold event_purchases, event_waste. rewrite sum_filter_rows.
  rewrite <- (sum_all_rows (of_event eid discarded_cost)). f_equal.
  apply map_ext. intros [i p]. unfold of_event. simpl.
  by destruct (shopping_event_id p).
Qed.

(** X17. The detail of a shopping event is consistent.  In every state
    reached from a database without batches, usages and events,
    [api_shopping_event_detail] answers the empty object for a key that is no
    event and otherwise never fails: it shows the event with one item per
    batch of the event, each with the batch's ingredient name,
    quantity, remaining quantity, price [quantity * cost_per_unit], waste
    cost and status.  When the numbers of the ledger and of the requests are
    whole and stay within [2^53] in magnitude along the run (the range in
    which binary64 computes with them exactly), the event's [total_waste] is
    the sum of the waste costs of its items. *)
Theorem event_detail_is_consistent ops st eid :
  empty_ledger st ->
  match table_get eid (shopping_events (run ops st)) with
  | None => api_shopping_event_detail (run ops st) eid = detail_empty
  | Some e =>
      exists items,
        api_shopping_event_detail (run ops st) eid
        = detail_of (mkEventDetail eid (event_date e) (total_cost e) (total_waste e)
                                   items)
        /\ Forall2 (shows_batch (run ops st)) (event_purchases (run ops st) eid) items
        /\ (forall i p, In (i, p) (event_purchases (run ops st) eid)
                        <-> table_get i (purchases (run ops st)) = Some p
                            /\ shopping_event_id p = Some eid)
        /\ (exact_along ops st -> total_waste e = sum_Z (map di_waste_cost items))
  end.
Proof.
  intros Hst. pose proof (run_attributed ops st Hst) as Hw.
  pose proof (run_ingredients_resolve ops st Hst) as Hres.
  set (st' := run ops st) in *. unfold api_shopping_event_detail.
  destruct (table_get eid (shopping_events st')) as [e|] eqn:He; [|done].
  destruct (detail_fold st' (event_purchases st' eid) []) as (items & Hfold & Hf).
  { apply List.Forall_forall. intros [i p] Hin.
    apply In_event_purchases in Hin as [Hp _]. by apply (Hres i). }
  rewrite Hfold. exists items. split; [done|]. split; [done|].
  split; [apply In_event_purchases|]. intros _.
  rewrite (Hw eid e He), <- event_purchases_waste. f_equal.
  clear -Hf. induction Hf as [|r it rows items Hr _ IH]; [done|].
  cbn [map]. rewrite IH. f_equal. by destruct Hr as (_ & _ & _ & _ & _ & -> & _).
Qed.

Lemma event_detail_is_consistent_witness :
  empty_ledger (empty_store true)
  /\ match table_get 1%nat
             (shopping_events (run [OpPurchase day1 "market"
                                      [mkItem "milk" 10 "ml" 20 2 None];
                                    OpDiscard 1 (Some 4)] (empty_store true))) with
     | None => True
     | Some e =>
         exists items,
           api_shopping_event_detail
             (run [OpPurchase day1 "market" [mkItem "milk" 10 "ml" 20 2 None];
                   OpDiscard 1 (Some 4)] (empty_store true)) 1
           = detail_of (mkEventDetail 1 (event_date e) (total_cost e) (total_waste e)
                                      items)
           /\ total_waste e = sum_Z (map di_waste_cost items)
     end.
Proof.
  assert (H : empty_ledger (empty_store true)) by done.
  assert (H' : exact_along
                 [OpPurchase day1 "market" [mkItem "milk" 10 "ml" 20 2 None];
                  OpDiscard 1 (Some 4)] (empty_store true))
    by (repeat split; by vm_compute).
  split; [exact H|].
  pose proof (event_detail_is_consistent
                [OpPurchase day1 "market" [mkItem "milk" 10 "ml" 20 2 None];
                 OpDiscard 1 (Some 4)] (empty_store true) 1 H) as Hd.
  destruct (table_get 1%nat _) as [e|]; [|exact I].
  destruct Hd as (items & H1 & _ & _ & H4). exists items.
  split; [exact H1|exact (H4 H')].
Defined.

(** ** Days left: [get_expiring_items] *)

Lemma days_before_year_succ y :
  days_before_year (y + 1) = days_before_year y + 365 + (if is_leap y then 1 else 0).
Proof.
  unfold days_before_year, is_leap.
  replace (y + 1 - 1) with y by lia.
  destruct (Z.eqb_spec (y mod 4) 0), (Z.eqb_spec (y mod 100) 0),
    (Z.eqb_spec (y mod 400) 0); simpl; Z.div_mod_to_equations; lia.
Qed.

Lemma days_before_year_mono y y' : y <= y' -> days_before_year y <= days_before_year y'.
Proof. unfold days_before_year. intros H. Z.div_mod_to_equations. lia. Qed.

Lemma day_of_year_bounds d :
  valid_date d ->
  1 <= days_before_month (year d) (month d) + day d
    <= 365 + (if is_leap (year d) then 1 else 0).
Proof.
  intros (Hy & Hm & Hd). unfold days_before_month, days_in_month in *.
  assert (month d = 1 \/ month d = 2 \/ month d = 3 \/ month d = 4 \/ month d = 5
          \/ month d = 6 \/ month d = 7 \/ month d = 8 \/ month d = 9 \/ month d = 10
          \/ month d = 11 \/ month d = 12) as Hc by lia.
  repeat (destruct Hc as [Hc|Hc]); rewrite Hc in *; simpl;
    destruct (is_leap (year d)); simpl; lia.
Qed.

Lemma days_before_month_mono y m m' :
  1 <= m -> m < m' -> m' <= 12 ->
  days_before_month y m + days_in_month y m <= days_before_month y m'.
Proof.
  intros H1 H2 H3. unfold days_before_month, days_in_month.
  assert (m = 1 \/ m = 2 \/ m = 3 \/ m = 4 \/ m = 5 \/ m = 6 \/ m = 7 \/ m = 8
          \/ m = 9 \/ m = 10 \/ m = 11) as Hc by lia.
  assert (m' = 2 \/ m' = 3 \/ m' = 4 \/ m' = 5 \/ m' = 6 \/ m' = 7 \/ m' = 8
          \/ m' = 9 \/ m' = 10 \/ m' = 11 \/ m' = 12) as Hc' by lia.
  repeat (destruct Hc as [Hc|Hc]); subst m;
    repeat (destruct Hc' as [Hc'|Hc']); subst m'; try lia; simpl;
    destruct (is_leap y); simpl; lia.
Qed.

(** Later dates have greater ordinals. *)
Lemma toordinal_lt a b :
  valid_date a -> valid_date b -> date_compare a b = Lt -> toordinal a < toordinal b.
Proof.
  intros Ha Hb Hlt. apply date_compare_Lt in Hlt. unfold toordinal.
  pose proof (day_of_year_bounds a Ha) as Hda.
  pose proof (day_of_year_bounds b Hb) as Hdb.
  destruct Hlt as [Hy|[Hy [Hm|[Hm Hd]]]].
  - pose proof (days_before_year_succ (year a)) as Hs.
    pose proof (days_before_year_mono (year a + 1) (year b)) as Hmono. lia.
  - destruct Ha as (_ & Hma & Hdya), Hb as (_ & Hmb & Hdyb). rewrite <- Hy in *.
    pose proof (days_before_month_mono (year a) (month a) (month b)) as Hmono. lia.
  - rewrite Hy, Hm. lia.
Qed.

Lemma days_between_nonneg a b :
  valid_date a -> valid_date b -> (0 <= days_between a b <-> date_leb b a = true).
Proof.
  intros Ha Hb. unfold days_between, date_leb.
  destruct (date_compare b a) eqn:Hc.
  - apply date_compare_eq in Hc. subst. split; [done|lia].
  - pose proof (toordinal_lt b a Hb Ha Hc). split; [done|lia].
  - apply date_compare_Gt in Hc. pose proof (toordinal_lt a b Ha Hb Hc).
    split; [lia|done].
Qed.

Lemma expiring_fold st today days rows acc :
  Forall (fun r => is_Some (table_get (ingredient_id (snd r)) (ingredients st))) rows ->
  fold_left (expiring_step st today days) rows (Some acc)
  = Some (acc ++ flat_map (expiring_of st today days) rows).
Proof.
  revert acc. induction rows as [|r rows IH]; intros acc Hr; cbn [fold_left flat_map].
  - by rewrite app_nil_r.
  - apply Forall_cons in Hr as [[g Hg] Hr].
    assert (Hstep : expiring_step st today days (Some acc) r
                    = Some (acc ++ expiring_of st today days r)).
    { unfold expiring_step, expiring_of. rewrite Hg.
      destruct (expiry_date (snd r)) as [e|]; [|by rewrite app_nil_r].
      destruct (_ && _); [done|by rewrite app_nil_r]. }
    rewrite Hstep, IH by done. by rewrite <- app_assoc.
Qed.

(** X18. [get_expiring_items] lists the batches about to expire.  When the
    ingredient of every batch is in the database the call does not fail, and
    an item is listed exactly for the batches in stock that have an expiry
    date with [0 <= (expiry_date - today).days <= days]; the item carries the
    key, the ingredient's name and unit, the days left, the remaining
    quantity and, as potential loss, [remaining_quantity * cost_per_unit].
    A batch whose expiry date is before today (both being dates of the
    calendar) is never listed. *)
Theorem expiring_items_listing st today days :
  ingredients_resolve st ->
  exists items,
    get_expiring_items st today days = Some items
    /\ (forall it,
          In it items
          <-> exists i p e g,
              table_get i (purchases st) = Some p /\ 0 < remaining_quantity p
              /\ expiry_date p = Some e
              /\ 0 <= days_between e today <= days
              /\ table_get (ingredient_id p) (ingredients st) = Some g
              /\ it = mkExpiring i (name g) (days_between e today)
                        (remaining_quantity p * cost_per_unit p)
                        (remaining_quantity p) (standard_unit g))
    /\ (forall i p e,
          table_get i (purchases st) = Some p -> expiry_date p = Some e ->
          valid_date today -> valid_date e -> date_ltb e today = true ->
          forall it, In it items -> exp_id it <> i).
Proof.
  intros Hres. unfold get_expiring_items.
  set (rows := List.filter (fun r => 0 <? remaining_quantity (snd r))
                           (all_rows (purchases st))).
  assert (Hrows : forall i p, In (i, p) rows
                              <-> table_get i (purchases st) = Some p
                                  /\ 0 < remaining_quantity p).
  { intros i p. subst rows. rewrite List.filter_In, In_all_rows. simpl.
    by rewrite Z.ltb_lt. }
  assert (Hlist : forall it,
            In it (flat_map (expiring_of st today days) rows)
            <-> exists i p e g,
                table_get i (purchases st) = Some p /\ 0 < remaining_quantity p
                /\ expiry_date p = Some e
                /\ 0 <= days_between e today <= days
                /\ table_get (ingredient_id p) (ingredients st) = Some g
                /\ it = mkExpiring i (name g) (days_between e today)
                          (remaining_quantity p * cost_per_unit p)
                          (remaining_quantity p) (standard_unit g)).
  { intros it. rewrite List.in_flat_map. split.
    - intros ([i p] & Hin & Hit). apply Hrows in Hin as [Hp Hpos].
      unfold expiring_of in Hit. simpl in Hit.
      destruct (expiry_date p) as [e|] eqn:He; [|done].
      destruct (table_get (ingredient_id p) (ingredients st)) as [g|] eqn:Hg; [|done].
      destruct (Z.leb_spec 0 (days_between e today)); [|done].
      destruct (Z.leb_spec (days_between e today) days); [|done].
      destruct Hit as [<-|[]]. exists i, p, e, g. repeat split; try done; lia.
    - intros (i & p & e & g & Hp & Hpos & He & Hd & Hg & ->).
      exists (i, p). split; [by apply Hrows|].
      unfold expiring_of. simpl. rewrite He, Hg.
      destruct (Z.leb_spec 0 (days_between e today)); [|lia].
      destruct (Z.leb_spec (days_between e today) days); [|lia]. by left. }
  eexists. split; [|split; [exact Hlist|]].
  - rewrite expiring_fold; [done|]. apply List.Forall_forall. intros [i p] Hin.
    apply Hrows in Hin as [Hp _]. by apply (Hres i).
  - intros i p e Hp He Ht Hv Hlt it Hin Hid.
    apply Hlist in Hin as (i' & p' & e' & g & Hp' & _ & He' & [Hd _] & _ & ->).
    simpl in Hid. subst i'. rewrite Hp in Hp'. injection Hp' as <-.
    rewrite He in He'. injection He' as <-.
    apply (days_between_nonneg e today Hv Ht) in Hd.
    unfold date_ltb in Hlt. unfold date_leb in Hd.
    rewrite (date_compare_antisym e today) in Hd. by destruct (date_compare e today).
Qed.

Lemma expiring_items_listing_witness :
  ingredients_resolve
    (run [OpPurchase day1 "market" [mkItem "milk" 10 "ml" 20 2 (Some day2)]]
         (empty_store true))
  /\ exists items,
      get_expiring_items
        (run [OpPurchase day1 "market" [mkItem "milk" 10 "ml" 20 2 (Some day2)]]
             (empty_store true)) day1 3 = Some items.
Proof.
  assert (H : ingredients_resolve
                (run [OpPurchase day1 "market" [mkItem "milk" 10 "ml" 20 2 (Some day2)]]
                     (empty_store true))).
  { intros i p Hp. apply elem_of_table_get in Hp. vm_compute in Hp.
    destruct Hp as [<-|[]]. vm_compute. eauto. }
  split; [exact H|].
  destruct (expiring_items_listing _ day1 3 H) as (items & Hi & _).
  exists items. exact Hi.
Defined.

(** ** A meal and its reversal *)

Section OrderFacts.
Context {A : Type} (leb : A -> A -> bool).
Hypothesis leb_total : forall x y, leb x y = false -> leb y x = true.
Hypothesis leb_trans : forall x y z, leb x y = true -> leb y z = true -> leb x z = true.

Lemma insert_row_head x (l : list (nat * A)) :
  Forall (fun y => leb (snd x) (snd y) = true) l -> insert_row leb x l = x :: l.
Proof. destruct l as [|y l]; simpl; [done|]. intros [H _]%Forall_cons. by rewrite H. Qed.

Lemma filter_insert_row (c : nat * A -> bool) x l :
  StronglySorted (fun r r' => leb (snd r) (snd r') = true) l ->
  List.filter c (insert_row leb x l)
  = if c x then insert_row leb x (List.filter c l) else List.filter c l.
Proof.
  induction 1 as [|y l Hs IH Hall]; simpl.
  - by destruct (c x).
  - destruct (leb (snd x) (snd y)) eqn:Hxy; simpl.
    + destruct (c x) eqn:Hcx; [|done].
      symmetry. apply (insert_row_head x (List.filter c (y :: l))).
      apply List.Forall_forall. intros z Hz. apply List.filter_In in Hz as [Hz _].
      destruct Hz as [<-|Hz]; [done|].
      eapply leb_trans; [exact Hxy|]. by eapply List.Forall_forall in Hall.
    + rewrite IH. destruct (c y) eqn:Hcy, (c x) eqn:Hcx; simpl; try done.
      by rewrite Hxy.
Qed.

Lemma filter_order_by (c : nat * A -> bool) l :
  List.filter c (order_by leb l) = order_by leb (List.filter c l).
Proof.
  induction l as [|x l IH]; simpl; [done|].
  rewrite filter_insert_row.
  - destruct (c x); simpl; by rewrite IH.
  - apply Sorted_StronglySorted; [intros r1 r2 r3; apply leb_trans|].
    by apply order_by_Sorted.
Qed.
End OrderFacts.

Lemma insert_row_map {A : Type} (leb : A -> A -> bool) (h : nat * A -> nat * A) x l :
  (forall r r', leb (snd (h r)) (snd (h r')) = leb (snd r) (snd r')) ->
  insert_row leb (h x) (map h l) = map h (insert_row leb x l).
Proof.
  intros H. induction l as [|y l IH]; simpl; [done|].
  rewrite H. destruct (leb (snd x) (snd y)); simpl; [done|]. by rewrite IH.
Qed.

Lemma order_by_map {A : Type} (leb : A -> A -> bool) (h : nat * A -> nat * A) l :
  (forall r r', leb (snd (h r)) (snd (h r')) = leb (snd r) (snd r')) ->
  order_by leb (map h l) = map h (order_by leb l).
Proof.
  intros H. induction l as [|x l IH]; simpl; [done|].
  by rewrite IH, insert_row_map.
Qed.

Lemma map_adjust_rows rows amounts :
  map fst amounts = map fst rows -> List.NoDup (map fst rows) ->
  map (fun r => (fst r, set_remaining (snd r)
                          (remaining_quantity (snd r) + amount_of (fst r) amounts)))
      rows
  = add_to_rows rows amounts.
Proof.
  revert amounts. induction rows as [|[i p] rows IH]; intros [|[j a] amounts] Hk Hnd;
    simpl in *; try done.
  injection Hk as -> Hk. apply List.NoDup_cons_iff in Hnd as [Hni Hnd].
  rewrite amount_of_cons_eq. f_equal. rewrite <- (IH amounts Hk Hnd).
  apply map_ext_in. intros [k x] Hin. simpl.
  rewrite amount_of_cons_ne; [done|]. intros ->. apply Hni.
  by apply (List.in_map fst) in Hin.
Qed.

Lemma restore_amounts_after_takes ing rows q :
  Forall (fun r => ingredient_id (snd r) = ing
                   /\ remaining_quantity (snd r) = quantity (snd r)
                   /\ 0 < remaining_quantity (snd r)) rows ->
  0 <= q <= sum_Z (map (fun r => remaining_quantity (snd r)) rows) ->
  restore_amounts
    (List.filter (not_full ing) (add_to_rows rows (negated (fifo_takes rows q)))) q
  = List.filter (fun ka => 0 <? snd ka) (fifo_takes rows q).
Proof.
  revert q. induction rows as [|[i p] rows IH]; intros q Hr Hq; [done|].
  apply Forall_cons in Hr as [(Hi & Hfull & Hpos) Hr]. simpl in Hi, Hfull, Hpos.
  cbn [fifo_takes]. destruct (Z.leb_spec q 0) as [Hq0|Hq0].
  - assert (q = 0) as -> by lia.
    cbn [negated map add_to_rows fst snd List.filter].
    assert (Hnf : not_full ing (i, set_remaining p (remaining_quantity p + - 0)) = false).
    { unfold not_full. simpl. rewrite Hi, Nat.eqb_refl. simpl. apply Z.ltb_ge. lia. }
    rewrite Hnf. replace (0 <? 0) with false by done.
    apply (IH 0 Hr). pose proof (sum_remaining_nonneg rows) as Hs.
    split; [lia|]. apply Hs. eapply Forall_impl; [exact Hr|]. by intros r (_ & _ & ?).
  - cbn [negated map add_to_rows fst snd List.filter].
    set (a := Z.min (remaining_quantity p) q).
    assert (Ha : 0 < a) by (subst a; lia).
    assert (Hnf : not_full ing (i, set_remaining p (remaining_quantity p + - a)) = true).
    { unfold not_full. simpl. rewrite Hi, Nat.eqb_refl. simpl. apply Z.ltb_lt. lia. }
    rewrite Hnf. replace (0 <? a) with true by (symmetry; by apply Z.ltb_lt).
    cbn [restore_amounts]. destruct (Z.leb_spec q 0); [lia|].
    cbn [set_remaining quantity remaining_quantity].
    replace (Z.min (quantity p - (remaining_quantity p + - a)) q) with a
      by (subst a; lia).
    f_equal. apply (IH (q - a) Hr).
    assert (Hs : 0 <= sum_Z (map (fun r => remaining_quantity (snd r)) rows)).
    { apply sum_remaining_nonneg. eapply Forall_impl; [exact Hr|]. by intros r (_ & _ & ?). }
    unfold sum_Z in *. cbn [map foldr snd] in Hq. subst a. lia.
Qed.

Lemma amount_of_filter_pos i (l : list (nat * Z)) :
  List.NoDup (map fst l) -> Forall (fun ka => 0 <= snd ka) l ->
  amount_of i (List.filter (fun ka => 0 <? snd ka) l) = amount_of i l.
Proof.
  induction l as [|[j a] l IH]; intros Hnd Hpos; [done|].
  apply List.NoDup_cons_iff in Hnd as [Hni Hnd]. apply Forall_cons in Hpos as [Ha Hpos].
  simpl in Ha. cbn [List.filter snd]. destruct (Z.ltb_spec 0 a).
  - destruct (decide (j = i)) as [->|Hne].
    + by rewrite !amount_of_cons_eq.
    + rewrite !amount_of_cons_ne by done. by apply IH.
  - rewrite IH by done. destruct (decide (j = i)) as [->|Hne].
    + rewrite amount_of_cons_eq. rewrite amount_of_notin; [lia|done].
    + by rewrite amount_of_cons_ne.
Qed.

Lemma sum_filter_pos (l : list (nat * Z)) :
  Forall (fun ka => 0 <= snd ka) l ->
  sum_Z (map snd (List.filter (fun ka => 0 <? snd ka) l)) = sum_Z (map snd l).
Proof.
  induction 1 as [|[j a] l Ha _ IH]; [done|]. simpl in *.
  destruct (Z.ltb_spec 0 a); simpl; unfold sum_Z in *; lia.
Qed.

Lemma fifo_takes_nonneg rows q :
  Forall (fun r => 0 < remaining_quantity (snd r)) rows ->
  Forall (fun ka => 0 <= snd ka) (fifo_takes rows q).
Proof.
  revert q. induction rows as [|[i p] rows IH]; intros q Hr; simpl; [constructor|].
  apply Forall_cons in Hr as [Hp Hr]. simpl in Hp.
  destruct (Z.leb_spec q 0); (constructor; [simpl; lia|by apply IH]).
Qed.

Lemma all_rows_adjust_remaining delta t :
  all_rows (adjust_remaining delta t)
  = map (fun r => (fst r, set_remaining (snd r)
                            (remaining_quantity (snd r) + delta (fst r))))
        (all_rows t).
Proof. unfold adjust_remaining, all_rows. apply enumerate_from_map. Qed.

Lemma filter_map_filter {A B : Type} (c : B -> bool) (c0 : A -> bool) (h : A -> B) l :
  (forall x, In x l -> c0 x = false -> c (h x) = false) ->
  List.filter c (map h l) = List.filter c (map h (List.filter c0 l)).
Proof.
  induction l as [|x l IH]; intros H; simpl; [done|].
  destruct (c0 x) eqn:Hc0; simpl.
  - rewrite IH; [done|]. intros y Hy. apply H. by right.
  - rewrite (H x) by (by left || done). apply IH. intros y Hy. apply H. by right.
Qed.

(** The rows the reversal finds after an allocation from full batches: the
    rows of the allocation that lost stock, in the same order. *)
Lemma restore_query_after_allocation st ing q :
  (forall i p, table_get i (purchases st) = Some p -> ingredient_id p = ing ->
               remaining_quantity p = quantity p) ->
  restore_query
    (with_purchases st
       (adjust_remaining (fun i => - amount_of i (fifo_takes (fifo_query st ing) q))
          (purchases st))) ing
  = List.filter (not_full ing)
      (add_to_rows (fifo_query st ing) (negated (fifo_takes (fifo_query st ing) q))).
Proof.
  intros Hfull. set (takes := fifo_takes (fifo_query st ing) q).
  set (h := fun r : nat * Purchase =>
              (fst r, set_remaining (snd r)
                        (remaining_quantity (snd r) + - amount_of (fst r) takes))).
  assert (Hleb : forall r r', fifo_leb (nulls_first st) (snd (h r)) (snd (h r'))
                              = fifo_leb (nulls_first st) (snd r) (snd r')) by done.
  unfold restore_query, query_rows. cbn [with_purchases purchases nulls_first].
  rewrite all_rows_adjust_remaining. fold h.
  rewrite <- (filter_order_by _ (fifo_leb_total _) (fifo_leb_trans _)).
  rewrite (order_by_map _ h _ Hleb).
  rewrite <- (map_adjust_rows (fifo_query st ing) (negated takes));
    [|rewrite map_fst_negated; apply map_fst_fifo_takes|apply fifo_query_NoDup].
  rewrite (map_ext
             (fun r : nat * Purchase =>
                (fst r, set_remaining (snd r)
                          (remaining_quantity (snd r)
                           + amount_of (fst r) (negated takes)))) h)
    by (intros r; unfold h; by rewrite amount_of_negated).
  unfold fifo_query, query_rows.
  rewrite <- (filter_order_by _ (fifo_leb_total _) (fifo_leb_trans _)).
  apply filter_map_filter. intros [i p] Hin Hno.
  assert (Hp : table_get i (purchases st) = Some p).
  { apply In_all_rows. eapply Permutation_in; [apply order_by_perm|exact Hin]. }
  unfold h, not_full. cbn [fst snd set_remaining ingredient_id remaining_quantity quantity].
  destruct (Nat.eqb_spec (ingredient_id p) ing) as [Hi|Hi]; [|done]. simpl.
  apply Z.ltb_ge.
  destruct (fifo_take_of_key st ing q i p Hp) as [_ Hzero].
  unfold in_stock in Hno. simpl in Hno.
  destruct (Nat.eqb_spec (ingredient_id p) ing); [|done]. simpl in Hno.
  apply Z.ltb_ge in Hno. fold takes in Hzero. rewrite Hzero by (right; lia).
  rewrite (Hfull i p Hp Hi). lia.
Qed.

Lemma next_usage_id_fresh t u : In u t -> (usage_id u < next_usage_id t)%nat.
Proof.
  unfold next_usage_id. induction t as [|x t IH]; simpl; [done|].
  intros [->|Hin]; [lia|]. specialize (IH Hin). lia.
Qed.

Lemma get_usage_new t u :
  usage_id u = next_usage_id t -> get_usage (next_usage_id t) (t ++ [u]) = Some u.
Proof.
  intros Hid. unfold get_usage. rewrite List.filter_app.
  assert (Hnone : List.filter (fun x => Nat.eqb (usage_id x) (next_usage_id t)) t = []).
  { clear Hid. generalize (next_usage_id_fresh t). generalize (next_usage_id t).
    intros n Hn. induction t as [|x t IH]; simpl; [done|].
    destruct (Nat.eqb_spec (usage_id x) n) as [Heq|Hne].
    - specialize (Hn x (or_introl eq_refl)). lia.
    - apply IH. intros y Hy. apply Hn. by right. }
  rewrite Hnone. simpl. by rewrite Hid, Nat.eqb_refl.
Qed.

Lemma delete_row_new t u :
  usage_id u = next_usage_id t -> delete_row (next_usage_id t) (t ++ [u]) = t.
Proof.
  intros Hid. unfold delete_row. rewrite List.filter_app. simpl.
  rewrite Hid, Nat.eqb_refl. simpl. rewrite app_nil_r. clear Hid.
  generalize (next_usage_id_fresh t). generalize (next_usage_id t). intros n Hn.
  induction t as [|x t IH]; simpl; [done|].
  destruct (Nat.eqb_spec (usage_id x) n) as [Heq|Hne]; simpl.
  - specialize (Hn x (or_introl eq_refl)). lia.
  - f_equal. apply IH. intros y Hy. apply Hn. by right.
Qed.

Lemma restored_table_after_allocation st ing q :
  (forall i p, table_get i (purchases st) = Some p -> ingredient_id p = ing ->
               remaining_quantity p = quantity p) ->
  0 <= q <= available_stock st ing ->
  restored_table
    (with_purchases st
       (adjust_remaining (fun i => - amount_of i (fifo_takes (fifo_query st ing) q))
          (purchases st))) ing q
  = purchases st.
Proof.
  intros Hfull Hq. set (takes := fifo_takes (fifo_query st ing) q).
  set (st1 := with_purchases st _).
  assert (Hrows : Forall (fun r => ingredient_id (snd r) = ing
                                   /\ remaining_quantity (snd r) = quantity (snd r)
                                   /\ 0 < remaining_quantity (snd r))
                         (fifo_query st ing)).
  { apply List.Forall_forall. intros [i p] Hin.
    apply In_fifo_query in Hin as (Hp & Hi & Hpos). simpl. eauto. }
  assert (Ham : restore_amounts (restore_query st1 ing) q
                = List.filter (fun ka => 0 <? snd ka) takes).
  { subst st1. unfold takes. rewrite restore_query_after_allocation by done.
    apply restore_amounts_after_takes; [done|]. by rewrite sum_fifo_query_available. }
  assert (Hnn : Forall (fun ka => 0 <= snd ka) takes).
  { apply fifo_takes_nonneg, fifo_query_positive. }
  unfold restored_table.
  rewrite flush_add_to_rows;
    [|apply map_fst_restore_amounts|apply restore_query_NoDup
     |apply restore_query_snapshot].
  rewrite Ham, sum_filter_pos by done.
  replace (sum_Z (map snd takes)) with (Z.min q (available_stock st ing))
    by (unfold takes; rewrite sum_fifo_takes, sum_fifo_query_available;
        [done|lia|apply fifo_query_positive]).
  replace (0 <? q - Z.min q (available_stock st ing)) with false
    by (symmetry; apply Z.ltb_ge; lia).
  apply table_ext. intros i. subst st1. cbn [with_purchases purchases].
  rewrite !table_get_adjust_remaining.
  destruct (table_get i (purchases st)) as [p|]; [|done]. simpl. f_equal.
  rewrite amount_of_filter_pos;
    [|unfold takes; rewrite map_fst_fifo_takes; apply fifo_query_NoDup|done].
  destruct p. unfold set_remaining. simpl. f_equal. lia.
Qed.

(** X19. A meal and its reversal cancel out.  The quantities of the ledger
    and of the meal are whole numbers that stay within [2^53] in magnitude
    (the range in which binary64 adds and subtracts them exactly).  When the
    batches of an ingredient of the database are all full
    ([remaining_quantity = quantity]) and an item asks for a quantity between
    0 and the stock, reversing the usage that [cook] has recorded for it
    restores the database exactly: [api_delete_usage] succeeds and leaves the
    store as it was before the meal -- the same batches, usages, events and
    ingredients. *)
Theorem cook_then_reverse_restores st d meal item :
  is_Some (table_get (cook_ingredient_id item) (ingredients st)) ->
  (forall i p, table_get i (purchases st) = Some p ->
               ingredient_id p = cook_ingredient_id item ->
               remaining_quantity p = quantity p) ->
  0 <= final_quantity st item <= available_stock st (cook_ingredient_id item) ->
  quantity_magnitude st + request_quantity st (OpCook d meal [item]) <= exact_range ->
  api_delete_usage (snd (cook st d meal [item])) (next_usage_id (usages st))
  = (success, st).
Proof.
  intros Hing Hfull Hq _. unfold cook. cbn [snd fold_left].
  rewrite cook_item_step_eq, calculate_fifo_cost_adjust by done. cbn [fst snd].
  set (u := mkUsage _ _ _ _ _ _ _ _).
  rewrite (api_delete_usage_eq _ _ u) by (by apply get_usage_new).
  cbn [with_usages usages]. rewrite delete_row_new by done.
  cbn [u usage_ingredient_id actual_usage].
  match goal with
  | |- context [restored_table ?s ?i ?q] =>
      replace (restored_table s i q) with (purchases st)
  end.
  - by destruct st.
  - symmetry. etransitivity;
      [|apply (restored_table_after_allocation st _ _ Hfull Hq)]. reflexivity.
Qed.

Lemma cook_then_reverse_restores_witness :
  is_Some (table_get 1%nat (ingredients (two_batches true)))
  /\ 0 <= 13 <= available_stock (two_batches true) 1
  /\ quantity_magnitude (two_batches true)
     + request_quantity (two_batches true)
         (OpCook day2 "dinner" [mkCookItem 1 13 "std"]) <= exact_range
  /\ api_delete_usage
       (snd (cook (two_batches true) day2 "dinner" [mkCookItem 1 13 "std"])) 1
     = (success, two_batches true).
Proof.
  assert (H1 : is_Some (table_get (cook_ingredient_id (mkCookItem 1 13 "std"))
                          (ingredients (two_batches true))))
    by (vm_compute; eauto).
  assert (H2 : forall i p, table_get i (purchases (two_batches true)) = Some p ->
                           ingredient_id p = cook_ingredient_id (mkCookItem 1 13 "std") ->
                           remaining_quantity p = quantity p).
  { intros i p Hp _. apply elem_of_table_get in Hp. vm_compute in Hp.
    destruct Hp as [<-|[<-|[]]]; reflexivity. }
  assert (H3 : 0 <= final_quantity (two_batches true) (mkCookItem 1 13 "std")
               <= available_stock (two_batches true)
                    (cook_ingredient_id (mkCookItem 1 13 "std")))
    by (vm_compute; split; discriminate).
  assert (H4 : quantity_magnitude (two_batches true)
               + request_quantity (two_batches true)
                   (OpCook day2 "dinner" [mkCookItem 1 13 "std"]) <= exact_range)
    by (by vm_compute).
  split; [exact H1|]. split; [exact H3|]. split; [exact H4|].
  exact (cook_then_reverse_restores (two_batches true) day2 "dinner"
           (mkCookItem 1 13 "std") H1 H2 H3 H4).
Defined.

(** ** Two allocations in a row *)

(** The rows a second allocation finds: the rows of the first that still
    hold stock, in the same order. *)
Lemma fifo_query_after_allocation st ing q :
  fifo_query
    (with_purchases st
       (adjust_remaining (fun i => - amount_of i (fifo_takes (fifo_query st ing) q))
          (purchases st))) ing
  = List.filter (in_stock ing)
      (add_to_rows (fifo_query st ing) (negated (fifo_takes (fifo_query st ing) q))).
Proof.
  set (takes := fifo_takes (fifo_query st ing) q).
  set (h := fun r : nat * Purchase =>
              (fst r, set_remaining (snd r)
                        (remaining_quantity (snd r) + - amount_of (fst r) takes))).
  assert (Hleb : forall r r', fifo_leb (nulls_first st) (snd (h r)) (snd (h r'))
                              = fifo_leb (nulls_first st) (snd r) (snd r')) by done.
  unfold fifo_query at 1, query_rows. cbn [with_purchases purchases nulls_first].
  rewrite all_rows_adjust_remaining. fold h.
  rewrite <- (filter_order_by _ (fifo_leb_total _) (fifo_leb_trans _)).
  rewrite (order_by_map _ h _ Hleb).
  rewrite <- (map_adjust_rows (fifo_query st ing) (negated takes));
    [|rewrite map_fst_negated; apply map_fst_fifo_takes|apply fifo_query_NoDup].
  rewrite (map_ext
             (fun r : nat * Purchase =>
                (fst r, set_remaining (snd r)
                          (remaining_quantity (snd r)
                           + amount_of (fst r) (negated takes)))) h)
    by (intros r; unfold h; by rewrite amount_of_negated).
  unfold fifo_query, query_rows.
  rewrite <- (filter_order_by _ (fifo_leb_total _) (fifo_leb_trans _)).
  apply filter_map_filter. intros [i p] Hin Hno.
  assert (Hp : table_get i (purchases st) = Some p).
  { apply In_all_rows. eapply Permutation_in; [apply order_by_perm|exact Hin]. }
  unfold h, in_stock in *.
  cbn [fst snd set_remaining ingredient_id remaining_quantity] in *.
  destruct (Nat.eqb_spec (ingredient_id p) ing) as [Hi|Hi]; [|done]. simpl in *.
  apply Z.ltb_ge in Hno. apply Z.ltb_ge.
  destruct (fifo_take_of_key st ing q i p Hp) as [_ Hzero].
  fold takes in Hzero. rewrite Hzero by (right; lia). lia.
Qed.

Lemma map_fst_filter_subset {A : Type} (c : nat * A -> bool) (l : list (nat * A)) i :
  In i (map fst (List.filter c l)) -> In i (map fst l).
Proof.
  rewrite !List.in_map_iff. intros (r & Hr & Hin). exists r. split; [done|].
  by apply List.filter_In in Hin as [? _].
Qed.

Lemma fifo_takes_compose ing rows q1 q2 i :
  List.NoDup (map fst rows) ->
  Forall (fun r => ingredient_id (snd r) = ing /\ 0 < remaining_quantity (snd r)) rows ->
  0 <= q1 -> 0 <= q2 ->
  amount_of i (fifo_takes rows q1)
  + amount_of i (fifo_takes
                   (List.filter (in_stock ing)
                      (add_to_rows rows (negated (fifo_takes rows q1)))) q2)
  = amount_of i (fifo_takes rows (q1 + q2)).
Proof.
  revert q1 q2. induction rows as [|[k p] rows IH]; intros q1 q2 Hnd Hr Hq1 Hq2; [done|].
  apply List.NoDup_cons_iff in Hnd as [Hk Hnd].
  apply Forall_cons in Hr as [[Hi Hpos] Hr]. simpl in Hi, Hpos.
  assert (Hnotin : forall q rows', 
            amount_of k (fifo_takes (List.filter (in_stock ing)
                                       (add_to_rows rows (negated (fifo_takes rows q))))
                                    rows') = 0).
  { intros q q'. apply amount_of_notin. rewrite map_fst_fifo_takes.
    intros Hin. apply map_fst_filter_subset in Hin.
    by rewrite map_fst_add_to_rows in Hin. }
  cbn [fifo_takes]. destruct (Z.leb_spec q1 0) as [H1|H1].
  - assert (q1 = 0) as -> by lia. rewrite Z.add_0_l.
    cbn [negated map add_to_rows fst snd List.filter].
    assert (Hin : in_stock ing (k, set_remaining p (remaining_quantity p + - 0)) = true).
    { unfold in_stock. simpl. rewrite Hi, Nat.eqb_refl. simpl. apply Z.ltb_lt. lia. }
    rewrite Hin. cbn [fifo_takes set_remaining remaining_quantity].
    destruct (Z.leb_spec q2 0) as [H2|H2].
    + destruct (decide (k = i)) as [->|Hne].
      * rewrite !amount_of_cons_eq. lia.
      * rewrite !amount_of_cons_ne by done.
        specialize (IH 0 q2 Hnd Hr). rewrite Z.add_0_l in IH. by apply IH.
    + replace (Z.min (remaining_quantity p + - 0) q2)
        with (Z.min (remaining_quantity p) q2) by lia.
      destruct (decide (k = i)) as [->|Hne].
      * rewrite !amount_of_cons_eq. lia.
      * rewrite !amount_of_cons_ne by done.
        specialize (IH 0 (q2 - Z.min (remaining_quantity p) q2) Hnd Hr).
        rewrite Z.add_0_l in IH. apply IH; lia.
  - destruct (Z.leb_spec (q1 + q2) 0) as [H12|H12]; [lia|].
    cbn [negated map add_to_rows fst snd List.filter].
    destruct (Z.le_gt_cases (remaining_quantity p) q1) as [Hle|Hgt].
    + replace (Z.min (remaining_quantity p) q1) with (remaining_quantity p) by lia.
      replace (Z.min (remaining_quantity p) (q1 + q2)) with (remaining_quantity p) by lia.
      assert (Hout : in_stock ing (k, set_remaining p (remaining_quantity p
                                                         + - remaining_quantity p))
                     = false).
      { unfold in_stock. simpl. rewrite Hi, Nat.eqb_refl. simpl. apply Z.ltb_ge. lia. }
      rewrite Hout.
      destruct (decide (k = i)) as [->|Hne].
      * rewrite !amount_of_cons_eq. unfold negated in Hnotin. rewrite Hnotin. lia.
      * rewrite !amount_of_cons_ne by done.
        specialize (IH (q1 - remaining_quantity p) q2 Hnd Hr).
        replace (q1 + q2 - remaining_quantity p)
          with (q1 - remaining_quantity p + q2) by lia.
        apply IH; lia.
    + replace (Z.min (remaining_quantity p) q1) with q1 by lia.
      rewrite Z.sub_diag.
      assert (Hin : in_stock ing (k, set_remaining p (remaining_quantity p + - q1)) = true).
      { unfold in_stock. simpl. rewrite Hi, Nat.eqb_refl. simpl. apply Z.ltb_lt. lia. }
      rewrite Hin. cbn [fifo_takes set_remaining remaining_quantity].
      destruct (Z.leb_spec q2 0) as [H2|H2].
      * assert (q2 = 0) as -> by lia.
        replace (Z.min (remaining_quantity p) (q1 + 0)) with q1 by lia.
        replace (q1 + 0 - q1) with (0 + 0) by lia.
        destruct (decide (k = i)) as [->|Hne].
        -- rewrite !amount_of_cons_eq. lia.
        -- rewrite !amount_of_cons_ne by done. by apply (IH 0 0 Hnd Hr).
      * set (a2 := Z.min (remaining_quantity p + - q1) q2).
        replace (Z.min (remaining_quantity p) (q1 + q2)) with (q1 + a2)
          by (subst a2; lia).
        replace (q1 + q2 - (q1 + a2)) with (0 + (q2 - a2)) by lia.
        destruct (decide (k = i)) as [->|Hne].
        -- rewrite !amount_of_cons_eq. lia.
        -- rewrite !amount_of_cons_ne by done.
           apply (IH 0 (q2 - a2) Hnd Hr); subst a2; lia.
Qed.

Lemma adjust_remaining_twice d1 d2 t :
  adjust_remaining d2 (adjust_remaining d1 t)
  = adjust_remaining (fun i => d1 i + d2 i) t.
Proof.
  apply table_ext. intros i. rewrite !table_get_adjust_remaining.
  destruct (table_get i t) as [p|]; [|done]. simpl. f_equal.
  unfold set_remaining. simpl. f_equal. lia.
Qed.

Lemma calculate_fifo_cost_twice st ing q1 q2 :
  0 <= q1 -> 0 <= q2 ->
  snd (calculate_fifo_cost (snd (calculate_fifo_cost st ing q1)) ing q2)
  = snd (calculate_fifo_cost st ing (q1 + q2)).
Proof.
  intros Hq1 Hq2. destruct (table_get ing (ingredients st)) as [x|] eqn:Hx.
  - assert (Hing : is_Some (table_get ing (ingredients st))) by (rewrite Hx; eauto).
    rewrite (calculate_fifo_cost_adjust st ing q1 Hing),
      (calculate_fifo_cost_adjust st ing (q1 + q2) Hing). cbn [snd].
    rewrite calculate_fifo_cost_adjust by exact Hing.
    cbn [snd with_purchases purchases].
    rewrite fifo_query_after_allocation, adjust_remaining_twice.
    unfold with_purchases. cbn. f_equal. apply adjust_remaining_ext. intros i.
    rewrite <- (fifo_takes_compose ing (fifo_query st ing) q1 q2 i);
      [lia|apply fifo_query_NoDup|apply fifo_query_Forall|done|done].
  - rewrite (calculate_fifo_cost_unknown st ing q1 Hx),
      (calculate_fifo_cost_unknown st ing (q1 + q2) Hx). cbn [snd].
    by rewrite calculate_fifo_cost_unknown.
Qed.

(** X20. Allocations compose.  The numbers of the ledger and the two
    requests are whole and stay within [2^53] in magnitude (the range in
    which binary64 computes with them exactly).  Allocating [q1] and then
    [q2] of an ingredient, both not negative, leaves the same database as
    allocating [q1 + q2] in one call, and the two costs add up to the cost of
    that one call: FIFO does not depend on how a quantity is split over
    calls. *)
Theorem allocations_compose st ing q1 q2 :
  0 <= q1 -> 0 <= q2 -> ledger_magnitude st + (q1 + q2) <= exact_range ->
  snd (calculate_fifo_cost (snd (calculate_fifo_cost st ing q1)) ing q2)
  = snd (calculate_fifo_cost st ing (q1 + q2))
  /\ fst (calculate_fifo_cost st ing q1)
     + fst (calculate_fifo_cost (snd (calculate_fifo_cost st ing q1)) ing q2)
     = fst (calculate_fifo_cost st ing (q1 + q2)).
Proof.
  intros Hq1 Hq2 _.
  pose proof (calculate_fifo_cost_twice st ing q1 q2 Hq1 Hq2) as Heq.
  split; [done|].
  pose proof (calculate_fifo_cost_asset st ing q1) as H1.
  pose proof (calculate_fifo_cost_asset (snd (calculate_fifo_cost st ing q1)) ing q2) as H2.
  pose proof (calculate_fifo_cost_asset st ing (q1 + q2)) as H12.
  rewrite Heq in H2. lia.
Qed.

Lemma allocations_compose_witness :
  0 <= 4 /\ 0 <= 9
  /\ ledger_magnitude (two_batches true) + (4 + 9) <= exact_range
  /\ fst (calculate_fifo_cost (two_batches true) 1 4)
     + fst (calculate_fifo_cost (snd (calculate_fifo_cost (two_batches true) 1 4)) 1 9)
     = fst (calculate_fifo_cost (two_batches true) 1 (4 + 9)).
Proof.
  assert (H1 : 0 <= 4) by lia.
  assert (H2 : 0 <= 9) by lia.
  assert (H3 : ledger_magnitude (two_batches true) + (4 + 9) <= exact_range)
    by (by vm_compute).
  split; [exact H1|]. split; [exact H2|]. split; [exact H3|].
  exact (proj2 (allocations_compose (two_batches true) 1 4 9 H1 H2 H3)).
Defined.

(** ** The estimated cost of the kitchen page *)

(** X21. The estimate of the kitchen page is what the next allocation
    charges: for an ingredient of the database, a quantity between 0 and what
    the first batch of the FIFO order holds costs exactly
    [quantity * estimated_cost]; and an ingredient without stock, whose
    estimate is 0, costs 0 whatever is asked. *)
Theorem estimated_cost_is_charged st ing q :
  is_Some (table_get ing (ingredients st)) ->
  match head (fifo_query st ing) with
  | Some next_batch =>
      0 <= q <= remaining_quantity (snd next_batch) ->
      fst (calculate_fifo_cost st ing q) = q * estimated_cost st ing
  | None =>
      estimated_cost st ing = 0 /\ fst (calculate_fifo_cost st ing q) = 0
  end.
Proof.
  intros Hing. rewrite calculate_fifo_cost_flush by done. cbn [fst].
  unfold estimated_cost. destruct (fifo_query st ing) as [|[i p] rows]; [done|].
  cbn [head snd fifo_takes takes_cost]. intros Hq.
  destruct (Z.leb_spec q 0).
  - assert (q = 0) as -> by lia. rewrite fifo_takes_done, takes_cost_zero by done. lia.
  - replace (Z.min (remaining_quantity p) q) with q by lia.
    rewrite Z.sub_diag, fifo_takes_done, takes_cost_zero by done. lia.
Qed.

Lemma estimated_cost_is_charged_witness :
  is_Some (table_get 1%nat (ingredients (two_batches true)))
  /\ fst (calculate_fifo_cost (two_batches true) 1 7)
     = 7 * estimated_cost (two_batches true) 1.
Proof.
  assert (H : is_Some (table_get 1%nat (ingredients (two_batches true))))
    by (vm_compute; eauto).
  split; [exact H|].
  pose proof (estimated_cost_is_charged (two_batches true) 1 7 H) as Hc.
  cbn [head] in Hc. apply Hc. cbn. lia.
Defined.
